(** * Browser fleet manager: store queries, session engine, scheduler loop

    A shallow embedding of the Python sources under [scripts/browser_manager]
    (and of the sampling helpers of [scripts/fingerprint_tester]) together
    with the properties of the fleet manager's specification.

    Conventions of the embedding:
    - an SQLite table is the list of its rows in rowid order; a nullable
      column is an [option]; TEXT values are [string]s compared byte-wise
      (SQLite's BINARY collation); INTEGER values are [Z];
    - [random] is an injectable source: a tape of raw draws, consumed in the
      order in which the Python code evaluates its calls;
    - the automation driver (Playwright) is an oracle that tells which of
      its calls raise; an exception is a value of the error branch of a
      result, and [try]/[except]/[finally] are written out. *)

From Stdlib Require Import ZArith List String Ascii Bool Lia Sorted Permutation.
From Stdlib Require Import DecimalString.
From stdpp Require Import gmap strings.
Import ListNotations.

Local Open Scope string_scope.
Local Open Scope list_scope.
Local Open Scope Z_scope.

(* ===================================================================== *)
(** * Part I: the embedding *)
(* ===================================================================== *)

(** ** SQLite: ordering of values, ORDER BY, LIMIT *)

Module Sql.

(** Comparison of two TEXT values: [memcmp] on the bytes. *)
Definition text_leb (a b : string) : bool := String.leb a b.

(** Comparison of two nullable TEXT values as ORDER BY ... ASC sees
    them: NULL is smaller than every value (this is SQLite's default for
    ASC, and what NULLS FIRST asks for explicitly). *)
Definition value_leb (a b : option string) : bool :=
  match a, b with
  | None, _ => true
  | Some _, None => false
  | Some x, Some y => text_leb x y
  end.

(** [a <= b] in a WHERE clause: NULL operands make the test unknown,
    and a row whose test is unknown is not selected. *)
Definition where_le (a b : option string) : bool :=
  match a, b with
  | Some x, Some y => text_leb x y
  | _, _ => false
  end.

Section OrderBy.
Context {A : Type} (key : A -> option string).

(** Rows are sorted on the key; rows with equal keys stay in rowid
    order (SQLite leaves the order of ties open). *)
Fixpoint insert_row (r : A) (l : list A) : list A :=
  match l with
  | [] => [r]
  | r' :: l' =>
      if value_leb (key r) (key r') then r :: l
      else r' :: insert_row r l'
  end.

Definition order_by (l : list A) : list A :=
  fold_right insert_row [] l.
End OrderBy.

(** LIMIT n: a negative n means no upper bound on the number of rows. *)
Definition limit {A : Type} (n : Z) (l : list A) : list A :=
  if n <? 0 then l else firstn (Z.to_nat n) l.

End Sql.

(** ** The random source *)

Module Rand.

(** The generator's state is the tape of raw draws still to come; a
    call of the [random] module takes the next raw draw and brings it
    into the range it was asked for.  An exhausted tape yields 0. *)
Definition tape := list N.

Definition M (A : Type) : Type := tape -> A * tape.

Definition ret {A : Type} (a : A) : M A := fun t => (a, t).

Definition bind {A B : Type} (m : M A) (f : A -> M B) : M B :=
  fun t => let (a, t') := m t in f a t'.

Definition raw : M N :=
  fun t => match t with
           | [] => (0%N, [])
           | d :: t' => (d, t')
           end.

Definition run {A : Type} (m : M A) (t : tape) : A := fst (m t).

End Rand.

Notation "x <- m ;; k" := (Rand.bind m (fun x => k))
  (at level 100, m at next level, right associativity).

Module random.

(** [random._randbelow(n)], for n > 0 *)
Definition randbelow (n : N) : Rand.M N :=
  d <- Rand.raw ;; Rand.ret (d mod n)%N.

(** [random.randint(a, b)] is [a + _randbelow(b - a + 1)]. *)
Definition randint (a b : Z) : Rand.M Z :=
  d <- randbelow (Z.to_N (b - a + 1)) ;; Rand.ret (a + Z.of_N d).

(** [random.choice(seq)] is [seq[_randbelow(len(seq))]]; on an empty
    sequence it raises IndexError ([None]) before drawing. *)
Definition choice {A : Type} (seq : list A) : Rand.M (option A) :=
  match seq with
  | [] => Rand.ret None
  | _ :: _ =>
      i <- randbelow (N.of_nat (length seq)) ;;
      Rand.ret (nth_error seq (N.to_nat i))
  end.

(** [random.choice] at a call site whose sequence is a non-empty
    literal: no IndexError there, so the result is not wrapped; [d] only
    fills the unreachable out-of-range case. *)
Definition choice_of {A : Type} (d : A) (seq : list A) : Rand.M A :=
  i <- randbelow (N.of_nat (length seq)) ;;
  Rand.ret (nth (N.to_nat i) seq d).

(** [random.random()]: a multiple of 2^-53 in [0, 1), given by its
    numerator. *)
Definition random : Rand.M N :=
  d <- Rand.raw ;; Rand.ret (d mod 2 ^ 53)%N.

(** [random.random() < num / den].  For the thresholds used in the
    sources (0.3, 0.25, 0.2, 0.15, 0.1) the test against the binary64
    literal and the test against the exact fraction select the same
    numerators. *)
Definition lt_fraction (r : N) (num den : N) : bool :=
  (r * den <? num * 2 ^ 53)%N.

(** [random.uniform(a, b)] is [a + (b - a) * random()]; the result is
    kept as the numerator of the draw (the value is
    a + (b - a) * r / 2^53, rounded to binary64). *)
Definition uniform (a b : Z) : Rand.M N := random.

(** The binary64 nearest to the integer [m], ties to even: [m] cut to
    53 significant bits. *)
Definition binary64 (m : N) : N :=
  if (m <? 2 ^ 53)%N then m
  else
    let e := (N.log2 m - 52)%N in
    let q := (m / 2 ^ e)%N in
    let rest := (m mod 2 ^ e)%N in
    if ((2 ^ e <? 2 * rest) || ((2 * rest =? 2 ^ e) && N.odd q))%N
    then ((q + 1) * 2 ^ e)%N
    else (q * 2 ^ e)%N.

(** [random.choices(population, k=k)]: k times
    [population[floor(random() * n)]] with [n = len(population) + 0.0],
    for fewer than 2^53 elements.  With [r] the numerator of the draw, the
    product is the binary64 nearest to [r * n / 2^53]. *)
Fixpoint choices {A : Type} (d : A) (population : list A) (k : nat)
  : Rand.M (list A) :=
  match k with
  | O => Rand.ret []
  | S k' =>
      r <- random ;;
      rest <- choices d population k' ;;
      Rand.ret
        (nth (N.to_nat
                (binary64 (r * N.of_nat (length population)) / 2 ^ 53)%N)
             population d :: rest)
  end.

(** [pool[j] = pool[last]] *)
Fixpoint overwrite {A : Type} (j : nat) (x : A) (pool : list A) : list A :=
  match pool, j with
  | [], _ => []
  | _ :: pool', O => x :: pool'
  | y :: pool', S j' => y :: overwrite j' x pool'
  end.

(** [random.sample(population, k)] on a population of at most 21
    elements: the pool branch of the library routine,
    [j = _randbelow(n - i); result[i] = pool[j]; pool[j] = pool[n-i-1]]. *)
Fixpoint sample_pool {A : Type} (d : A) (pool : list A) (n : nat) (k : nat)
  : Rand.M (list A) :=
  match k with
  | O => Rand.ret []
  | S k' =>
      j <- randbelow (N.of_nat n) ;;
      let picked := nth (N.to_nat j) pool d in
      let pool' := overwrite (N.to_nat j) (nth (n - 1) pool d) pool in
      rest <- sample_pool d pool' (n - 1) k' ;;
      Rand.ret (picked :: rest)
  end.

Definition sample {A : Type} (d : A) (population : list A) (k : nat)
  : Rand.M (list A) :=
  sample_pool d population (length population) k.

End random.

(** ** Fingerprints ([BrowserManager.generate_fingerprint]) *)

Module viewport.
Record t := { width : Z; height : Z }.
End viewport.

Module screen.
Record t := { width : Z; height : Z; colorDepth : Z; pixelDepth : Z }.
End screen.

Record Fingerprint := {
  user_agent : string;
  viewport : viewport.t;
  timezone : string;
  locale : string;
  platform : string;
  screen : screen.t;
  webgl_vendor : string;
  webgl_renderer : string;
  canvas_fingerprint : string;
  audio_fingerprint : N;
  fonts : list string
}.

Definition user_agents : list string :=
  [ "Mozilla/5.0 (Windows NT 10.0; Win64; x64) AppleWebKit/537.36 (KHTML, like Gecko) Chrome/120.0.0.0 Safari/537.36";
    "Mozilla/5.0 (Windows NT 10.0; Win64; x64) AppleWebKit/537.36 (KHTML, like Gecko) Chrome/119.0.0.0 Safari/537.36";
    "Mozilla/5.0 (Macintosh; Intel Mac OS X 10_15_7) AppleWebKit/537.36 (KHTML, like Gecko) Chrome/120.0.0.0 Safari/537.36";
    "Mozilla/5.0 (X11; Linux x86_64) AppleWebKit/537.36 (KHTML, like Gecko) Chrome/120.0.0.0 Safari/537.36" ].

Definition viewports : list (Z * Z) :=
  [ (1920, 1080); (1366, 768); (1440, 900); (1536, 864); (1280, 720) ].

Definition timezones : list string :=
  [ "America/New_York"; "America/Los_Angeles"; "Europe/London";
    "Europe/Paris"; "Asia/Tokyo"; "Australia/Sydney" ].

Definition locales : list string :=
  [ "en-US"; "en-GB"; "fr-FR"; "de-DE"; "es-ES"; "ja-JP" ].

Definition platforms : list string := [ "Win32"; "MacIntel"; "Linux x86_64" ].

Definition webgl_vendors : list string :=
  [ "Google Inc."; "NVIDIA Corporation"; "AMD" ].

Definition font_catalog : list string :=
  [ "Arial"; "Times New Roman"; "Helvetica"; "Georgia"; "Verdana";
    "Courier New"; "Comic Sans MS"; "Trebuchet MS"; "Impact" ].

(** [string.ascii_letters + string.digits] *)
Definition letters_and_digits : list ascii :=
  list_ascii_of_string
    "abcdefghijklmnopqrstuvwxyzABCDEFGHIJKLMNOPQRSTUVWXYZ0123456789".

Definition decimal (z : Z) : string :=
  DecimalString.NilZero.string_of_int (Z.to_int z).

(** f"ANGLE (Direct3D11 vs_5_0 ps_5_0, D3D11-{n})" *)
Definition renderer_string (n : Z) : string :=
  String.append "ANGLE (Direct3D11 vs_5_0 ps_5_0, D3D11-"
    (String.append (decimal n) ")").

(** The draws are made in the order in which Python evaluates the
    function body: the viewport first, then the entries of the dictionary
    display from top to bottom. *)
Definition generate_fingerprint : Rand.M Fingerprint :=
  vp <- random.choice_of (0, 0) viewports ;;
  ua <- random.choice_of "" user_agents ;;
  tz <- random.choice_of "" timezones ;;
  lc <- random.choice_of "" locales ;;
  pf <- random.choice_of "" platforms ;;
  cd <- random.choice_of 0 [24; 32] ;;
  pd <- random.choice_of 0 [24; 32] ;;
  vendor <- random.choice_of "" webgl_vendors ;;
  rn <- random.randint 10000 99999 ;;
  canvas <- random.choices "a"%char letters_and_digits 32 ;;
  audio <- random.uniform 100 200 ;;
  k <- random.randint 5 9 ;;
  fs <- random.sample "" font_catalog (Z.to_nat k) ;;
  Rand.ret
    {| user_agent := ua;
       viewport := {| viewport.width := fst vp; viewport.height := snd vp |};
       timezone := tz;
       locale := lc;
       platform := pf;
       screen := {| screen.width := fst vp; screen.height := snd vp;
                    screen.colorDepth := cd; screen.pixelDepth := pd |};
       webgl_vendor := vendor;
       webgl_renderer := renderer_string rn;
       canvas_fingerprint := string_of_list_ascii canvas;
       audio_fingerprint := audio;
       fonts := fs |}.

(** ** The [browsers] table *)

Module browsers.

(** The columns of the table.  The fingerprint column holds the JSON
    text of the fingerprint, kept here as the value it encodes.  [status]
    has the default 'inactive' and is only ever written with a text;
    [to_interact] is written from a Python bool (stored as 1 or 0);
    [last_interaction] is NULL or the ISO text of a time. *)
Record row := {
  id : Z;
  browser_id : string;
  name : string;
  proxy_id : option Z;
  email_account_id : option Z;
  fingerprint : Fingerprint;
  status : string;
  to_interact : bool;
  last_interaction : option string;
  created_at : string;
  user_agent : string;
  viewport_width : Z;
  viewport_height : Z;
  timezone : string;
  locale : string;
  platform : string
}.

Definition with_status (s : string) (r : row) : row :=
  {| id := id r; browser_id := browser_id r; name := name r;
     proxy_id := proxy_id r; email_account_id := email_account_id r;
     fingerprint := fingerprint r;
     status := s; to_interact := to_interact r;
     last_interaction := last_interaction r; created_at := created_at r;
     user_agent := user_agent r; viewport_width := viewport_width r;
     viewport_height := viewport_height r; timezone := timezone r;
     locale := locale r; platform := platform r |}.

Definition with_last_interaction (t : string) (r : row) : row :=
  {| id := id r; browser_id := browser_id r; name := name r;
     proxy_id := proxy_id r; email_account_id := email_account_id r;
     fingerprint := fingerprint r;
     status := status r; to_interact := to_interact r;
     last_interaction := Some t; created_at := created_at r;
     user_agent := user_agent r; viewport_width := viewport_width r;
     viewport_height := viewport_height r; timezone := timezone r;
     locale := locale r; platform := platform r |}.

(** UPDATE browsers SET ... WHERE browser_id = ? *)
Definition update (bid : string) (f : row -> row) (table : list row)
  : list row :=
  map (fun r => if String.eqb (browser_id r) bid then f r else r) table.

(** SELECT * FROM browsers WHERE browser_id = ?, then [fetchone()] *)
Definition fetchone (bid : string) (table : list row) : option row :=
  List.find (fun r => String.eqb (browser_id r) bid) table.

End browsers.

(** WHERE to_interact = 1 AND status != 'running' *)
Definition due (r : browsers.row) : bool :=
  browsers.to_interact r && negb (String.eqb (browsers.status r) "running").

(** A Python integer can be bound to a statement parameter when it fits
    a 64-bit SQLite INTEGER; otherwise [execute] raises OverflowError. *)
Definition sqlite_integer (n : Z) : bool :=
  (- 2 ^ 63 <=? n) && (n <? 2 ^ 63).

(** The SELECT of [schedule_browser_batch]: the selected rows, or [None]
    when binding the limit raises. *)
Definition select_due (table : list browsers.row) (batch_size : Z)
  : option (list browsers.row) :=
  if sqlite_integer batch_size then
    Some (Sql.limit batch_size
            (Sql.order_by browsers.last_interaction (List.filter due table)))
  else None.

(** The wall clock as the function reads it: [datetime.now().isoformat()]
    and [(datetime.now() + timedelta(minutes=m)).isoformat()], the latter
    [None] when the sum is out of the range of dates (OverflowError). *)
Record Clock := {
  now : string;
  later : Z -> option string
}.

Record BatchCommand := {
  browser_ids : list string;
  batch_size : Z;
  interval_minutes : Z;
  scheduled_time : string;
  next_batch_time : string
}.

(** [BrowserManager.schedule_browser_batch]; [None] when it raises. *)
Definition schedule_browser_batch (clock : Clock) (table : list browsers.row)
    (size : Z) (interval : Z) : option BatchCommand :=
  match select_due table size with
  | Some rows =>
      match later clock interval with
      | Some next =>
          Some {| browser_ids := map browsers.browser_id rows;
                  batch_size := size;
                  interval_minutes := interval;
                  scheduled_time := now clock;
                  next_batch_time := next |}
      | None => None
      end
  | None => None
  end.

(** ** The [commands] table *)

Module commands.

(** [scheduled_time] is NULL or the ISO text that [save_command] wrote. *)
Record row := {
  id : Z;
  browser_id : string;
  command_type : string;
  command_data : string;
  status : string;
  scheduled_time : option string;
  executed_time : option string;
  created_at : string
}.

End commands.

(** The dictionaries returned by [get_pending_commands].  The
    [command_data] column holds what [save_command] wrote, the JSON text of
    the payload; the text stands for the payload that [json.loads] gives
    back. *)
Record PendingCommand := {
  pc_id : Z;
  pc_browser_id : string;
  pc_command_type : string;
  pc_command_data : string;
  pc_status : string;
  pc_scheduled_time : option string;
  pc_created_at : string
}.

Definition pending_of_row (c : commands.row) : PendingCommand :=
  {| pc_id := commands.id c;
     pc_browser_id := commands.browser_id c;
     pc_command_type := commands.command_type c;
     pc_command_data := commands.command_data c;
     pc_status := commands.status c;
     pc_scheduled_time := commands.scheduled_time c;
     pc_created_at := commands.created_at c |}.

(** Truth value of an [Optional[str]] in [if browser_id:]. *)
Definition truthy (s : option string) : bool :=
  match s with
  | None => false
  | Some x => negb (String.eqb x "")
  end.

(** WHERE browser_id = ? AND status = 'pending' *)
Definition pending_for (bid : string) (c : commands.row) : bool :=
  String.eqb (commands.browser_id c) bid
  && String.eqb (commands.status c) "pending".

(** WHERE status = 'pending' AND
    (scheduled_time IS NULL OR scheduled_time <= datetime('now')) *)
Definition pending_due (now : string) (c : commands.row) : bool :=
  String.eqb (commands.status c) "pending"
  && (match commands.scheduled_time c with None => true | Some _ => false end
      || Sql.where_le (commands.scheduled_time c) (Some now)).

(** [BrowserManager.get_pending_commands]; [now] is the text that
    datetime('now') evaluates to. *)
Definition get_pending_commands (table : list commands.row) (now : string)
    (browser_id : option string) : list PendingCommand :=
  let selected :=
    if truthy browser_id then
      Sql.order_by commands.scheduled_time
        (List.filter (pending_for (default "" browser_id)) table)
    else
      Sql.order_by commands.scheduled_time
        (List.filter (pending_due now) table)
  in
  map pending_of_row selected.

(** ** Commands of an interaction plan *)

(** A command dictionary, by its "type" entry and the entries that
    [execute_command] reads for that type. *)
Inductive Command :=
| navigate (url : string) (wait_for : option string)
| fill (selector : string) (value : string)
| click (selector : string) (index : option Z)
| wait (duration : Z)
| wait_for_navigation
| scroll (direction : string) (amount : Z)
| custom_action (action : string) (description : string).

Definition command_type (c : Command) : string :=
  match c with
  | navigate _ _ => "navigate"
  | fill _ _ => "fill"
  | click _ _ => "click"
  | wait _ => "wait"
  | wait_for_navigation => "wait_for_navigation"
  | scroll _ _ => "scroll"
  | custom_action _ _ => "custom_action"
  end.

(** The text entries of a command. *)
Definition command_texts (c : Command) : list string :=
  match c with
  | navigate url None => [url]
  | navigate url (Some w) => [url; w]
  | fill sel v => [sel; v]
  | click sel _ => [sel]
  | wait _ => []
  | wait_for_navigation => []
  | scroll dir _ => [dir]
  | custom_action a d => [a; d]
  end.

Definition email_commands : list Command :=
  [ navigate "https://gmail.com" (Some "input[type='email']");
    fill "input[type='email']" "{{email_address}}";
    click "#identifierNext" None;
    wait 2000;
    fill "input[type='password']" "{{email_password}}";
    click "#passwordNext" None;
    wait_for_navigation;
    scroll "down" 300;
    click "[data-tooltip='Inbox']" None;
    custom_action "process_emails"
      "Check spam, move important emails, reply with AI" ].

Definition browsing_sites : list string :=
  [ "https://news.google.com"; "https://www.reddit.com";
    "https://stackoverflow.com" ].

Definition browsing_commands : Rand.M (list Command) :=
  url <- random.choice_of "" browsing_sites ;;
  amount <- random.randint 200 500 ;;
  duration <- random.randint 1000 3000 ;;
  index <- random.randint 0 5 ;;
  Rand.ret
    [ navigate url None;
      scroll "down" amount;
      wait duration;
      click "a" (Some index) ].

(** [BrowserManager.generate_interaction_commands]: the body reads
    neither its argument nor the store. *)
Definition generate_interaction_commands (browser_id : string)
  : Rand.M (list Command) :=
  browsing <- browsing_commands ;;
  Rand.ret (email_commands ++ browsing).

(** ** Weighted sampling of the fingerprint tester
    ([AdvancedFingerprintTester] in fingerprint_tester/Attributes/tester.py) *)

Module tester.

(** [x in l] *)
Definition member (x : string) (l : list string) : bool :=
  existsb (String.eqb x) l.

(** Truth value of a list: non-empty. *)
Definition nonempty {A : Type} (l : list A) : bool :=
  match l with [] => false | _ :: _ => true end.

(** The common body of the three [get_weighted_*] methods, which
    differ in the list of common values and in the threshold
    [num / den]:
<<
    uncommon = [r for r in candidates if r not in common]
    if random.random() < threshold and common:
        return random.choice([r for r in common if r in candidates])
    else:
        return random.choice(uncommon if uncommon else candidates)
>>
    [None] stands for the IndexError of [random.choice] on an empty
    list. *)
Definition weighted (num den : N) (common candidates : list string)
  : Rand.M (option string) :=
  let uncommon :=
    List.filter (fun r => negb (member r common)) candidates in
  r <- random.random ;;
  if random.lt_fraction r num den && nonempty common then
    random.choice (List.filter (fun r => member r candidates) common)
  else
    random.choice (if nonempty uncommon then uncommon else candidates).

Definition common_resolutions : list string :=
  [ "1920x1080"; "1366x768"; "1280x720"; "1536x864" ].

Definition common_timezones : list string :=
  [ "America/New_York"; "Europe/London"; "America/Los_Angeles"; "UTC" ].

Definition common_languages : list string :=
  [ "en-US,en;q=0.9"; "en-GB,en;q=0.9"; "en,en-US;q=0.9" ].

(** 20% chance of common, 80% chance of uncommon *)
Definition get_weighted_resolution (resolutions : list string)
  : Rand.M (option string) :=
  weighted 1 5 common_resolutions resolutions.

(** 15% chance of common, 85% chance of uncommon *)
Definition get_weighted_timezone (timezones : list string)
  : Rand.M (option string) :=
  weighted 3 20 common_timezones timezones.

(** 10% chance of common, 90% chance of uncommon *)
Definition get_weighted_language (languages : list string)
  : Rand.M (option string) :=
  weighted 1 10 common_languages languages.

End tester.

(** ** Weighted sampling of the first fingerprint tester
    ([FingerprintTester] in fingerprint_tester/fingerprint_tester.py): the
    same body with shorter lists of common values and other thresholds *)

Module fingerprint_tester.

Definition common_resolutions : list string :=
  [ "1920x1080"; "1366x768"; "1280x720" ].

Definition common_timezones : list string :=
  [ "America/New_York"; "Europe/London"; "America/Los_Angeles" ].

Definition common_languages : list string :=
  [ "en-US,en;q=0.9"; "en-GB,en;q=0.9" ].

(** 30% chance of common, 70% chance of uncommon *)
Definition get_weighted_resolution (resolutions : list string)
  : Rand.M (option string) :=
  tester.weighted 3 10 common_resolutions resolutions.

(** 25% chance of common, 75% chance of uncommon *)
Definition get_weighted_timezone (timezones : list string)
  : Rand.M (option string) :=
  tester.weighted 1 4 common_timezones timezones.

(** 20% chance of common, 80% chance of uncommon *)
Definition get_weighted_language (languages : list string)
  : Rand.M (option string) :=
  tester.weighted 1 5 common_languages languages.

End fingerprint_tester.
(** ** The [proxies] table *)

Module proxies.

Record row := {
  id : Z;
  name : option string;
  host : string;
  port : Z;
  username : option string;
  password : option string;
  protocol : option string;
  status : string
}.

(** The rows, and the largest rowid handed out so far (AUTOINCREMENT). *)
Record table := { rows : list row; last_id : Z }.

(** INSERT of one row under the next rowid.  [proto] is [None] when the
    statement does not name the protocol column, which then gets its
    DEFAULT 'http', and the bound value (NULL or a text) when it does. *)
Definition insert (nm : option string) (h : string) (p : Z)
    (user pass : option string) (proto : option (option string)) (t : table)
  : Z * table :=
  let rowid := last_id t + 1 in
  (rowid,
   {| rows := rows t ++
              [ {| id := rowid; name := nm; host := h; port := p;
                   username := user; password := pass;
                   protocol := default (Some "http") proto;
                   status := "active" |} ];
      last_id := rowid |}).

(** WHERE host = ? AND port = ? AND username = ? *)
Definition same_endpoint (h : string) (p : Z) (user : string) (r : row)
  : bool :=
  String.eqb (host r) h && (port r =? p)
  && match username r with
     | Some u => String.eqb u user
     | None => false
     end.

(** SELECT ... WHERE id = ?, then [fetchone()] *)
Definition by_id (n : Z) (t : table) : option row :=
  List.find (fun r => id r =? n) (rows t).

End proxies.

(** ** The execution engine ([PlaywrightExecutor]) *)

(** *** Computations that may raise *)

(** The exceptions of the model are instances of [Exception]: errors of
    the driver and of the store.  Cancellation of the task is not an
    [Exception] and is not modelled. *)
Inductive Outcome (A : Type) :=
| Returned (a : A)
| Raised (message : string).
Arguments Returned {A} a.
Arguments Raised {A} message.

(** *** Launch commands ([BrowserManager.generate_launch_command]) *)

Record ProxyOptions := {
  server : string;
  proxy_username : option string;
  proxy_password : option string
}.

Record LaunchCommand := {
  lc_browser_id : string;
  lc_headless : bool;
  lc_args : list string;
  lc_fingerprint : Fingerprint;
  lc_proxy : option ProxyOptions
}.

(** [x if x else None] on a nullable text *)
Definition text_or_none (x : option string) : option string :=
  match x with
  | Some s => if String.eqb s "" then None else Some s
  | None => None
  end.

(** The context options and the overrides of the launch command are
    entries of the fingerprint, which is carried as a whole.  The proxies
    table is made by [CSVImportUtility], not by [BrowserManager]: [pxs] is
    [None] in a store without it.  The function raises ValueError for an
    unknown browser, and sqlite3.OperationalError when it has to look up a
    proxy and there is no proxies table. *)
Definition generate_launch_command (table : list browsers.row)
    (pxs : option proxies.table) (browser_id : string)
    (headless use_proxy : bool) : Outcome LaunchCommand :=
  match browsers.fetchone browser_id table with
  | None =>
      Raised (String.append "Browser " (String.append browser_id " not found"))
  | Some browser =>
      let fp := browsers.fingerprint browser in
      let command (proxy : option ProxyOptions) :=
        {| lc_browser_id := browser_id;
           lc_headless := headless;
           lc_args :=
             [ String.append "--user-agent=" (user_agent fp);
               String.append "--window-size="
                 (String.append (decimal (viewport.width (viewport fp)))
                    (String.append ","
                       (decimal (viewport.height (viewport fp)))));
               "--no-default-browser-check";
               "--disable-blink-features=AutomationControlled";
               "--disable-web-security";
               "--disable-features=VizDisplayCompositor" ];
           lc_fingerprint := fp;
           lc_proxy := proxy |} in
      match browsers.proxy_id browser with
      | Some pid =>
          if use_proxy && negb (pid =? 0) then
            match pxs with
            | None => Raised "no such table: proxies"
            | Some stored =>
                match proxies.by_id pid stored with
                | Some p =>
                    Returned
                      (command
                         (Some
                            {| server :=
                                 String.append "http://"
                                   (String.append (proxies.host p)
                                      (String.append ":"
                                         (decimal (proxies.port p))));
                               proxy_username :=
                                 text_or_none (proxies.username p);
                               proxy_password :=
                                 text_or_none (proxies.password p) |}))
                | None => Returned (command None)
                end
            end
          else Returned (command None)
      | None => Returned (command None)
      end
  end.

(** *** The world of the engine *)

(** What the outside answers to the k-th interaction of the engine with
    the automation driver: whether the call raises, and for a query how
    many elements it finds. *)
Record Reply := { raises : bool; found : nat }.

Record Env := {
  driver : nat -> Reply;
  (** [datetime.now().isoformat()], read after k driver interactions *)
  wall_clock : nat -> string
}.

(** One entry of [active_browsers]: the driver handles are stood for by
    the number of the interaction that opened them. *)
Record BrowserInfo := {
  page : nat;
  info_browser_id : string;
  launched_at : string
}.

(** What the engine does, in order.  [Executing] is a ghost event: it
    marks that [execute_command] entered the dispatch on the type of a
    command; the other events are driver calls, sleeps and the messages
    the source prints. *)
Inductive Event :=
| Executing (browser_id : string) (c : Command)
| Called (what : string)
| Slept
| CommandError (type : string)
| EmailError
| SessionError (browser_id : string)
| CloseError (browser_id : string).

Record World := {
  table : list browsers.row;
  (** [None]: the store has no proxies table *)
  proxy_table : option proxies.table;
  active_browsers : gmap string BrowserInfo;
  rng : Rand.tape;
  calls : nat;
  log : list Event
}.

Definition with_table (f : list browsers.row -> list browsers.row)
    (w : World) : World :=
  {| table := f (table w); proxy_table := proxy_table w;
     active_browsers := active_browsers w; rng := rng w;
     calls := calls w; log := log w |}.

Definition with_active
    (f : gmap string BrowserInfo -> gmap string BrowserInfo)
    (w : World) : World :=
  {| table := table w; proxy_table := proxy_table w;
     active_browsers := f (active_browsers w); rng := rng w;
     calls := calls w; log := log w |}.

Definition with_rng (t : Rand.tape) (w : World) : World :=
  {| table := table w; proxy_table := proxy_table w;
     active_browsers := active_browsers w; rng := t;
     calls := calls w; log := log w |}.

Definition with_event (e : Event) (w : World) : World :=
  {| table := table w; proxy_table := proxy_table w;
     active_browsers := active_browsers w; rng := rng w;
     calls := calls w; log := log w ++ [e] |}.

Definition with_call (w : World) : World :=
  {| table := table w; proxy_table := proxy_table w;
     active_browsers := active_browsers w; rng := rng w;
     calls := S (calls w); log := log w |}.

Definition Run (A : Type) : Type := World -> Outcome A * World.

Module Run.

Definition ret {A : Type} (a : A) : Run A := fun w => (Returned a, w).

Definition raise {A : Type} (message : string) : Run A :=
  fun w => (Raised message, w).

Definition bind {A B : Type} (m : Run A) (f : A -> Run B) : Run B :=
  fun w =>
    match m w with
    | (Returned a, w') => f a w'
    | (Raised e, w') => (Raised e, w')
    end.

(** try: body / except Exception as e: handler(e) *)
Definition try_except (body : Run unit) (handler : string -> Run unit)
  : Run unit :=
  fun w =>
    match body w with
    | (Returned a, w') => (Returned a, w')
    | (Raised e, w') => handler e w'
    end.

(** try: body / finally: cleanup *)
Definition try_finally (body : Run unit) (cleanup : Run unit) : Run unit :=
  fun w =>
    match body w with
    | (outcome, w') =>
        match cleanup w' with
        | (Returned _, w'') => (outcome, w'')
        | (Raised e, w'') => (Raised e, w'')
        end
    end.

Definition modify (f : World -> World) : Run unit :=
  fun w => (Returned tt, f w).

Definition get {A : Type} (f : World -> A) : Run A :=
  fun w => (Returned (f w), w).

(** for x in l: body(x) *)
Fixpoint for_each {A : Type} (l : list A) (body : A -> Run unit) : Run unit :=
  match l with
  | [] => ret tt
  | x :: l' => bind (body x) (fun _ => for_each l' body)
  end.

(** A call of the [random] module. *)
Definition draw {A : Type} (m : Rand.M A) : Run A :=
  fun w => let (a, t) := m (rng w) in (Returned a, with_rng t w).

End Run.

Notation "x <-- m ;;; k" := (Run.bind m (fun x => k))
  (at level 100, m at next level, right associativity).
Notation "m ;;; k" := (Run.bind m (fun _ => k))
  (at level 100, right associativity).

Section Engine.

Context (env : Env).

(** One awaited call of the driver. *)
Definition driver_call (what : string) : Run nat :=
  fun w =>
    let reply := driver env (calls w) in
    let w' := with_event (Called what) (with_call w) in
    if raises reply
    then (Raised (String.append "driver error in " what), w')
    else (Returned (found reply), w').

(** [await asyncio.sleep(...)] *)
Definition sleep : Run unit := Run.modify (with_event Slept).

Definition print (e : Event) : Run unit := Run.modify (with_event e).

(** [PlaywrightExecutor.update_browser_status] *)
Definition update_browser_status (browser_id status : string) : Run unit :=
  Run.modify
    (with_table (browsers.update browser_id (browsers.with_status status))).

(** [PlaywrightExecutor.update_browser_last_interaction] *)
Definition update_browser_last_interaction (browser_id : string) : Run unit :=
  Run.modify
    (fun w =>
       with_table
         (browsers.update browser_id
            (browsers.with_last_interaction (wall_clock env (calls w))))
         w).

(** [PlaywrightExecutor.apply_fingerprint_overrides]: four init scripts *)
Definition apply_fingerprint_overrides : Run unit :=
  driver_call "page.add_init_script (WebGL)" ;;;
  driver_call "page.add_init_script (canvas)" ;;;
  driver_call "page.add_init_script (fonts)" ;;;
  driver_call "page.add_init_script (webdriver)" ;;;
  Run.ret tt.

(** [PlaywrightExecutor.launch_browser] *)
Definition launch_browser (browser_id : string) (use_proxy : bool)
  : Run BrowserInfo :=
  found <-- Run.get (fun w =>
                     generate_launch_command (table w) (proxy_table w)
                       browser_id false use_proxy) ;;;
  command <-- match found with
              | Returned c => Run.ret c
              | Raised e => Run.raise e
              end ;;;
  driver_call "async_playwright().start" ;;;
  driver_call "chromium.launch" ;;;
  driver_call "browser.new_context" ;;;
  driver_call "context.new_page" ;;;
  apply_fingerprint_overrides ;;;
  now <-- Run.get (fun w => wall_clock env (calls w)) ;;;
  opened <-- Run.get calls ;;;
  let browser_info :=
    {| page := opened; info_browser_id := browser_id; launched_at := now |} in
  Run.modify (with_active (insert browser_id browser_info)) ;;;
  update_browser_status browser_id "running" ;;;
  Run.ret browser_info.

(** [PlaywrightExecutor.process_emails]: the page interactions of the
    mailbox walk are stood for by one driver interaction; whatever they
    raise is caught by the method's own handler. *)
Definition process_emails (browser_id : string) : Run unit :=
  Run.try_except
    (driver_call "process_emails" ;;; Run.ret tt)
    (fun _ => print EmailError).

(** [PlaywrightExecutor.execute_custom_action] *)
Definition execute_custom_action (browser_id action : string) : Run unit :=
  if String.eqb action "process_emails" then process_emails browser_id
  else Run.ret tt.

(** The dispatch of [execute_command] on the type of the command. *)
Definition dispatch (browser_id : string) (command : Command) : Run unit :=
  match command with
  | navigate url wait_for =>
      driver_call "page.goto" ;;;
      match wait_for with
      | Some _ => driver_call "page.wait_for_selector" ;;; Run.ret tt
      | None => Run.ret tt
      end
  | click selector (Some index) =>
      elements <-- driver_call "page.query_selector_all" ;;;
      if (0 <? Z.of_nat elements) && (index <? Z.of_nat elements)
      then
        (* elements[index]: IndexError below -len(elements) *)
        if index <? - Z.of_nat elements
        then Run.raise "list index out of range"
        else driver_call "element.click" ;;; Run.ret tt
      else Run.ret tt
  | click selector None => driver_call "page.click" ;;; Run.ret tt
  | fill selector value => driver_call "page.fill" ;;; Run.ret tt
  | scroll direction amount =>
      if String.eqb direction "down"
      then driver_call "page.evaluate" ;;; Run.ret tt
      else if String.eqb direction "up"
      then driver_call "page.evaluate" ;;; Run.ret tt
      else Run.ret tt
  | wait duration => sleep
  | wait_for_navigation =>
      driver_call "page.wait_for_load_state" ;;; Run.ret tt
  | custom_action action _ => execute_custom_action browser_id action
  end.

(** [PlaywrightExecutor.execute_command] *)
Definition execute_command (browser_id : string) (command : Command)
  : Run unit :=
  active <-- Run.get active_browsers ;;;
  match active !! browser_id with
  | None => launch_browser browser_id false ;;; Run.ret tt
  | Some _ => Run.ret tt
  end ;;;
  Run.try_except
    (print (Executing browser_id command) ;;;
     dispatch browser_id command)
    (fun _ => print (CommandError (command_type command))).

(** [PlaywrightExecutor.close_browser] *)
Definition close_browser (browser_id : string) : Run unit :=
  active <-- Run.get active_browsers ;;;
  match active !! browser_id with
  | Some browser_info =>
      Run.try_except
        (driver_call "context.close" ;;;
         driver_call "browser.close" ;;;
         driver_call "playwright.stop" ;;;
         Run.ret tt)
        (fun _ => print (CloseError browser_id)) ;;;
      Run.modify (with_active (delete browser_id)) ;;;
      update_browser_status browser_id "inactive"
  | None => Run.ret tt
  end.

(** The body of [run_single_browser_session] for an injected command
    generator ([self.browser_manager.generate_interaction_commands]). *)
Definition run_session (generator : string -> Rand.M (list Command))
    (browser_id : string) : Run unit :=
  Run.try_finally
    (Run.try_except
       (launch_browser browser_id false ;;;
        commands <-- Run.draw (generator browser_id) ;;;
        Run.for_each commands
          (fun command =>
             execute_command browser_id command ;;;
             Run.draw (random.uniform 1 3) ;;;
             sleep) ;;;
        update_browser_last_interaction browser_id)
       (fun _ => print (SessionError browser_id)))
    (close_browser browser_id).

(** [PlaywrightExecutor.run_single_browser_session] *)
Definition run_single_browser_session (browser_id : string) : Run unit :=
  run_session generate_interaction_commands browser_id.

End Engine.

(** The stored status of an identity. *)
Definition stored_status (browser_id : string) (w : World) : option string :=
  option_map browsers.status (browsers.fetchone browser_id (table w)).

Definition stored_last_interaction (browser_id : string) (w : World)
  : option (option string) :=
  option_map browsers.last_interaction (browsers.fetchone browser_id (table w)).

(** The commands whose dispatch was entered, in order. *)
Definition executed (events : list Event) : list Command :=
  flat_map (fun e => match e with Executing _ c => [c] | _ => [] end) events.

(** The sessions reported as failed, in order. *)
Definition session_errors (events : list Event) : list string :=
  flat_map (fun e => match e with SessionError b => [b] | _ => [] end) events.

(** ** The continuous loop ([BrowserScheduler]) *)

Inductive LoopEvent :=
| BatchRun (batch_size : Z)
| Waiting (interval_minutes : Z)
| LoopError
| Sleeping (seconds : Z).

(** What happens around one pass of the loop: whether the batch run
    lets an exception escape, and whether [stop_automation] was called
    while the pass was suspended. *)
Record Turn := { batch_raises : bool; stop_requested : bool }.

(** One pass of the body of [while self.running]. *)
Definition pass (batch_size interval_minutes : Z) (turn : Turn)
  : list LoopEvent :=
  if batch_raises turn then
    [ BatchRun batch_size; LoopError; Sleeping 60 ]
  else
    [ BatchRun batch_size; Waiting interval_minutes;
      Sleeping (interval_minutes * 60) ].

(** The loop, observed over the given turns: the events so far, and
    whether the loop is still running after them. *)
Fixpoint while_running (batch_size interval_minutes : Z) (running : bool)
    (turns : list Turn) : list LoopEvent * bool :=
  match turns with
  | [] => ([], running)
  | turn :: rest =>
      if running then
        let (events, still) :=
          while_running batch_size interval_minutes
            (negb (stop_requested turn)) rest in
        (pass batch_size interval_minutes turn ++ events, still)
      else ([], false)
  end.

(** [BrowserScheduler.start_continuous_automation] *)
Definition start_continuous_automation (batch_size interval_minutes : Z)
    (turns : list Turn) : list LoopEvent * bool :=
  while_running batch_size interval_minutes true turns.

(** Seconds slept in a sequence of events. *)
Definition slept (events : list LoopEvent) : Z :=
  fold_right (fun e acc => match e with Sleeping s => s + acc | _ => acc end)
    0 events.

Definition batches (events : list LoopEvent) : nat :=
  length (List.filter (fun e => match e with BatchRun _ => true | _ => false end)
            events).

(** ** Import of proxies ([CSVImportUtility]) *)

(** What [row.get(key, fallback)] finds in a row of [csv.DictReader]:
    no such column in the header ([None], the fallback is used), a column
    for which a short row has no cell ([Some None], the value is Python's
    None) or the text of the cell. *)
Definition Cell : Type := option (option string).

Definition dict_get (fallback : string) (c : Cell) : option string :=
  match c with
  | None => Some fallback
  | Some value => value
  end.

(** One row of the proxies file as [csv.DictReader] yields it.  For
    [row['host']] and [row['port']] a missing column (KeyError) and a
    missing cell (NULL in a NOT NULL column, [int(None)]) both end the
    turn, so [None] stands for either. *)
Record ProxyCsvRow := {
  csv_name : Cell;
  csv_host : option string;
  csv_port : option string;
  csv_username : Cell;
  csv_password : Cell;
  csv_protocol : Cell
}.

Definition digit (c : ascii) : option Z :=
  let n := Z.of_N (N_of_ascii c) in
  if (48 <=? n) && (n <=? 57) then Some (n - 48) else None.

Fixpoint digits (s : string) (acc : Z) : option Z :=
  match s with
  | EmptyString => Some acc
  | String c s' =>
      match digit c with
      | Some d => digits s' (10 * acc + d)
      | None => None
      end
  end.

(** [int(cell)] for a cell made of an optional sign and decimal digits;
    [None] is the ValueError.  (Blanks around the digits and underscores
    between them, which [int] accepts too, are not covered.) *)
Definition int_of_cell (s : string) : option Z :=
  match s with
  | EmptyString => None
  | String "-" (String c s') => option_map Z.opp (digits (String c s') 0)
  | String "+" (String c s') => digits (String c s') 0
  | _ => digits s 0
  end.

(** The body of the loop of [import_proxies_from_csv] for one row: a
    missing host or port (KeyError, NOT NULL, TypeError), a port that is
    no number (ValueError) or one beyond 64 bits (OverflowError) skips the
    row.  The other four values are stored as [row.get] finds them, NULL
    for a short row. *)
Definition import_proxy_row (row : ProxyCsvRow)
    (state : list Z * proxies.table) : list Z * proxies.table :=
  let (proxy_ids, t) := state in
  match csv_host row, csv_port row with
  | Some host, Some port_cell =>
      match int_of_cell port_cell with
      | Some port =>
          if sqlite_integer port then
            let (rowid, t') :=
              proxies.insert
                (dict_get "" (csv_name row))
                host port
                (dict_get "" (csv_username row))
                (dict_get "" (csv_password row))
                (Some (dict_get "http" (csv_protocol row)))
                t in
            (proxy_ids ++ [rowid], t')
          else (proxy_ids, t)
      | None => (proxy_ids, t)
      end
  | _, _ => (proxy_ids, t)
  end.

(** [CSVImportUtility.import_proxies_from_csv], on the rows of the file *)
Definition import_proxies_from_csv (file : list ProxyCsvRow)
    (t : proxies.table) : list Z * proxies.table :=
  fold_left (fun state row => import_proxy_row row state) file ([], t).

(** [CSVImportUtility.create_or_find_proxy] *)
Definition create_or_find_proxy (host : string) (port : Z)
    (username password : string) (t : proxies.table) : Z * proxies.table :=
  match List.find (proxies.same_endpoint host port username) (proxies.rows t) with
  | Some existing => (proxies.id existing, t)
  | None =>
      proxies.insert None host port (Some username) (Some password) None t
  end.

(** ** Vocabulary of the properties *)

(** The order of two rows under ORDER BY [key] ASC. *)
Definition key_le {A : Type} (key : A -> option string) (a b : A) : Prop :=
  Sql.value_leb (key a) (key b) = true.

(** "Not later than", with never-set (NULL) times before all others. *)
Definition null_first_le (a b : option string) : Prop :=
  match a, b with
  | None, _ => True
  | Some _, None => False
  | Some x, Some y => String.leb x y = true
  end.

(** A list is in ascending order of [key]: whatever stands earlier has
    the smaller key. *)
Definition ascending {A : Type} (key : A -> option string) (l : list A) : Prop :=
  forall pre r1 mid r2 post,
    l = pre ++ r1 :: mid ++ r2 :: post -> null_first_le (key r1) (key r2).

(** The k-th raw draw still to come (0 once the tape is exhausted). *)
Definition peek (k : nat) (t : Rand.tape) : N := nth k t 0%N.

(** Occurrence of a text inside another one. *)
Fixpoint occurs (needle s : string) : bool :=
  String.prefix needle s
  || match s with
     | EmptyString => false
     | String _ s' => occurs needle s'
     end.

Definition has_placeholder (c : Command) : bool :=
  existsb (occurs "{{") (command_texts c).

(** A uniform choice from a list by the index draw [d]: the element at
    position [d mod length], so that as the draw runs over a multiple of
    the length every position is taken equally often; nothing on the empty
    list. *)
Definition uniformly_chosen (d : N) (values : list string) : option string :=
  match values with
  | [] => None
  | _ :: _ => nth_error values (N.to_nat (d mod N.of_nat (length values)))
  end.

(** The policy of uncommon-value weighting, for a sampler with threshold
    [num / den] and list of common values [common]: when the unit draw
    falls below the threshold the value is chosen uniformly from the common
    values that are candidates; otherwise it is chosen uniformly from the
    candidates that are not common, or from all candidates when every
    candidate is common.  The unit draw is the first draw of the sampler and
    the index draw the second. *)
Definition weighting_policy (num den : N) (common : list string)
    (sampler : list string -> Rand.M (option string)) : Prop :=
  forall (candidates : list string) (t : Rand.tape),
    let r := (peek 0 t mod 2 ^ 53)%N in
    let result := Rand.run (sampler candidates) t in
    let common_candidates :=
      List.filter (fun c => tester.member c candidates) common in
    let uncommon :=
      List.filter (fun c => negb (tester.member c common)) candidates in
    (random.lt_fraction r num den = true ->
       result = uniformly_chosen (peek 1 t) common_candidates)
    /\ (random.lt_fraction r num den = false -> uncommon <> [] ->
          result = uniformly_chosen (peek 1 t) uncommon)
    /\ (random.lt_fraction r num den = false -> uncommon = [] ->
          result = uniformly_chosen (peek 1 t) candidates).

(** Rows of the table for one (host, port, username). *)
Definition endpoint_rows (host : string) (port : Z) (username : string)
    (t : proxies.table) : nat :=
  length (List.filter (proxies.same_endpoint host port username) (proxies.rows t)).

(** Whatever the outcome, the world after [m] is related to the world
    before it. *)
Definition stable (R : World -> World -> Prop) {A : Type} (m : Run A)
  : Prop :=
  forall w, R w (snd (m w)).

(** A step that touches neither the store nor the registry of active
    browsers, enters no command and reports no failed session. *)
Definition frame (w w' : World) : Prop :=
  table w' = table w
  /\ active_browsers w' = active_browsers w
  /\ executed (log w') = executed (log w)
  /\ session_errors (log w') = session_errors (log w).

(** Events other than the two that [frame] watches. *)
Definition silent (e : Event) : Prop :=
  match e with
  | Executing _ _ | SessionError _ => False
  | _ => True
  end.

(** What holds when a computation returns normally. *)
Definition returns_with {A : Type} (P : World -> Prop) (m : Run A)
    (Q : A -> World -> Prop) : Prop :=
  forall w a w', P w -> m w = (Returned a, w') -> Q a w'.

(** Properties of the world that concern one identity. *)
Section Identity.
Context (bid : string).

(** The identity has a row, and while it has no entry in
    [active_browsers] its stored status is 'inactive'. *)
Definition registered_or_inactive (w : World) : Prop :=
  (exists s, stored_status bid w = Some s)
  /\ (active_browsers w !! bid = None ->
      stored_status bid w = Some "inactive").

Definition keeps (w w' : World) : Prop :=
  registered_or_inactive w -> registered_or_inactive w'.

(** Driver calls and messages leave the stored status alone. *)
Definition same_status (w w' : World) : Prop :=
  stored_status bid w' = stored_status bid w.

Definition has_row (w : World) : Prop :=
  is_Some (browsers.fetchone bid (table w)).

(** Launching and closing enter no command, report no failed session
    and leave the time of the last interaction alone. *)
Definition settled (w w' : World) : Prop :=
  executed (log w') = executed (log w)
  /\ session_errors (log w') = session_errors (log w)
  /\ stored_last_interaction bid w' = stored_last_interaction bid w.

End Identity.

(** ** Sample data *)

Definition sample_fingerprint : Fingerprint :=
  Eval vm_compute in Rand.run generate_fingerprint [].

Definition browser (n : Z) (bid st : string) (interact : bool)
    (last : option string) : browsers.row :=
  {| browsers.id := n; browsers.browser_id := bid; browsers.name := bid;
     browsers.proxy_id := None; browsers.email_account_id := None;
     browsers.fingerprint := sample_fingerprint;
     browsers.status := st; browsers.to_interact := interact;
     browsers.last_interaction := last;
     browsers.created_at := "2024-01-01 00:00:00";
     browsers.user_agent := user_agent sample_fingerprint;
     browsers.viewport_width := viewport.width (viewport sample_fingerprint);
     browsers.viewport_height := viewport.height (viewport sample_fingerprint);
     browsers.timezone := timezone sample_fingerprint;
     browsers.locale := locale sample_fingerprint;
     browsers.platform := platform sample_fingerprint |}.

(** Two eligible identities, one never run and one stale, and one that
    is not eligible for recurring interaction. *)
Definition three_identities : list browsers.row :=
  [ browser 1 "stale" "inactive" true (Some "2024-05-01T11:00:00.000000");
    browser 2 "off" "inactive" false None;
    browser 3 "fresh" "inactive" true None ].

(** A clock for the examples; sums of more than a million minutes are
    taken to be out of range. *)
Definition noon : Clock :=
  {| now := "2024-06-01T12:00:00.000000";
     later := fun m => if Z.abs m <? 1000000
                       then Some "2024-06-01T12:05:00.000000" else None |}.

Definition command (n : Z) (bid st : string) (sched : option string)
  : commands.row :=
  {| commands.id := n; commands.browser_id := bid;
     commands.command_type := "navigate";
     commands.command_data := "{}";
     commands.status := st; commands.scheduled_time := sched;
     commands.executed_time := None;
     commands.created_at := "2024-01-01 00:00:00" |}.

(** One browser with a command scheduled far in the future, one without
    schedule, one overdue and one already executed. *)
Definition queue : list commands.row :=
  [ command 1 "b1" "pending" (Some "2999-01-01T00:00:00");
    command 2 "b1" "pending" None;
    command 3 "b1" "pending" (Some "2020-01-01T00:00:00");
    command 4 "b1" "executed" None ].

(** A fingerprint whose index draws for viewport, timezone and locale
    are [v], [z] and [l]. *)
Definition fingerprint_drawn (v z l : N) : Fingerprint :=
  Rand.run generate_fingerprint [v; 0; z; l]%N.

(** Vendor and renderer of the fingerprint whose draws for the two are
    [v] and [r]. *)
Definition webgl_drawn (v r : N) : string * string :=
  let fp := Rand.run generate_fingerprint [0; 0; 0; 0; 0; 0; 0; v; r]%N in
  (webgl_vendor fp, webgl_renderer fp).

(** A driver none of whose calls raises; queries find three elements. *)
Definition calm : Env :=
  {| driver := fun _ => {| raises := false; found := 3 |};
     wall_clock := fun _ => "2024-06-01T12:00:00.000000" |}.

(** A driver whose k-th call raises, and no other. *)
Definition failing_at (k : nat) : Env :=
  {| driver := fun n => {| raises := Nat.eqb n k; found := 3 |};
     wall_clock := fun _ => "2024-06-01T12:00:00.000000" |}.

Definition idle_world : World :=
  {| table := three_identities;
     proxy_table := Some {| proxies.rows := []; proxies.last_id := 0 |};
     active_browsers := ∅;
     rng := [];
     calls := 0;
     log := [] |}.

(** A plan of five commands for the scenario; with the eight driver
    calls of the launch before it, the third command is call number 10. *)
Definition five_commands : list Command :=
  [ navigate "https://example.org" None;
    click "#accept" None;
    fill "#query" "rocq";
    scroll "down" 100;
    click "#next" None ].

Definition five_command_plan (browser_id : string) : Rand.M (list Command) :=
  Rand.ret five_commands.

Definition failed_turn : Turn := {| batch_raises := true; stop_requested := false |}.

Definition clean_turn : Turn := {| batch_raises := false; stop_requested := false |}.

Definition one_proxy : proxies.table :=
  snd (proxies.insert (Some "Proxy1") "192.168.1.100" 8080
         (Some "user1") (Some "pass1") (Some (Some "http"))
         {| proxies.rows := []; proxies.last_id := 0 |}).

Definition same_proxy_again : ProxyCsvRow :=
  {| csv_name := Some (Some "Proxy1"); csv_host := Some "192.168.1.100";
     csv_port := Some "8080"; csv_username := Some (Some "user1");
     csv_password := Some (Some "pass1");
     csv_protocol := Some (Some "http") |}.

(** ** Groups of a batch ([PlaywrightExecutor.run_browser_batch]) *)

(** [group_size = 10] *)
Definition group_size : nat := 10.

(** [range(0, n, group_size)] *)
Definition group_starts (n : nat) : list nat :=
  map (fun k => k * group_size)%nat
    (seq 0 ((n + group_size - 1) / group_size)).

(** The groups that the loop of [run_browser_batch] takes in turn:
    [browser_ids[i:i + group_size]] for each start [i]. *)
Definition batch_groups (ids : list string) : list (list string) :=
  map (fun i => firstn group_size (skipn i ids)) (group_starts (length ids)).

(** ** The [email_accounts] table *)

Module email_accounts.

Record row := {
  id : Z;
  email : string;
  password : string;
  provider : string;
  recovery_email : option string;
  phone : option string;
  status : string
}.

Record table := { rows : list row; last_id : Z }.

(** INSERT of one row; [None] is the IntegrityError of the UNIQUE
    constraint on [email], which leaves the table as it was. *)
Definition insert (e p prov : string) (recovery ph : option string)
    (t : table) : option (Z * table) :=
  if existsb (fun r => String.eqb (email r) e) (rows t) then None
  else
    let rowid := last_id t + 1 in
    Some (rowid,
          {| rows := rows t ++
                     [ {| id := rowid; email := e; password := p;
                          provider := prov; recovery_email := recovery;
                          phone := ph; status := "active" |} ];
             last_id := rowid |}).

End email_accounts.




(** [CSVImportUtility.create_or_find_email_account]; [None] would be an
    IntegrityError of the INSERT. *)
Definition create_or_find_email_account (address secret prov : string)
    (t : email_accounts.table) : option (Z * email_accounts.table) :=
  match List.find (fun r => String.eqb (email_accounts.email r) address)
          (email_accounts.rows t) with
  | Some existing => Some (email_accounts.id existing, t)
  | None => email_accounts.insert address secret prov None None t
  end.

(** ** Creation of browsers ([BrowserManager.create_browser]) *)

Record BrowserStore := {
  browser_rows : list browsers.row;
  browser_last_id : Z
}.

(** [uuid] is the text of [uuid.uuid4()] and [created] that of
    CURRENT_TIMESTAMP.  The fingerprint is drawn before the INSERT;
    [None] is the IntegrityError of the UNIQUE constraint on
    [browser_id], which leaves the store as it was. *)
Definition create_browser (uuid created : string) (name : string)
    (proxy_id email_account_id : option Z) (to_interact : bool)
    (s : BrowserStore) : Rand.M (option string * BrowserStore) :=
  fp <- generate_fingerprint ;;
  if existsb (fun r => String.eqb (browsers.browser_id r) uuid)
       (browser_rows s)
  then Rand.ret (None, s)
  else
    let rowid := browser_last_id s + 1 in
    Rand.ret
      (Some uuid,
       {| browser_rows :=
            browser_rows s ++
            [ {| browsers.id := rowid;
                 browsers.browser_id := uuid;
                 browsers.name := name;
                 browsers.proxy_id := proxy_id;
                 browsers.email_account_id := email_account_id;
                 browsers.fingerprint := fp;
                 browsers.status := "inactive";
                 browsers.to_interact := to_interact;
                 browsers.last_interaction := None;
                 browsers.created_at := created;
                 browsers.user_agent := user_agent fp;
                 browsers.viewport_width := viewport.width (viewport fp);
                 browsers.viewport_height := viewport.height (viewport fp);
                 browsers.timezone := timezone fp;
                 browsers.locale := locale fp;
                 browsers.platform := platform fp |} ];
          browser_last_id := rowid |}).

(** ** The queue of commands ([BrowserManager.save_command]) *)

Record CommandStore := {
  command_rows : list commands.row;
  command_last_id : Z
}.

(** [command_data] is the text of [json.dumps(command_data)],
    [scheduled] the ISO text of the scheduled time if one is given and
    [created] the text of CURRENT_TIMESTAMP. *)
Definition save_command (browser_id command_type command_data : string)
    (scheduled : option string) (created : string) (s : CommandStore)
  : CommandStore :=
  let rowid := command_last_id s + 1 in
  {| command_rows :=
       command_rows s ++
       [ {| commands.id := rowid;
            commands.browser_id := browser_id;
            commands.command_type := command_type;
            commands.command_data := command_data;
            commands.status := "pending";
            commands.scheduled_time := scheduled;
            commands.executed_time := None;
            commands.created_at := created |} ];
     command_last_id := rowid |}.

(** ** Vocabulary of the further properties *)

(** The rows of the identities other than [bid]. *)
Definition other_rows (bid : string) (rows : list browsers.row)
  : list browsers.row :=
  List.filter (fun r => negb (String.eqb (browsers.browser_id r) bid)) rows.

(** A step leaves the other identities alone: their rows and their
    entries in [active_browsers] are what they were. *)
Definition isolated (bid : string) (w w' : World) : Prop :=
  other_rows bid (table w') = other_rows bid (table w)
  /\ forall other, other <> bid ->
       active_browsers w' !! other = active_browsers w !! other.

(** The cells on which [int_of_cell] decides as [int] does: printable
    ASCII without blanks and underscores (which [int] strips or skips). *)
Definition plain_char (c : ascii) : bool :=
  let n := N_of_ascii c in
  ((33 <=? n) && (n <=? 126) && negb (n =? 95))%N.

Fixpoint plain (s : string) : bool :=
  match s with
  | EmptyString => true
  | String c s' => plain_char c && plain s'
  end.



(** The addresses stored in the accounts table. *)
Definition addresses (t : email_accounts.table) : list string :=
  map email_accounts.email (email_accounts.rows t).

(** Every row of the identity has the status 'running'. *)
Definition all_running (bid : string) (w : World) : Prop :=
  Forall (fun r => browsers.browser_id r = bid ->
                   browsers.status r = "running") (table w).

(** An identity bound to a proxy id that the proxies table may lack. *)
Definition browser_with_proxy (pid : Z) : browsers.row :=
  {| browsers.id := 4; browsers.browser_id := "proxied";
     browsers.name := "proxied";
     browsers.proxy_id := Some pid; browsers.email_account_id := None;
     browsers.fingerprint := sample_fingerprint;
     browsers.status := "inactive"; browsers.to_interact := true;
     browsers.last_interaction := None;
     browsers.created_at := "2024-01-01 00:00:00";
     browsers.user_agent := user_agent sample_fingerprint;
     browsers.viewport_width := viewport.width (viewport sample_fingerprint);
     browsers.viewport_height := viewport.height (viewport sample_fingerprint);
     browsers.timezone := timezone sample_fingerprint;
     browsers.locale := locale sample_fingerprint;
     browsers.platform := platform sample_fingerprint |}.

(** The dictionary that [get_pending_commands] returns for the command
    that [save_command] has just stored. *)
Definition saved_command (browser_id command_type command_data : string)
    (scheduled : option string) (created : string) (s : CommandStore)
  : PendingCommand :=
  {| pc_id := command_last_id s + 1;
     pc_browser_id := browser_id;
     pc_command_type := command_type;
     pc_command_data := command_data;
     pc_status := "pending";
     pc_scheduled_time := scheduled;
     pc_created_at := created |}.


Definition endpoint_of (r : proxies.row) : string * Z * option string :=
  (proxies.host r, proxies.port r, proxies.username r).


(** The empty accounts table and a file with the five columns that
    names one address twice and ends with a short row. *)
Definition no_accounts : email_accounts.table :=
  {| email_accounts.rows := []; email_accounts.last_id := 0 |}.


Definition no_proxies : proxies.table :=
  {| proxies.rows := []; proxies.last_id := 0 |}.

(** A turn during which [stop_automation] is called. *)
Definition stopping_turn : Turn :=
  {| batch_raises := false; stop_requested := true |}.


(** ** Import of browsers ([CSVImportUtility.import_browsers_from_csv]) *)

(** One row of the browsers file as [csv.DictReader] yields it.  The
    columns read with [row[...]] after a truth test, or inside [int], are
    [None] both for a missing column and for a missing cell; the others
    keep the two apart. *)
Record BrowserCsvRow := {
  b_name : Cell;
  b_proxy_host : option string;
  b_proxy_port : option string;
  b_proxy_username : Cell;
  b_proxy_password : Cell;
  b_email : option string;
  b_email_password : Cell;
  b_provider : Cell;
  b_to_interact : Cell
}.

(** The cell behind [if row.get(key):], when the test passes. *)
Definition filled (cell : option string) : option string :=
  if truthy cell then cell else None.

(** [create_or_find_proxy] with the arguments that the import hands
    it: the username and the password are what [row.get] found, None for a
    short row ([username = NULL] selects no row, and NULL is stored);
    [None] is the OverflowError of a port beyond 64 bits. *)
Definition create_or_find_proxy_of_row (host : string) (port : Z)
    (username password : option string) (t : proxies.table)
  : option (Z * proxies.table) :=
  if sqlite_integer port then
    match username, password with
    | Some user, Some pass => Some (create_or_find_proxy host port user pass t)
    | Some user, None =>
        match List.find (proxies.same_endpoint host port user)
                (proxies.rows t) with
        | Some existing => Some (proxies.id existing, t)
        | None => Some (proxies.insert None host port (Some user) None None t)
        end
    | None, _ => Some (proxies.insert None host port None password None t)
    end
  else None.

(** [create_or_find_email_account] with the arguments that the import
    hands it: a password or provider that is None fails the NOT NULL
    constraint of the INSERT ([None]), which is reached only when the
    address is not stored. *)
Definition create_or_find_email_account_of_row (address : string)
    (secret prov : option string) (t : email_accounts.table)
  : option (Z * email_accounts.table) :=
  match secret, prov with
  | Some s, Some p => create_or_find_email_account address s p t
  | _, _ =>
      match List.find (fun r => String.eqb (email_accounts.email r) address)
              (email_accounts.rows t) with
      | Some existing => Some (email_accounts.id existing, t)
      | None => None
      end
  end.

(** [create_browser] with the name that the import hands it: None (a
    short row) fails the NOT NULL constraint of the INSERT, after the
    fingerprint has been drawn. *)
Definition create_browser_of_row (uuid created : string)
    (name : option string) (proxy_id email_account_id : option Z)
    (to_interact : bool) (s : BrowserStore)
  : Rand.M (option string * BrowserStore) :=
  match name with
  | Some n => create_browser uuid created n proxy_id email_account_id
                to_interact s
  | None => fp <- generate_fingerprint ;; Rand.ret (None, s)
  end.

(** [str.lower()] on the letters that matter for the comparison with
    'true': no other character has a lower case among t, r, u, e. *)
Definition ascii_lower (c : ascii) : ascii :=
  let n := N_of_ascii c in
  if ((65 <=? n) && (n <=? 90))%N then ascii_of_N (n + 32) else c.

Fixpoint lower (s : string) : string :=
  match s with
  | EmptyString => EmptyString
  | String c s' => String (ascii_lower c) (lower s')
  end.

(** [row.get('to_interact', '').lower() == 'true']; [None] is the
    AttributeError of a missing cell. *)
Definition to_interact_of_row (row : BrowserCsvRow) : option bool :=
  option_map (fun text => String.eqb (lower text) "true")
    (dict_get "" (b_to_interact row)).

(** *** The write lock *)

(** Each of the three functions opens a connection of its own and
    closes it when it returns.  When its INSERT is refused by a constraint
    the exception leaves the function before [commit] and [close]: the
    abandoned connection keeps its open transaction, and with it the write
    lock of the database, until the interpreter's collector closes it.
    While the lock is held a SELECT of another connection still answers,
    and an INSERT raises sqlite3.OperationalError ('database is locked').

    The environment of an import: [supply k] is what it hands to the call
    number [k] of [create_browser], the text of [uuid.uuid4()] and that of
    CURRENT_TIMESTAMP; [reclaimed k] tells whether, when INSERT number [k]
    of the import runs, the collector has closed the connections abandoned
    so far. *)
Record ImportEnv := {
  supply : nat -> string * string;
  reclaimed : nat -> bool
}.

(** The state of the import: the ids collected so far, the three tables,
    how often [create_browser] has been called, how many INSERTs have been
    run, and whether an abandoned connection may hold the write lock. *)
Record Import := {
  imp_ids : list string;
  imp_proxies : proxies.table;
  imp_accounts : email_accounts.table;
  imp_browsers : BrowserStore;
  imp_calls : nat;
  imp_inserts : nat;
  imp_locked : bool
}.

Definition with_proxies (t : proxies.table) (st : Import) : Import :=
  {| imp_ids := imp_ids st; imp_proxies := t;
     imp_accounts := imp_accounts st; imp_browsers := imp_browsers st;
     imp_calls := imp_calls st; imp_inserts := imp_inserts st;
     imp_locked := imp_locked st |}.

Definition with_accounts (t : email_accounts.table) (st : Import) : Import :=
  {| imp_ids := imp_ids st; imp_proxies := imp_proxies st;
     imp_accounts := t; imp_browsers := imp_browsers st;
     imp_calls := imp_calls st; imp_inserts := imp_inserts st;
     imp_locked := imp_locked st |}.

Definition with_browsers (s : BrowserStore) (st : Import) : Import :=
  {| imp_ids := imp_ids st; imp_proxies := imp_proxies st;
     imp_accounts := imp_accounts st; imp_browsers := s;
     imp_calls := imp_calls st; imp_inserts := imp_inserts st;
     imp_locked := imp_locked st |}.

(** [browser_ids.append(browser_id)] *)
Definition collect (browser_id : string) (st : Import) : Import :=
  {| imp_ids := imp_ids st ++ [browser_id]; imp_proxies := imp_proxies st;
     imp_accounts := imp_accounts st; imp_browsers := imp_browsers st;
     imp_calls := imp_calls st; imp_inserts := imp_inserts st;
     imp_locked := imp_locked st |}.

(** One more call of [create_browser]. *)
Definition called (st : Import) : Import :=
  {| imp_ids := imp_ids st; imp_proxies := imp_proxies st;
     imp_accounts := imp_accounts st; imp_browsers := imp_browsers st;
     imp_calls := S (imp_calls st); imp_inserts := imp_inserts st;
     imp_locked := imp_locked st |}.

(** One more INSERT, after which the lock is held or not. *)
Definition counted (locked : bool) (st : Import) : Import :=
  {| imp_ids := imp_ids st; imp_proxies := imp_proxies st;
     imp_accounts := imp_accounts st; imp_browsers := imp_browsers st;
     imp_calls := imp_calls st; imp_inserts := S (imp_inserts st);
     imp_locked := locked |}.

(** The lock is held when the next INSERT runs. *)
Definition lock_held (env : ImportEnv) (st : Import) : bool :=
  imp_locked st && negb (reclaimed env (imp_inserts st)).

(** What becomes of an INSERT. *)
Inductive Written (R : Type) :=
| Stored (r : R)
| Refused
| Busy.
Arguments Stored {R} r.
Arguments Refused {R}.
Arguments Busy {R}.

(** [unlocked] is what the statement does on a database that nobody
    locks: [None] when a constraint refuses it. *)
Definition written {R : Type} (held : bool) (unlocked : option R)
  : Written R :=
  if held then Busy
  else match unlocked with
       | Some r => Stored r
       | None => Refused
       end.

(** A call of one of the three functions during the import.  [unlocked]
    is what the call does on a database that nobody locks, its answer and
    the table afterwards, [None] when it raises; [writes] tells whether the
    call gets as far as its INSERT.  A call that returns has committed and
    closed; a call whose INSERT raises leaves its connection behind, which
    holds the lock if it is the one that was refused (and the lock of an
    earlier one is still held if it met that). *)
Definition call {A T : Type} (env : ImportEnv) (writes : bool)
    (unlocked : option (A * T)) (store : T -> Import -> Import)
    (st : Import) : option A * Import :=
  if writes then
    match written (lock_held env st) unlocked with
    | Stored (a, t') => (Some a, counted false (store t' st))
    | Refused => (None, counted true st)
    | Busy => (None, counted true st)
    end
  else
    match unlocked with
    | Some (a, _) => (Some a, st)
    | None => (None, st)
    end.

(** SELECT id FROM proxies WHERE host = ? AND port = ? AND username = ?
    finds a row. *)
Definition selects_proxy (host : string) (port : Z) (username : option string)
    (t : proxies.table) : bool :=
  match username with
  | Some user => existsb (proxies.same_endpoint host port user) (proxies.rows t)
  | None => false
  end.

(** SELECT id FROM email_accounts WHERE email = ? finds a row. *)
Definition selects_account (address : string) (t : email_accounts.table)
  : bool :=
  existsb (fun r => String.eqb (email_accounts.email r) address)
    (email_accounts.rows t).

(** *** The three steps of a turn *)

(** The proxy id of the row, None without a proxy host.  The outer
    [None] is an exception: no port (KeyError, TypeError), a port that is
    no number (ValueError) or too large (OverflowError, raised by the
    SELECT), or a locked database. *)
Definition proxy_of_row (env : ImportEnv) (row : BrowserCsvRow) (st : Import)
  : option (option Z) * Import :=
  match filled (b_proxy_host row) with
  | Some host =>
      match b_proxy_port row with
      | Some cell =>
          match int_of_cell cell with
          | Some port =>
              let username := dict_get "" (b_proxy_username row) in
              let password := dict_get "" (b_proxy_password row) in
              let (answer, st') :=
                call env
                  (sqlite_integer port
                   && negb (selects_proxy host port username (imp_proxies st)))
                  (create_or_find_proxy_of_row host port username password
                     (imp_proxies st))
                  with_proxies st in
              (option_map Some answer, st')
          | None => (None, st)
          end
      | None => (None, st)
      end
  | None => (Some None, st)
  end.

(** The account id of the row, None without an email.  The outer [None]
    is an exception: no password column (KeyError), the INSERT refused, or
    a locked database. *)
Definition account_of_row (env : ImportEnv) (row : BrowserCsvRow)
    (st : Import) : option (option Z) * Import :=
  match filled (b_email row) with
  | Some address =>
      match b_email_password row with
      | Some secret =>
          let (answer, st') :=
            call env
              (negb (selects_account address (imp_accounts st)))
              (create_or_find_email_account_of_row address secret
                 (dict_get "gmail" (b_provider row)) (imp_accounts st))
              with_accounts st in
          (option_map Some answer, st')
      | None => (None, st)
      end
  | None => (Some None, st)
  end.

(** f"Browser_{len(browser_ids) + 1}" *)
Definition default_name (ids : list string) : string :=
  String.append "Browser_" (decimal (Z.of_nat (length ids) + 1)).

(** The call of [create_browser] and [browser_ids.append]: the
    fingerprint is drawn, then the INSERT runs. *)
Definition browser_of_row (env : ImportEnv) (name : option string)
    (proxy_id email_account_id : option Z) (to_interact : bool)
    (st : Import) : Rand.M Import :=
  created <-
    create_browser_of_row
      (fst (supply env (imp_calls st))) (snd (supply env (imp_calls st)))
      name proxy_id email_account_id to_interact (imp_browsers st) ;;
  Rand.ret
    (match call env true
             (option_map (fun browser_id => (browser_id, snd created))
                (fst created))
             with_browsers (called st) with
     | (Some browser_id, st') => collect browser_id st'
     | (None, st') => st'
     end).

(** The body of the loop of [import_browsers_from_csv] for one row.  An
    exception ends the turn; what the turn has stored by then stays
    stored. *)
Definition import_browser_row (env : ImportEnv) (row : BrowserCsvRow)
    (st : Import) : Rand.M Import :=
  match proxy_of_row env row st with
  | (None, st1) => Rand.ret st1
  | (Some proxy_id, st1) =>
      match account_of_row env row st1 with
      | (None, st2) => Rand.ret st2
      | (Some account_id, st2) =>
          let name := dict_get (default_name (imp_ids st2)) (b_name row) in
          match to_interact_of_row row with
          | None => Rand.ret st2
          | Some to_interact =>
              browser_of_row env name proxy_id account_id to_interact st2
          end
      end
  end.

Fixpoint import_browser_rows (env : ImportEnv) (file : list BrowserCsvRow)
    (st : Import) : Rand.M Import :=
  match file with
  | [] => Rand.ret st
  | row :: rest =>
      st' <- import_browser_row env row st ;;
      import_browser_rows env rest st'
  end.

(** [CSVImportUtility.import_browsers_from_csv], on the rows of the
    file and the three tables, when no connection holds a lock at the
    start *)
Definition import_browsers_from_csv (env : ImportEnv)
    (file : list BrowserCsvRow) (pt : proxies.table)
    (acc : email_accounts.table) (bs : BrowserStore) : Rand.M Import :=
  import_browser_rows env file
    {| imp_ids := []; imp_proxies := pt; imp_accounts := acc;
       imp_browsers := bs; imp_calls := 0; imp_inserts := 0;
       imp_locked := false |}.

(** *** Vocabulary *)

(** The port cell of a row of the browsers file is plain. *)
Definition plain_proxy_port (row : BrowserCsvRow) : bool :=
  match b_proxy_port row with
  | Some cell => plain cell
  | None => true
  end.

(** No host, port and username is stored twice.  Rows whose username is
    NULL are not counted: no look-up finds them, and every row of the file
    without a username cell adds one. *)
Definition endpoints_unique (t : proxies.table) : Prop :=
  forall host port user, (endpoint_rows host port user t <= 1)%nat.

Definition stored_ids (s : BrowserStore) : list string :=
  map browsers.browser_id (browser_rows s).

(** The tables hold no host, port and username, no address and no
    browser id twice, and the ids collected are distinct ids of stored
    browsers. *)
Definition consistent (st : Import) : Prop :=
  endpoints_unique (imp_proxies st)
  /\ List.NoDup (addresses (imp_accounts st))
  /\ List.NoDup (stored_ids (imp_browsers st))
  /\ incl (imp_ids st) (stored_ids (imp_browsers st))
  /\ List.NoDup (imp_ids st).

(** What was stored and collected is still there, in place. *)
Definition extends (st st' : Import) : Prop :=
  (exists new, proxies.rows (imp_proxies st')
               = proxies.rows (imp_proxies st) ++ new)
  /\ (exists new, email_accounts.rows (imp_accounts st')
                  = email_accounts.rows (imp_accounts st) ++ new)
  /\ (exists new, browser_rows (imp_browsers st')
                  = browser_rows (imp_browsers st) ++ new)
  /\ (exists new, imp_ids st' = imp_ids st ++ new).

(** A step that touches the proxies table at most. *)
Definition proxies_only (st st' : Import) : Prop :=
  imp_accounts st' = imp_accounts st
  /\ imp_browsers st' = imp_browsers st
  /\ imp_ids st' = imp_ids st
  /\ imp_calls st' = imp_calls st.

(** A step that touches the accounts table at most. *)
Definition accounts_only (st st' : Import) : Prop :=
  imp_proxies st' = imp_proxies st
  /\ imp_browsers st' = imp_browsers st
  /\ imp_ids st' = imp_ids st
  /\ imp_calls st' = imp_calls st.

(** Nothing was stored or collected. *)
Definition same_tables (st st' : Import) : Prop :=
  imp_proxies st' = imp_proxies st
  /\ imp_accounts st' = imp_accounts st
  /\ imp_browsers st' = imp_browsers st
  /\ imp_ids st' = imp_ids st.

(** *** Sample data *)

Definition no_browsers : BrowserStore :=
  {| browser_rows := []; browser_last_id := 0 |}.

(** An environment whose collector never runs during the import, and
    one whose collector has always run. *)
Definition sample_supply (k : nat) : string * string :=
  (String.append "0b5e-" (decimal (Z.of_nat k)), "2024-06-01 12:00:00").

Definition never_reclaiming : ImportEnv :=
  {| supply := sample_supply; reclaimed := fun _ => false |}.

Definition always_reclaiming : ImportEnv :=
  {| supply := sample_supply; reclaimed := fun _ => true |}.

(** Rows of a file with the nine columns name, proxy_host, proxy_port,
    proxy_username, proxy_password, email, email_password, provider and
    to_interact: a full row, *)
Definition browser_row_one : BrowserCsvRow :=
  {| b_name := Some (Some "first");
     b_proxy_host := Some "192.168.1.100"; b_proxy_port := Some "8080";
     b_proxy_username := Some (Some "user1");
     b_proxy_password := Some (Some "pass1");
     b_email := Some "ann@example.org";
     b_email_password := Some (Some "secret");
     b_provider := Some (Some "gmail");
     b_to_interact := Some (Some "True") |}.

(** a row that ends after the password of the account, *)
Definition browser_row_short : BrowserCsvRow :=
  {| b_name := Some (Some "second");
     b_proxy_host := Some "192.168.1.100"; b_proxy_port := Some "8080";
     b_proxy_username := Some (Some "user1");
     b_proxy_password := Some (Some "pass1");
     b_email := Some "bob@example.org";
     b_email_password := Some (Some "hidden");
     b_provider := Some None;
     b_to_interact := Some None |}.

(** and a full row for another proxy and account. *)
Definition browser_row_three : BrowserCsvRow :=
  {| b_name := Some (Some "third");
     b_proxy_host := Some "192.168.1.101"; b_proxy_port := Some "8080";
     b_proxy_username := Some (Some "user2");
     b_proxy_password := Some (Some "pass2");
     b_email := Some "cid@example.org";
     b_email_password := Some (Some "secret");
     b_provider := Some (Some "outlook");
     b_to_interact := Some (Some "false") |}.

Definition browsers_file : list BrowserCsvRow :=
  [ browser_row_one; browser_row_short; browser_row_three; browser_row_one ].

(** A row of a file that has no column 'email_password'. *)
Definition browser_row_without_password : BrowserCsvRow :=
  {| b_name := Some (Some "fourth");
     b_proxy_host := Some "192.168.1.100"; b_proxy_port := Some "8080";
     b_proxy_username := Some (Some "user1");
     b_proxy_password := Some (Some "other");
     b_email := Some "bob@example.org";
     b_email_password := None;
     b_provider := Some (Some "gmail");
     b_to_interact := Some (Some "false") |}.

Definition import_start : Import :=
  {| imp_ids := []; imp_proxies := no_proxies; imp_accounts := no_accounts;
     imp_browsers := no_browsers; imp_calls := 0; imp_inserts := 0;
     imp_locked := false |}.

(** A row that ends after the port. *)
Definition browser_row_ending_at_port : BrowserCsvRow :=
  {| b_name := Some (Some "fifth");
     b_proxy_host := Some "192.168.1.102"; b_proxy_port := Some "3128";
     b_proxy_username := Some None;
     b_proxy_password := Some None;
     b_email := None;
     b_email_password := Some None;
     b_provider := Some None;
     b_to_interact := Some None |}.
(* ===================================================================== *)
(** * Part II: properties *)
(* ===================================================================== *)

(** ** Order facts *)

Lemma ascii_compare_N (a b : ascii) :
  Ascii.compare a b = (N_of_ascii a ?= N_of_ascii b)%N.
Proof. reflexivity. Qed.

Lemma string_compare_not_gt_trans (s1 s2 s3 : string) :
  String.compare s1 s2 <> Gt -> String.compare s2 s3 <> Gt ->
  String.compare s1 s3 <> Gt.
Proof.
  revert s2 s3.
  induction s1 as [|a s1 IH]; intros [|b s2] [|c s3]; simpl;
    try congruence.
  rewrite !ascii_compare_N.
  destruct (N.compare_spec (N_of_ascii a) (N_of_ascii b)) as [Hab|Hab|Hab];
    destruct (N.compare_spec (N_of_ascii b) (N_of_ascii c)) as [Hbc|Hbc|Hbc];
    destruct (N.compare_spec (N_of_ascii a) (N_of_ascii c)) as [Hac|Hac|Hac];
    try congruence; try lia.
  apply IH.
Qed.

Lemma text_leb_trans (a b c : string) :
  Sql.text_leb a b = true -> Sql.text_leb b c = true -> Sql.text_leb a c = true.
Proof.
  unfold Sql.text_leb, String.leb. intros Hab Hbc.
  pose proof (string_compare_not_gt_trans a b c) as H.
  destruct (String.compare a b); destruct (String.compare b c);
    destruct (String.compare a c); try discriminate; try reflexivity;
    exfalso; apply H; congruence.
Qed.

Lemma value_leb_trans (a b c : option string) :
  Sql.value_leb a b = true -> Sql.value_leb b c = true ->
  Sql.value_leb a c = true.
Proof.
  destruct a, b, c; simpl; try congruence. apply text_leb_trans.
Qed.

Lemma value_leb_total (a b : option string) :
  Sql.value_leb a b = true \/ Sql.value_leb b a = true.
Proof.
  destruct a, b; simpl; auto. apply String.leb_total.
Qed.

(** ** ORDER BY and LIMIT *)

Section OrderByFacts.
Context {A : Type} (key : A -> option string).

Lemma insert_row_perm (r : A) (l : list A) :
  Permutation (r :: l) (Sql.insert_row key r l).
Proof.
  induction l as [|r' l IH]; simpl; [reflexivity|].
  destruct (Sql.value_leb (key r) (key r')); [reflexivity|].
  rewrite perm_swap. now apply perm_skip.
Qed.

Lemma order_by_perm (l : list A) : Permutation l (Sql.order_by key l).
Proof.
  induction l as [|r l IH]; simpl; [constructor|].
  etransitivity; [apply perm_skip, IH | apply insert_row_perm].
Qed.

Lemma insert_row_sorted (r : A) (l : list A) :
  StronglySorted (key_le key) l ->
  StronglySorted (key_le key) (Sql.insert_row key r l).
Proof.
  induction 1 as [|r' l Hl IH Hall]; simpl.
  - repeat constructor.
  - destruct (Sql.value_leb (key r) (key r')) eqn:Hle.
    + constructor; [now constructor|].
      constructor; [exact Hle|].
      eapply List.Forall_impl; [|exact Hall].
      intros c Hc. unfold key_le in *. eapply value_leb_trans; eassumption.
    + constructor; [exact IH|].
      eapply Permutation_Forall; [apply insert_row_perm|].
      constructor; [|exact Hall].
      destruct (value_leb_total (key r) (key r')); [congruence|assumption].
Qed.

Lemma order_by_sorted (l : list A) :
  StronglySorted (key_le key) (Sql.order_by key l).
Proof.
  induction l as [|r l IH]; simpl; [constructor|].
  now apply insert_row_sorted.
Qed.

Lemma order_by_In (l : list A) (r : A) : In r (Sql.order_by key l) <-> In r l.
Proof.
  split; apply Permutation_in;
    [symmetry|]; apply order_by_perm.
Qed.

Lemma firstn_In (n : nat) (l : list A) (r : A) :
  In r (firstn n l) -> In r l.
Proof.
  intros H. rewrite <- (firstn_skipn n l). apply in_or_app. now left.
Qed.

Lemma firstn_strongly_sorted (n : nat) (l : list A) :
  StronglySorted (key_le key) l -> StronglySorted (key_le key) (firstn n l).
Proof.
  revert l. induction n as [|n IH]; intros l Hs; simpl; [constructor|].
  destruct l as [|r l]; [constructor|].
  apply StronglySorted_inv in Hs as [Hs Hall].
  constructor; [now apply IH|].
  rewrite List.Forall_forall in *. intros c Hc.
  apply Hall. eapply firstn_In; exact Hc.
Qed.

Lemma limit_sorted (n : Z) (l : list A) :
  StronglySorted (key_le key) l -> StronglySorted (key_le key) (Sql.limit n l).
Proof.
  unfold Sql.limit. destruct (n <? 0); [auto | apply firstn_strongly_sorted].
Qed.

Lemma limit_In (n : Z) (l : list A) (r : A) : In r (Sql.limit n l) -> In r l.
Proof.
  unfold Sql.limit. destruct (n <? 0); [auto | apply firstn_In].
Qed.

(** In a sorted result, whatever comes earlier has the smaller key. *)
Lemma sorted_split (pre mid post : list A) (r1 r2 : A) :
  StronglySorted (key_le key) (pre ++ r1 :: mid ++ r2 :: post) -> key_le key r1 r2.
Proof.
  induction pre as [|p pre IH]; simpl; intros Hs.
  - apply StronglySorted_inv in Hs as [_ Hall].
    rewrite List.Forall_forall in Hall. apply Hall.
    apply in_or_app. right. now left.
  - apply StronglySorted_inv in Hs as [Hs _]. now apply IH.
Qed.
End OrderByFacts.

(** ** Ascending order *)

Lemma value_leb_null_first (a b : option string) :
  Sql.value_leb a b = true <-> null_first_le a b.
Proof.
  destruct a, b; simpl; unfold Sql.text_leb; intuition congruence.
Qed.

Lemma strongly_sorted_ascending {A : Type} (key : A -> option string) (l : list A) :
  StronglySorted (key_le key) l -> ascending key l.
Proof.
  intros Hs pre r1 mid r2 post ->.
  apply value_leb_null_first. eapply sorted_split. exact Hs.
Qed.

Lemma strongly_sorted_map {A B : Type} (f : A -> B)
    (key : A -> option string) (key' : B -> option string) (l : list A) :
  (forall a, key' (f a) = key a) ->
  StronglySorted (key_le key) l -> StronglySorted (key_le key') (map f l).
Proof.
  intros Hk. induction 1 as [|a l Hl IH Hall]; simpl; constructor; [exact IH|].
  apply List.Forall_map. eapply List.Forall_impl; [|exact Hall].
  intros b Hb. unfold key_le in *. now rewrite !Hk.
Qed.

Lemma due_spec (r : browsers.row) :
  due r = true <->
  browsers.to_interact r = true /\ browsers.status r <> "running".
Proof.
  unfold due. rewrite andb_true_iff, negb_true_iff, String.eqb_neq. tauto.
Qed.

(** ** Selection of the identities that are due *)

Example selectDue_scenario :
  option_map browser_ids (schedule_browser_batch noon three_identities 2 5)
  = Some ["fresh"; "stale"].
Proof. reflexivity. Qed.

(** C1, as stated, fails for a negative limit: LIMIT -1 puts no bound on
    the number of rows, so both eligible identities are returned and the
    result is longer than the limit. *)
Lemma selectDue_negative_limit_unbounded :
  exists batch,
    schedule_browser_batch noon three_identities (-1) 5 = Some batch
    /\ browser_ids batch = ["fresh"; "stale"]
    /\ ~ (Z.of_nat (length (browser_ids batch)) <= -1).
Proof.
  eexists. split; [reflexivity|]. split; [reflexivity|].
  vm_compute. congruence.
Qed.

(** C1 (amended): for every store state and every limit, a batch that
    [schedule_browser_batch] returns holds the ids of rows of the table
    that have to_interact set and a status other than 'running', in
    ascending order of last_interaction with the never-interacted (NULL)
    rows first; untruncated, the sequence holds every such row; for a limit
    that is not negative the result is the first [limit] entries of that
    sequence, and a negative limit does not truncate.  A batch is returned
    whenever the limit fits an SQLite integer and the time of the next
    batch is a date. *)
Theorem selectDue_eligible_ordered_truncated
    (clock : Clock) (table : list browsers.row) (limit interval : Z) :
  let full := Sql.order_by browsers.last_interaction (List.filter due table) in
  Permutation (List.filter due table) full
  /\ (- 2 ^ 63 <= limit < 2 ^ 63 -> later clock interval <> None ->
      schedule_browser_batch clock table limit interval <> None)
  /\ forall batch,
       schedule_browser_batch clock table limit interval = Some batch ->
       exists rows,
         select_due table limit = Some rows
         /\ browser_ids batch = map browsers.browser_id rows
         /\ Forall (fun r => In r table /\ browsers.to_interact r = true
                             /\ browsers.status r <> "running") rows
         /\ ascending browsers.last_interaction rows
         /\ (0 <= limit ->
             rows = firstn (Z.to_nat limit) full
             /\ Z.of_nat (length rows) <= limit)
         /\ (limit < 0 -> rows = full).
Proof.
  intros full. split; [apply order_by_perm|]. split.
  { intros Hl Hnext. unfold schedule_browser_batch, select_due, sqlite_integer.
    destruct (Z.leb_spec (- 2 ^ 63) limit); [|lia].
    destruct (Z.ltb_spec limit (2 ^ 63)); [|lia]. simpl.
    destruct (later clock interval); congruence. }
  intros batch Hb. unfold schedule_browser_batch in Hb.
  destruct (select_due table limit) as [rows|] eqn:Hrows; [|discriminate].
  destruct (later clock interval) as [next|]; [|discriminate].
  injection Hb as <-. exists rows. cbn [browser_ids].
  unfold select_due in Hrows.
  destruct (sqlite_integer limit); [|discriminate]. injection Hrows as <-.
  fold full.
  split; [reflexivity|]. split; [reflexivity|]. split.
  { apply List.Forall_forall. intros r Hr.
    apply limit_In, order_by_In, filter_In in Hr as [Hin Hdue].
    apply due_spec in Hdue. tauto. }
  split.
  { apply strongly_sorted_ascending, limit_sorted, order_by_sorted. }
  unfold Sql.limit. split; intros Hl.
  - destruct (Z.ltb_spec limit 0) as [?|_]; [lia|].
    split; [reflexivity|].
    pose proof (firstn_le_length (Z.to_nat limit) full). lia.
  - destruct (Z.ltb_spec limit 0) as [_|?]; [reflexivity | lia].
Qed.

(** An instance: with limit 1 the batch is returned and holds at most one
    identity. *)
Lemma selectDue_eligible_ordered_truncated_witness :
  schedule_browser_batch noon three_identities 1 5 <> None
  /\ exists rows,
       select_due three_identities 1 = Some rows
       /\ Z.of_nat (length rows) <= 1.
Proof.
  pose proof (selectDue_eligible_ordered_truncated noon three_identities 1 5)
    as H.
  cbv zeta in H. destruct H as (_ & Hreturns & H). split.
  - apply Hreturns; [lia | discriminate].
  - edestruct H as (rows & Hrows & _ & _ & _ & Htrunc & _); [reflexivity|].
    exists rows. split; [exact Hrows | apply Htrunc; lia].
Defined.

(** ** The queue of pending commands *)

Example fetchPending_with_id :
  map pc_id (get_pending_commands queue "2024-06-01 12:00:00" (Some "b1"))
  = [2; 3; 1].
Proof. reflexivity. Qed.

Example fetchPending_without_id :
  map pc_id (get_pending_commands queue "2024-06-01 12:00:00" None) = [2; 3].
Proof. reflexivity. Qed.

Lemma truthy_some (bid : string) : bid <> "" -> truthy (Some bid) = true.
Proof.
  intros H. simpl. now apply negb_true_iff, String.eqb_neq.
Qed.

Lemma pending_for_spec (bid : string) (c : commands.row) :
  pending_for bid c = true <->
  commands.browser_id c = bid /\ commands.status c = "pending".
Proof.
  unfold pending_for. now rewrite andb_true_iff, !String.eqb_eq.
Qed.

Lemma pending_due_spec (now : string) (c : commands.row) :
  pending_due now c = true <->
  commands.status c = "pending"
  /\ (commands.scheduled_time c = None
      \/ exists t, commands.scheduled_time c = Some t /\ String.leb t now = true).
Proof.
  unfold pending_due. rewrite andb_true_iff, orb_true_iff, String.eqb_eq.
  destruct (commands.scheduled_time c) as [t|]; simpl; unfold Sql.text_leb.
  - split; intros [Hs H]; split; auto.
    + destruct H as [H|H]; [discriminate|]. right. eauto.
    + destruct H as [H|(t' & [= <-] & H)]; [discriminate | now right].
  - intuition.
Qed.

(** C10: with a (non-empty) browser id, [get_pending_commands] returns
    every command of that browser whose status is 'pending', whatever its
    scheduled time and whatever the current time is, and nothing else, in
    ascending order of scheduled time; without an id it returns only
    pending commands that have no schedule or whose scheduled time is not
    after the current time (times being compared as SQLite compares the
    stored texts with the text of datetime('now')). *)
Theorem fetchPending_id_skips_due_filter
    (table : list commands.row) (now bid : string) :
  bid <> "" ->
  let result := get_pending_commands table now (Some bid) in
  (forall c, In c table -> commands.browser_id c = bid ->
             commands.status c = "pending" -> In (pending_of_row c) result)
  /\ (forall now', get_pending_commands table now' (Some bid) = result)
  /\ (forall p, In p result ->
        exists c, In c table /\ p = pending_of_row c
                  /\ commands.browser_id c = bid
                  /\ commands.status c = "pending")
  /\ Permutation (map pending_of_row (List.filter (pending_for bid) table)) result
  /\ ascending pc_scheduled_time result
  /\ (forall p, In p (get_pending_commands table now None) ->
        pc_status p = "pending"
        /\ (pc_scheduled_time p = None
            \/ exists t, pc_scheduled_time p = Some t /\ String.leb t now = true)).
Proof.
  intros Hbid result. subst result. unfold get_pending_commands.
  rewrite (truthy_some bid Hbid). simpl.
  split.
  { intros c Hin Hb Hs. apply in_map, order_by_In, filter_In.
    split; [exact Hin|]. now apply pending_for_spec. }
  split; [reflexivity|].
  split.
  { intros p Hp. apply in_map_iff in Hp as (c & <- & Hc).
    apply order_by_In, filter_In in Hc as [Hin Hc].
    apply pending_for_spec in Hc. exists c. tauto. }
  split; [apply Permutation_map, order_by_perm|].
  split.
  { apply strongly_sorted_ascending.
    apply strongly_sorted_map with (key := commands.scheduled_time);
      [reflexivity | apply order_by_sorted]. }
  intros p Hp. apply in_map_iff in Hp as (c & <- & Hc).
  apply order_by_In, filter_In in Hc as [_ Hc].
  now apply pending_due_spec in Hc.
Qed.

(** An instance: the command scheduled for the year 2999 is returned when
    its browser is asked for. *)
Lemma fetchPending_id_skips_due_filter_witness :
  In (pending_of_row (command 1 "b1" "pending" (Some "2999-01-01T00:00:00")))
     (get_pending_commands queue "2024-06-01 12:00:00" (Some "b1")).
Proof.
  pose proof (fetchPending_id_skips_due_filter queue "2024-06-01 12:00:00" "b1")
    as H.
  cbv zeta in H. destruct H as (H & _); [discriminate|].
  apply H; [simpl; tauto | reflexivity | reflexivity].
Defined.

(** ** The random source *)

Lemma raw_eq (t : Rand.tape) : Rand.raw t = (peek 0 t, tl t).
Proof. now destruct t. Qed.

Lemma peek_tl (k : nat) (t : Rand.tape) : peek k (tl t) = peek (S k) t.
Proof. unfold peek. destruct t; [now destruct k | reflexivity]. Qed.

Lemma randbelow_eq (n : N) (t : Rand.tape) :
  random.randbelow n t = ((peek 0 t mod n)%N, tl t).
Proof. unfold random.randbelow, Rand.bind, Rand.ret. now rewrite raw_eq. Qed.

Lemma choice_of_eq {A : Type} (d : A) (seq : list A) (t : Rand.tape) :
  random.choice_of d seq t
  = (nth (N.to_nat (peek 0 t mod N.of_nat (length seq))) seq d, tl t).
Proof. unfold random.choice_of, Rand.bind, Rand.ret. now rewrite randbelow_eq. Qed.

Lemma randint_eq (a b : Z) (t : Rand.tape) :
  random.randint a b t
  = (a + Z.of_N (peek 0 t mod Z.to_N (b - a + 1)), tl t).
Proof. unfold random.randint, Rand.bind, Rand.ret. now rewrite randbelow_eq. Qed.

Lemma random_eq (t : Rand.tape) :
  random.random t = ((peek 0 t mod 2 ^ 53)%N, tl t).
Proof. unfold random.random, Rand.bind, Rand.ret. now rewrite raw_eq. Qed.


(** ** The interaction plan *)

Example plan_of_zero_tape :
  Rand.run (generate_interaction_commands "b1") []
  = email_commands ++
    [ navigate "https://news.google.com" None; scroll "down" 200;
      wait 1000; click "a" (Some 0) ].
Proof. reflexivity. Qed.

(** C5, as stated, fails on both counts: the plan still carries the two
    placeholders, unsubstituted, and two calls for the same identity give
    different plans when the random source has moved on. *)
Lemma plan_keeps_placeholders_and_varies :
  let plan1 := Rand.run (generate_interaction_commands "b1") [0; 0; 0; 0]%N in
  let plan2 := Rand.run (generate_interaction_commands "b1") [1; 7; 9; 3]%N in
  nth_error plan1 1 = Some (fill "input[type='email']" "{{email_address}}")
  /\ nth_error plan1 4 = Some (fill "input[type='password']" "{{email_password}}")
  /\ List.filter has_placeholder plan1
     = [ fill "input[type='email']" "{{email_address}}";
         fill "input[type='password']" "{{email_password}}" ]
  /\ plan1 <> plan2.
Proof. cbv zeta. repeat split; try reflexivity. vm_compute. congruence. Qed.

(** C5 (amended): for every identity and every state of the random
    source, the plan has fourteen commands: the ten commands of the
    account-login flow (navigate, fill, click, wait, fill, click,
    wait_for_navigation, scroll, click, custom_action) followed by four
    browsing commands that the next four draws of the random source
    determine: a visit to one of three sites, a scroll down by 200 to 500,
    a wait of 1000 to 3000 ms and a click on one of the links 0 to 5.  Two
    calls for one identity yield the same plan when they meet the random
    source in the same state. *)
Theorem plan_is_login_flow_then_random_browsing
    (bid : string) (t : Rand.tape) :
  let plan := Rand.run (generate_interaction_commands bid) t in
  let url := nth (N.to_nat (peek 0 t mod 3)) browsing_sites "" in
  let amount := 200 + Z.of_N (peek 1 t mod 301) in
  let duration := 1000 + Z.of_N (peek 2 t mod 2001) in
  let index := Z.of_N (peek 3 t mod 6) in
  length plan = 14%nat
  /\ map command_type (firstn 10 plan)
     = [ "navigate"; "fill"; "click"; "wait"; "fill"; "click";
         "wait_for_navigation"; "scroll"; "click"; "custom_action" ]
  /\ skipn 10 plan
     = [ navigate url None; scroll "down" amount; wait duration;
         click "a" (Some index) ]
  /\ In url browsing_sites
  /\ 200 <= amount <= 500
  /\ 1000 <= duration <= 3000
  /\ 0 <= index <= 5.
Proof.
  intros plan url amount duration index.
  subst plan url amount duration index.
  unfold generate_interaction_commands, browsing_commands, Rand.run, Rand.bind.
  rewrite choice_of_eq. cbv beta iota.
  rewrite randint_eq. cbv beta iota.
  rewrite randint_eq. cbv beta iota.
  rewrite randint_eq. cbv beta iota.
  rewrite !peek_tl. unfold Rand.ret. cbn [fst].
  change (Z.to_N (500 - 200 + 1)) with 301%N.
  change (Z.to_N (3000 - 1000 + 1)) with 2001%N.
  change (Z.to_N (5 - 0 + 1)) with 6%N.
  change (N.of_nat (length browsing_sites)) with 3%N.
  assert (peek 0 t mod 3 < 3)%N as H0 by (apply N.mod_lt; discriminate).
  assert (peek 1 t mod 301 < 301)%N as H1 by (apply N.mod_lt; discriminate).
  assert (peek 2 t mod 2001 < 2001)%N as H2 by (apply N.mod_lt; discriminate).
  assert (peek 3 t mod 6 < 6)%N as H3 by (apply N.mod_lt; discriminate).
  revert H0 H1 H2 H3.
  generalize (peek 0 t mod 3)%N (peek 1 t mod 301)%N
             (peek 2 t mod 2001)%N (peek 3 t mod 6)%N.
  intros i0 i1 i2 i3 H0 H1 H2 H3.
  repeat split; try reflexivity; try lia.
  apply nth_In. simpl length. lia.
Qed.

(** ** Fingerprints *)

(** Runs the generator symbolically: the nine leading draws are named,
    the noise and font draws stay abstract. *)
Ltac run_generator :=
  unfold generate_fingerprint, Rand.run, Rand.bind;
  rewrite ?choice_of_eq, ?randint_eq; cbv beta iota;
  repeat (first [ rewrite choice_of_eq | rewrite randint_eq ]; cbv beta iota);
  repeat match goal with
         | |- context [ let (_, _) := ?m in _ ] =>
             let x := fresh "x" in let t := fresh "t" in
             destruct m as [x t]
         end;
  unfold Rand.ret; cbn [fst snd user_agent viewport timezone locale platform
                        screen webgl_vendor webgl_renderer
                        viewport.width viewport.height
                        screen.width screen.height];
  rewrite ?peek_tl.

(** C8: in every generated fingerprint the viewport and the screen
    descriptor have the same width and the same height. *)
Theorem fingerprint_viewport_matches_screen (t : Rand.tape) :
  let fp := Rand.run generate_fingerprint t in
  viewport.width (viewport fp) = screen.width (screen fp)
  /\ viewport.height (viewport fp) = screen.height (screen fp).
Proof.
  intros fp. subst fp. split; run_generator; reflexivity.
Qed.

(** C6, as stated, fails for the fleet manager's generator: as the index
    draw runs over its equally likely values, each candidate viewport,
    timezone and locale is produced exactly once, so the three attributes
    are uniform over their whole lists; the values that the weighting
    calls common ('America/New_York', 'America/Los_Angeles',
    'Europe/London') come out on three draws out of six. *)
Lemma fingerprint_attributes_uniform :
  map (fun v => let fp := fingerprint_drawn v 0 0 in
                (viewport.width (viewport fp), viewport.height (viewport fp)))
      [0; 1; 2; 3; 4]%N = viewports
  /\ map (fun z => timezone (fingerprint_drawn 0 z 0)) [0; 1; 2; 3; 4; 5]%N
     = timezones
  /\ map (fun l => locale (fingerprint_drawn 0 0 l)) [0; 1; 2; 3; 4; 5]%N
     = locales
  /\ length (List.filter
               (fun z => tester.member (timezone (fingerprint_drawn 0 z 0))
                           tester.common_timezones)
               [0; 1; 2; 3; 4; 5]%N) = 3%nat.
Proof. repeat split; vm_compute; reflexivity. Qed.

Lemma fingerprint_uniform_draws (t : Rand.tape) :
  let fp := Rand.run generate_fingerprint t in
  (viewport.width (viewport fp), viewport.height (viewport fp))
    = nth (N.to_nat (peek 0 t mod 5)) viewports (0, 0)
  /\ timezone fp = nth (N.to_nat (peek 2 t mod 6)) timezones ""
  /\ locale fp = nth (N.to_nat (peek 3 t mod 6)) locales "".
Proof.
  intros fp. subst fp. repeat split; run_generator.
  - now destruct (nth _ viewports _).
  - reflexivity.
  - reflexivity.
Qed.

Lemma fingerprint_webgl_draws (t : Rand.tape) :
  let fp := Rand.run generate_fingerprint t in
  webgl_vendor fp = nth (N.to_nat (peek 7 t mod 3)) webgl_vendors ""
  /\ webgl_renderer fp
     = renderer_string (10000 + Z.of_N (peek 8 t mod 90000)).
Proof.
  intros fp. subst fp. split; run_generator; reflexivity.
Qed.

(** *** Weighted sampling in the fingerprint tester *)

Lemma member_In (x : string) (l : list string) :
  tester.member x l = true <-> In x l.
Proof.
  unfold tester.member. rewrite existsb_exists. split.
  - intros (y & Hy & Heq). apply String.eqb_eq in Heq. now subst.
  - intros H. exists x. split; [exact H | apply String.eqb_refl].
Qed.

Lemma nonempty_spec {A : Type} (l : list A) :
  tester.nonempty l = true <-> l <> [].
Proof. destruct l; simpl; split; congruence. Qed.

Lemma choice_In {A : Type} (seq : list A) (t : Rand.tape) (x : A) :
  fst (random.choice seq t) = Some x -> In x seq.
Proof.
  destruct seq as [|a seq]; [discriminate|].
  unfold random.choice, Rand.bind, Rand.ret. rewrite randbelow_eq.
  cbn [fst]. apply nth_error_In.
Qed.

Lemma choice_Some {A : Type} (seq : list A) (t : Rand.tape) :
  seq <> [] -> exists x, fst (random.choice seq t) = Some x.
Proof.
  destruct seq as [|a seq]; [congruence|]. intros _.
  unfold random.choice, Rand.bind, Rand.ret. rewrite randbelow_eq.
  cbn [fst].
  destruct (nth_error (a :: seq) _) as [x|] eqn:Hx; [eauto|].
  apply nth_error_None in Hx.
  pose proof (N.mod_lt (peek 0 t) (N.of_nat (length (a :: seq)))) as Hlt.
  simpl length in *. lia.
Qed.

Lemma choice_eq (values : list string) (t : Rand.tape) :
  fst (random.choice values t) = uniformly_chosen (peek 0 t) values.
Proof.
  destruct values as [|a values]; [reflexivity|].
  unfold random.choice, Rand.bind, Rand.ret. now rewrite randbelow_eq.
Qed.

Lemma weighted_policy (num den : N) (common : list string) :
  common <> [] ->
  weighting_policy num den common (tester.weighted num den common).
Proof.
  intros Hcommon candidates t r result common_candidates uncommon.
  subst r result.
  unfold tester.weighted, Rand.run, Rand.bind.
  rewrite random_eq. cbv beta iota. fold uncommon. fold common_candidates.
  apply nonempty_spec in Hcommon. rewrite Hcommon, andb_true_r.
  split; [|split].
  - intros ->. now rewrite choice_eq, peek_tl.
  - intros -> Hne. apply nonempty_spec in Hne. rewrite Hne.
    now rewrite choice_eq, peek_tl.
  - intros -> Hnil. rewrite Hnil. cbn [tester.nonempty].
    now rewrite choice_eq, peek_tl.
Qed.

(** As the index draw runs over the positions of a list, the uniform
    choice runs over its elements, and it starts again after them. *)
Lemma uniformly_chosen_enumerates (values : list string) :
  map (fun k => uniformly_chosen (N.of_nat k) values) (seq 0 (length values))
  = map Some values
  /\ forall d, uniformly_chosen (d + N.of_nat (length values)) values
               = uniformly_chosen d values.
Proof.
  destruct values as [|a values]; [split; reflexivity|].
  set (l := a :: values). assert (Hlen : length l <> 0%nat) by discriminate.
  split.
  - apply List.nth_error_ext. intros k.
    rewrite !nth_error_map.
    destruct (Nat.lt_ge_cases k (length l)) as [Hk|Hk].
    + rewrite nth_error_seq by exact Hk. cbn [option_map Nat.add].
      unfold uniformly_chosen, l at 1. fold l.
      apply Nat.ltb_lt in Hk as Hb. rewrite Hb. cbn [option_map].
      rewrite N.mod_small by lia. rewrite Nat2N.id.
      destruct (nth_error l k) eqn:Hn; [reflexivity|].
      apply nth_error_None in Hn. lia.
    + assert (nth_error (seq 0 (length l)) k = None) as ->
        by (apply nth_error_None; rewrite length_seq; exact Hk).
      assert (nth_error l k = None) as -> by (now apply nth_error_None).
      reflexivity.
  - intros d. unfold uniformly_chosen, l at 1 3. fold l.
    f_equal. f_equal.
    rewrite <- (N.mul_1_l (N.of_nat (length l))) at 1.
    apply N.Div0.mod_add.
Qed.

(** C6 (amended): the fleet manager's generator draws viewport, timezone
    and locale each by one index draw over its whole candidate list, that
    is, uniformly.  Uncommon-value weighting is what the two fingerprint
    testers apply, [AdvancedFingerprintTester] with the thresholds 0.2,
    0.15 and 0.1 and [FingerprintTester] with 0.3, 0.25 and 0.2: below the
    threshold a uniform choice from the common values that are candidates,
    otherwise a uniform choice from the candidates that are not common, or
    from all candidates when none is uncommon.  A uniform choice takes the
    element at the position of the index draw, so that the draws over the
    positions give every element once. *)
Theorem fingerprint_uniform_tester_weighted :
  (forall t : Rand.tape,
     let fp := Rand.run generate_fingerprint t in
     (viewport.width (viewport fp), viewport.height (viewport fp))
       = nth (N.to_nat (peek 0 t mod 5)) viewports (0, 0)
     /\ timezone fp = nth (N.to_nat (peek 2 t mod 6)) timezones ""
     /\ locale fp = nth (N.to_nat (peek 3 t mod 6)) locales "")
  /\ weighting_policy 1 5 tester.common_resolutions
       tester.get_weighted_resolution
  /\ weighting_policy 3 20 tester.common_timezones
       tester.get_weighted_timezone
  /\ weighting_policy 1 10 tester.common_languages
       tester.get_weighted_language
  /\ weighting_policy 3 10 fingerprint_tester.common_resolutions
       fingerprint_tester.get_weighted_resolution
  /\ weighting_policy 1 4 fingerprint_tester.common_timezones
       fingerprint_tester.get_weighted_timezone
  /\ weighting_policy 1 5 fingerprint_tester.common_languages
       fingerprint_tester.get_weighted_language
  /\ forall values : list string,
       map (fun k => uniformly_chosen (N.of_nat k) values)
         (seq 0 (length values)) = map Some values
       /\ forall d, uniformly_chosen (d + N.of_nat (length values)) values
                    = uniformly_chosen d values.
Proof.
  split; [exact fingerprint_uniform_draws|].
  repeat split;
    try (apply weighted_policy; discriminate);
    apply uniformly_chosen_enumerates.
Qed.

(** A unit draw of 0.5 with the index draw 1 selects the second of the
    two timezones that are not common. *)
Lemma fingerprint_uniform_tester_weighted_witness :
  Rand.run (tester.get_weighted_timezone
              ["Asia/Tokyo"; "Europe/London"; "Europe/Paris"])
           [4503599627370496; 1]%N = Some "Europe/Paris".
Proof.
  destruct fingerprint_uniform_tester_weighted as (_ & _ & H & _).
  destruct (H ["Asia/Tokyo"; "Europe/London"; "Europe/Paris"]
              [4503599627370496; 1]%N) as (_ & H2 & _).
  rewrite H2; [reflexivity | reflexivity | discriminate].
Defined.

(** *** Rendering-stack vendor and renderer *)

(** C7, as stated, fails: the vendor and the renderer come from two
    separate draws, and moving one draw changes one of the two strings
    and leaves the other as it was. *)
Lemma webgl_vendor_renderer_drawn_apart :
  webgl_drawn 0 0
    = ("Google Inc.", "ANGLE (Direct3D11 vs_5_0 ps_5_0, D3D11-10000)")
  /\ webgl_drawn 0 1
    = ("Google Inc.", "ANGLE (Direct3D11 vs_5_0 ps_5_0, D3D11-10001)")
  /\ webgl_drawn 1 0
    = ("NVIDIA Corporation", "ANGLE (Direct3D11 vs_5_0 ps_5_0, D3D11-10000)")
  /\ webgl_drawn 1 1
    = ("NVIDIA Corporation", "ANGLE (Direct3D11 vs_5_0 ps_5_0, D3D11-10001)").
Proof. repeat split; vm_compute; reflexivity. Qed.

(** C7 (amended): in every generated fingerprint the vendor is drawn by
    one index draw from the list of three vendors and the renderer is
    built from a separate number draw between 10000 and 99999; the two are
    drawn independently, and every vendor of the list occurs together with
    every renderer number. *)
Theorem webgl_vendor_renderer_independent :
  (forall t : Rand.tape,
     let fp := Rand.run generate_fingerprint t in
     webgl_vendor fp = nth (N.to_nat (peek 7 t mod 3)) webgl_vendors ""
     /\ webgl_renderer fp
        = renderer_string (10000 + Z.of_N (peek 8 t mod 90000)))
  /\ (forall (vendor : string) (n : Z),
        In vendor webgl_vendors -> 10000 <= n <= 99999 ->
        exists t : Rand.tape,
          let fp := Rand.run generate_fingerprint t in
          webgl_vendor fp = vendor /\ webgl_renderer fp = renderer_string n).
Proof.
  split; [exact fingerprint_webgl_draws|].
  intros vendor n Hin Hn.
  destruct (In_nth _ _ "" Hin) as (i & Hi & Hnth).
  exists [0; 0; 0; 0; 0; 0; 0; N.of_nat i; Z.to_N (n - 10000)]%N.
  destruct (fingerprint_webgl_draws
              [0; 0; 0; 0; 0; 0; 0; N.of_nat i; Z.to_N (n - 10000)]%N)
    as [Hv Hr].
  cbv zeta. rewrite Hv, Hr. unfold peek. cbn [nth].
  simpl length in Hi.
  rewrite !N.mod_small by lia.
  rewrite Nat2N.id, Z2N.id by lia.
  split; [exact Hnth | f_equal; lia].
Qed.

(** An instance: the vendor 'AMD' together with renderer number 54321. *)
Lemma webgl_vendor_renderer_independent_witness :
  exists t : Rand.tape,
    let fp := Rand.run generate_fingerprint t in
    webgl_vendor fp = "AMD" /\ webgl_renderer fp = renderer_string 54321.
Proof.
  apply (proj2 webgl_vendor_renderer_independent "AMD" 54321).
  - simpl. tauto.
  - lia.
Defined.

(** ** The execution engine *)

(** *** Relations that every step of a computation maintains *)

Section Stable.
Context (R : World -> World -> Prop).
Context (R_refl : forall w, R w w).
Context (R_trans : forall w1 w2 w3, R w1 w2 -> R w2 w3 -> R w1 w3).

Lemma stable_ret {A : Type} (a : A) : stable R (Run.ret a).
Proof. intros w. apply R_refl. Qed.

Lemma stable_raise {A : Type} (e : string) : stable R (@Run.raise A e).
Proof. intros w. apply R_refl. Qed.

Lemma stable_get {A : Type} (f : World -> A) : stable R (Run.get f).
Proof. intros w. apply R_refl. Qed.

Lemma stable_modify (f : World -> World) :
  (forall w, R w (f w)) -> stable R (Run.modify f).
Proof. intros H w. apply H. Qed.

Lemma stable_bind {A B : Type} (m : Run A) (f : A -> Run B) :
  stable R m -> (forall a, stable R (f a)) -> stable R (Run.bind m f).
Proof.
  intros Hm Hf w. unfold Run.bind. specialize (Hm w).
  destruct (m w) as [[a|e] w1]; simpl in *; [|exact Hm].
  eapply R_trans; [exact Hm | apply Hf].
Qed.

Lemma stable_try_except (body : Run unit) (handler : string -> Run unit) :
  stable R body -> (forall e, stable R (handler e)) ->
  stable R (Run.try_except body handler).
Proof.
  intros Hb Hh w. unfold Run.try_except. specialize (Hb w).
  destruct (body w) as [[a|e] w1]; simpl in *; [exact Hb|].
  eapply R_trans; [exact Hb | apply Hh].
Qed.

Lemma stable_for_each {A : Type} (l : list A) (body : A -> Run unit) :
  (forall x, stable R (body x)) -> stable R (Run.for_each l body).
Proof.
  intros Hb. induction l as [|x l IH]; simpl.
  - apply stable_ret.
  - apply stable_bind; [apply Hb | intros _; exact IH].
Qed.

Lemma stable_draw {A : Type} (m : Rand.M A) :
  (forall t w, R w (with_rng t w)) -> stable R (Run.draw m).
Proof.
  intros H w. unfold Run.draw. destruct (m (rng w)) as [a t]. apply H.
Qed.

Lemma stable_driver_call (env : Env) (what : string) :
  (forall w, R w (with_event (Called what) (with_call w))) ->
  stable R (driver_call env what).
Proof.
  intros H w. unfold driver_call.
  destruct (raises (driver env (calls w))); apply H.
Qed.
End Stable.

(** A handler that only prints turns every failure of the body into a
    normal return. *)
Lemma try_except_print_returns (body : Run unit) (e : Event) (w : World) :
  exists w', Run.try_except body (fun _ => print e) w = (Returned tt, w').
Proof.
  unfold Run.try_except, print, Run.modify.
  destruct (body w) as [[[]|msg] w1]; eauto.
Qed.

(** *** Rows of the store under UPDATE *)

Lemma fetchone_update (bid : string) (f : browsers.row -> browsers.row)
    (rows : list browsers.row) :
  (forall r, browsers.browser_id (f r) = browsers.browser_id r) ->
  browsers.fetchone bid (browsers.update bid f rows)
  = option_map f (browsers.fetchone bid rows).
Proof.
  intros Hf. unfold browsers.fetchone, browsers.update.
  induction rows as [|r rows IH]; simpl; [reflexivity|].
  destruct (String.eqb (browsers.browser_id r) bid) eqn:Heq.
  - now rewrite Hf, Heq.
  - now rewrite Heq.
Qed.

Lemma stored_status_set (bid s : string) (w : World) :
  stored_status bid
    (with_table (browsers.update bid (browsers.with_status s)) w)
  = option_map (fun _ => s) (stored_status bid w).
Proof.
  unfold stored_status. simpl. rewrite fetchone_update by reflexivity.
  now destruct (browsers.fetchone bid (table w)).
Qed.

Lemma stored_status_touch (bid t : string) (w : World) :
  stored_status bid
    (with_table (browsers.update bid (browsers.with_last_interaction t)) w)
  = stored_status bid w.
Proof.
  unfold stored_status. simpl. rewrite fetchone_update by reflexivity.
  now destruct (browsers.fetchone bid (table w)).
Qed.

(** *** The stored status across a session *)

Section StatusInvariant.
Context (env : Env) (bid : string).

Lemma keeps_refl (w : World) : keeps bid w w.
Proof. unfold keeps. auto. Qed.

Lemma keeps_trans (w1 w2 w3 : World) :
  keeps bid w1 w2 -> keeps bid w2 w3 -> keeps bid w1 w3.
Proof. unfold keeps. auto. Qed.

Lemma keeps_event (e : Event) (w : World) :
  keeps bid w (with_event e (with_call w)).
Proof. unfold keeps, registered_or_inactive, stored_status. simpl. auto. Qed.

Lemma keeps_print (e : Event) (w : World) : keeps bid w (with_event e w).
Proof. unfold keeps, registered_or_inactive, stored_status. simpl. auto. Qed.

Lemma keeps_rng (t : Rand.tape) (w : World) : keeps bid w (with_rng t w).
Proof. unfold keeps, registered_or_inactive, stored_status. simpl. auto. Qed.

Lemma keeps_touch (t : string) (w : World) :
  keeps bid w (with_table
             (browsers.update bid (browsers.with_last_interaction t)) w).
Proof.
  unfold keeps, registered_or_inactive. rewrite stored_status_touch.
  simpl. auto.
Qed.

Lemma keeps_register (info : BrowserInfo) (w : World) :
  keeps bid w (with_table (browsers.update bid (browsers.with_status "running"))
             (with_active (insert bid info) w)).
Proof.
  intros [[s Hs] _]. split.
  - rewrite stored_status_set. unfold stored_status in *. simpl.
    exists "running". now rewrite Hs.
  - simpl. rewrite lookup_insert_eq. discriminate.
Qed.

Local Abbreviation steady := (stable (keeps bid)).

Local Ltac steady_steps :=
  repeat first
    [ apply stable_ret; exact keeps_refl
    | apply stable_get; exact keeps_refl
    | apply stable_driver_call; intros ?; apply keeps_event
    | apply stable_modify; intros ?; apply keeps_print
    | apply stable_draw; exact keeps_rng
    | apply stable_bind; [exact keeps_trans | | intros ?]
    | apply stable_try_except; [exact keeps_trans | | intros ?] ].

Lemma steady_overrides : steady (apply_fingerprint_overrides env).
Proof. unfold apply_fingerprint_overrides. steady_steps. Qed.

Lemma steady_launch (use_proxy : bool) : steady (launch_browser env bid use_proxy).
Proof.
  unfold launch_browser.
  apply stable_bind; [exact keeps_trans | | intros found].
  { apply stable_get; exact keeps_refl. }
  apply stable_bind; [exact keeps_trans | | intros command].
  { destruct found; [apply stable_ret | apply stable_raise]; exact keeps_refl. }
  do 4 (apply stable_bind; [exact keeps_trans | | intros ?];
        [apply stable_driver_call; intros ?; apply keeps_event |]).
  apply stable_bind; [exact keeps_trans | apply steady_overrides | intros _].
  do 2 (apply stable_bind; [exact keeps_trans | | intros ?];
        [apply stable_get; exact keeps_refl |]).
  intros w. unfold Run.bind, Run.modify, update_browser_status, Run.ret.
  simpl. apply keeps_register.
Qed.

Lemma steady_dispatch (c : Command) : steady (dispatch env bid c).
Proof.
  destruct c as [url [w|] | sel v | sel [i|] | d | | dir am | act descr];
    unfold dispatch, execute_custom_action, process_emails, sleep, print.
  all: try (destruct (String.eqb _ _); [|try destruct (String.eqb _ _)]).
  all: try (steady_steps; fail).
  apply stable_bind; [exact keeps_trans | | intros n].
  - apply stable_driver_call; intros ?; apply keeps_event.
  - destruct (_ && _); [destruct (_ <? _)|]; steady_steps.
    apply stable_raise; exact keeps_refl.
Qed.

Lemma steady_execute (c : Command) : steady (execute_command env bid c).
Proof.
  unfold execute_command, print.
  apply stable_bind; [exact keeps_trans | | intros active].
  { apply stable_get; exact keeps_refl. }
  apply stable_bind; [exact keeps_trans | | intros _].
  { destruct (active !! bid).
    - apply stable_ret; exact keeps_refl.
    - apply stable_bind; [exact keeps_trans | apply steady_launch |].
      intros _. apply stable_ret; exact keeps_refl. }
  apply stable_try_except; [exact keeps_trans | | intros ?].
  - apply stable_bind; [exact keeps_trans | | intros _].
    + apply stable_modify; intros ?; apply keeps_print.
    + apply steady_dispatch.
  - apply stable_modify; intros ?; apply keeps_print.
Qed.

Lemma steady_attempt (generator : string -> Rand.M (list Command)) :
  steady
    (Run.try_except
       (launch_browser env bid false ;;;
        commands <-- Run.draw (generator bid) ;;;
        Run.for_each commands
          (fun command =>
             execute_command env bid command ;;;
             Run.draw (random.uniform 1 3) ;;;
             sleep) ;;;
        update_browser_last_interaction env bid)
       (fun _ => print (SessionError bid))).
Proof.
  apply stable_try_except; [exact keeps_trans | | intros ?].
  2: { apply stable_modify; intros ?; apply keeps_print. }
  apply stable_bind; [exact keeps_trans | apply steady_launch | intros _].
  apply stable_bind; [exact keeps_trans | | intros commands].
  { apply stable_draw; exact keeps_rng. }
  apply stable_bind; [exact keeps_trans | | intros _].
  - apply stable_for_each; [exact keeps_refl | exact keeps_trans |].
    intros c.
    apply stable_bind; [exact keeps_trans | apply steady_execute | intros _].
    apply stable_bind; [exact keeps_trans | | intros _].
    + apply stable_draw; exact keeps_rng.
    + apply stable_modify; intros ?; apply keeps_print.
  - apply stable_modify. intros w. apply keeps_touch.
Qed.

Lemma close_browser_inactive (w : World) :
  registered_or_inactive bid w ->
  stored_status bid (snd (close_browser env bid w)) = Some "inactive".
Proof.
  intros [[s Hs] Hnone]. unfold close_browser, Run.bind at 1, Run.get.
  destruct (active_browsers w !! bid) as [info|] eqn:Hact; [|now apply Hnone].
  assert (stable (same_status bid)
            (Run.try_except
               (driver_call env "context.close" ;;;
                driver_call env "browser.close" ;;;
                driver_call env "playwright.stop" ;;;
                Run.ret tt)
               (fun _ => print (CloseError bid)))) as Hsame.
  { unfold print.
    repeat first
      [ apply stable_ret; reflexivity
      | apply stable_driver_call; intros ?; reflexivity
      | apply stable_modify; reflexivity
      | apply stable_bind;
          [intros ? ? ? H1 H2; unfold same_status in *; congruence | | intros ?]
      | apply stable_try_except;
          [intros ? ? ? H1 H2; unfold same_status in *; congruence | | intros ?] ]. }
  specialize (Hsame w). unfold same_status in Hsame.
  unfold Run.bind at 1.
  destruct (try_except_print_returns
              (driver_call env "context.close" ;;;
               driver_call env "browser.close" ;;;
               driver_call env "playwright.stop" ;;;
               Run.ret tt) (CloseError bid) w) as [w1 Hw1].
  rewrite Hw1 in Hsame |- *. simpl in Hsame.
  unfold Run.bind, Run.modify, update_browser_status. simpl.
  rewrite stored_status_set. unfold stored_status in *. simpl.
  rewrite Hsame, Hs. reflexivity.
Qed.
End StatusInvariant.

(** *** Sessions *)

(** No driver call raises: the fourteen commands of the plan are
    entered, no failure is reported, the time of the last interaction is
    written and the status is back to 'inactive'. *)
Example session_succeeds :
  let w := snd (run_single_browser_session calm "fresh" idle_world) in
  length (executed (log w)) = 14%nat
  /\ List.filter (fun e => match e with
                           | CommandError _ | SessionError _ | CloseError _ => true
                           | _ => false
                           end) (log w) = []
  /\ stored_last_interaction "fresh" w = Some (Some "2024-06-01T12:00:00.000000")
  /\ stored_status "fresh" w = Some "inactive"
  /\ active_browsers w !! "fresh" = None.
Proof. vm_compute. repeat split. Qed.

(** The driver fails while the browser is being launched: the session
    is reported as failed, nothing was registered, the status never left
    'inactive'. *)
Example session_launch_fails :
  let w := snd (run_single_browser_session (failing_at 1) "fresh" idle_world) in
  log w = [ Called "async_playwright().start"; Called "chromium.launch";
            SessionError "fresh" ]
  /\ stored_status "fresh" w = Some "inactive"
  /\ stored_last_interaction "fresh" w = Some None.
Proof. vm_compute. repeat split. Qed.

(** C2: an identity whose stored status is 'inactive' before
    [run_single_browser_session] has the stored status 'inactive' after it,
    whatever the driver does during the session: launch failure, failing
    commands, a failing close or none of these. *)
Theorem runSession_leaves_status_inactive
    (env : Env) (bid : string) (w : World) :
  stored_status bid w = Some "inactive" ->
  stored_status bid (snd (run_single_browser_session env bid w))
  = Some "inactive".
Proof.
  intros Hs. unfold run_single_browser_session, run_session, Run.try_finally.
  pose proof (steady_attempt env bid generate_interaction_commands w) as Hkeep.
  destruct (Run.try_except _ _ w) as [outcome w1]. simpl in Hkeep.
  pose proof (close_browser_inactive env bid w1) as Hclose.
  destruct (close_browser env bid w1) as [[[]|e] w2]; simpl in *;
    apply Hclose, Hkeep; split; eauto.
Qed.

(** An instance: a session in which one of the commands fails. *)
Lemma runSession_leaves_status_inactive_witness :
  stored_status "fresh"
    (snd (run_single_browser_session (failing_at 12) "fresh" idle_world))
  = Some "inactive".
Proof.
  apply runSession_leaves_status_inactive. reflexivity.
Defined.

(** *** Failing commands inside a session *)

Lemma frame_refl (w : World) : frame w w.
Proof. unfold frame. auto. Qed.

Lemma frame_trans (w1 w2 w3 : World) : frame w1 w2 -> frame w2 w3 -> frame w1 w3.
Proof. unfold frame. intuition congruence. Qed.

Lemma executed_app (l1 l2 : list Event) :
  executed (l1 ++ l2) = executed l1 ++ executed l2.
Proof. apply flat_map_app. Qed.

Lemma session_errors_app (l1 l2 : list Event) :
  session_errors (l1 ++ l2) = session_errors l1 ++ session_errors l2.
Proof. apply flat_map_app. Qed.

Lemma frame_event (e : Event) (w : World) : silent e -> frame w (with_event e w).
Proof.
  intros He. unfold frame. simpl.
  rewrite executed_app, session_errors_app.
  destruct e; simpl in *; try contradiction; rewrite !app_nil_r; auto.
Qed.

Lemma frame_call (what : string) (w : World) :
  frame w (with_event (Called what) (with_call w)).
Proof.
  unfold frame. simpl. rewrite executed_app, session_errors_app. simpl.
  rewrite !app_nil_r. auto.
Qed.

Lemma frame_rng (t : Rand.tape) (w : World) : frame w (with_rng t w).
Proof. unfold frame. simpl. auto. Qed.

Ltac frame_steps :=
  repeat first
    [ apply stable_ret; exact frame_refl
    | apply stable_get; exact frame_refl
    | apply stable_driver_call; exact (frame_call _)
    | apply stable_modify; intros ?; apply frame_event; exact I
    | apply stable_draw; exact frame_rng
    | apply stable_bind; [exact frame_trans | | intros ?]
    | apply stable_try_except; [exact frame_trans | | intros ?] ].

Lemma frame_dispatch (env : Env) (bid : string) (c : Command) :
  stable frame (dispatch env bid c).
Proof.
  destruct c as [url [w|] | sel v | sel [i|] | d | | dir am | act descr];
    unfold dispatch, execute_custom_action, process_emails, sleep, print.
  all: try (destruct (String.eqb _ _); [|try destruct (String.eqb _ _)]).
  all: try (frame_steps; fail).
  apply stable_bind; [exact frame_trans | | intros n].
  - apply stable_driver_call; exact (frame_call _).
  - destruct (_ && _); [destruct (_ <? _)|]; frame_steps.
    apply stable_raise; exact frame_refl.
Qed.

(** One command: whatever the driver answers, [execute_command] returns
    normally, having entered exactly this command. *)
Lemma execute_command_returns (env : Env) (bid : string) (c : Command)
    (w : World) (info : BrowserInfo) :
  active_browsers w !! bid = Some info ->
  exists w',
    execute_command env bid c w = (Returned tt, w')
    /\ table w' = table w
    /\ active_browsers w' = active_browsers w
    /\ executed (log w') = executed (log w) ++ [c]
    /\ session_errors (log w') = session_errors (log w).
Proof.
  intros Hact. unfold execute_command, Run.bind at 1 2, Run.get.
  rewrite Hact. unfold Run.ret at 1.
  unfold Run.try_except, Run.bind, print, Run.modify.
  pose proof (frame_dispatch env bid c (with_event (Executing bid c) w))
    as (Ht & Ha & He & Hs).
  destruct (dispatch env bid c (with_event (Executing bid c) w))
    as [[[]|msg] w1]; simpl in *.
  - exists w1. rewrite Ht, Ha, He, Hs, executed_app, session_errors_app.
    simpl. rewrite app_nil_r. auto.
  - eexists. split; [reflexivity|]. simpl.
    rewrite Ht, Ha, !executed_app, !session_errors_app, He, Hs.
    rewrite executed_app, session_errors_app. simpl.
    rewrite !app_nil_r. auto.
Qed.

(** The loop over the plan: every command is entered, in order, and the
    loop returns normally, whichever commands fail. *)
Lemma plan_loop_returns (env : Env) (bid : string) (plan : list Command)
    (w : World) (info : BrowserInfo) :
  active_browsers w !! bid = Some info ->
  exists w',
    Run.for_each plan
      (fun command =>
         execute_command env bid command ;;;
         Run.draw (random.uniform 1 3) ;;;
         sleep) w = (Returned tt, w')
    /\ table w' = table w
    /\ active_browsers w' = active_browsers w
    /\ executed (log w') = executed (log w) ++ plan
    /\ session_errors (log w') = session_errors (log w).
Proof.
  revert w. induction plan as [|c plan IH]; intros w Hact.
  - exists w. simpl. rewrite app_nil_r. auto.
  - destruct (execute_command_returns env bid c w info Hact)
      as (w1 & Hrun & Ht & Ha & He & Hs).
    cbn [Run.for_each]. unfold Run.bind at 1 2. rewrite Hrun.
    unfold Run.bind at 1, Run.draw.
    destruct (random.uniform 1 3 (rng w1)) as [u t].
    unfold sleep, Run.modify.
    destruct (IH (with_event Slept (with_rng t w1))) as (w' & Hloop & Ht' & Ha' & He' & Hs').
    { simpl. now rewrite Ha. }
    exists w'. split; [exact Hloop|].
    rewrite Ht', Ha', He', Hs'. simpl.
    rewrite executed_app, session_errors_app. simpl.
    rewrite !app_nil_r, He, Hs, Ht, Ha, <- app_assoc. auto.
Qed.

Lemma returns_bind {A B : Type} (P : World -> Prop) (m : Run A)
    (f : A -> Run B) (Q1 : A -> World -> Prop) (Q : B -> World -> Prop) :
  returns_with P m Q1 -> (forall a, returns_with (Q1 a) (f a) Q) ->
  returns_with P (Run.bind m f) Q.
Proof.
  intros Hm Hf w b w' HP Hrun. unfold Run.bind in Hrun.
  destruct (m w) as [[a|e] w1] eqn:Hmw; [|discriminate].
  eapply Hf; [eapply Hm; eassumption | exact Hrun].
Qed.

Lemma returns_stable {A : Type} (P : World -> Prop) (m : Run A) :
  stable (fun w w' => P w -> P w') m -> returns_with P m (fun _ => P).
Proof.
  intros Hs w a w' HP Hrun. specialize (Hs w). rewrite Hrun in Hs. auto.
Qed.

Section SessionFacts.
Context (env : Env) (bid : string).

Lemma returns_call_row (what : string) :
  returns_with (has_row bid) (driver_call env what) (fun _ => has_row bid).
Proof.
  apply returns_stable, stable_driver_call. intros w H. exact H.
Qed.

Lemma launch_registers (use_proxy : bool) :
  returns_with (fun _ => True) (launch_browser env bid use_proxy)
    (fun info w => active_browsers w !! bid = Some info /\ has_row bid w).
Proof.
  unfold launch_browser.
  apply returns_bind
    with (Q1 := fun found w => (exists c, found = Returned c) -> has_row bid w).
  { intros w found w' _ [= <- <-]. unfold generate_launch_command, has_row.
    destruct (browsers.fetchone bid (table w)); [eauto|].
    intros [c Hc]. discriminate. }
  intros found.
  apply returns_bind with (Q1 := fun _ => has_row bid).
  { destruct found as [c|e]; intros w a w' H [= _ <-]. apply H. eauto. }
  intros command.
  do 4 (apply returns_bind with (Q1 := fun _ => has_row bid);
        [apply returns_call_row | intros ?]).
  apply returns_bind with (Q1 := fun _ => has_row bid).
  { unfold apply_fingerprint_overrides.
    do 4 (apply returns_bind with (Q1 := fun _ => has_row bid);
          [apply returns_call_row | intros ?]).
    intros ? ? ? H [= _ <-]. exact H. }
  intros _.
  do 2 (apply returns_bind with (Q1 := fun _ => has_row bid);
        [intros ? ? ? H [= _ <-]; exact H | intros ?]).
  intros w info w' [r Hrow] Hrun.
  unfold Run.bind, Run.modify, update_browser_status, Run.ret in Hrun.
  simpl in Hrun. injection Hrun as <- <-. split.
  - simpl. apply lookup_insert_eq.
  - unfold has_row. simpl. rewrite fetchone_update by reflexivity.
    unfold browsers.fetchone in Hrow. simpl in Hrow.
    unfold browsers.fetchone. rewrite Hrow. simpl. eauto.
Qed.

Lemma settled_refl (w : World) : settled bid w w.
Proof. unfold settled. auto. Qed.

Lemma settled_trans (w1 w2 w3 : World) :
  settled bid w1 w2 -> settled bid w2 w3 -> settled bid w1 w3.
Proof. unfold settled. intuition congruence. Qed.

Lemma settled_frame (w w' : World) : frame w w' -> settled bid w w'.
Proof.
  intros (Ht & _ & He & Hs). unfold settled, stored_last_interaction.
  rewrite Ht. auto.
Qed.

Lemma settled_status (s : string) (w : World) :
  settled bid w (with_table (browsers.update bid (browsers.with_status s)) w).
Proof.
  unfold settled, stored_last_interaction. simpl.
  rewrite fetchone_update by reflexivity.
  destruct (browsers.fetchone bid (table w)); auto.
Qed.

Lemma settled_active (f : gmap string BrowserInfo -> gmap string BrowserInfo)
    (w : World) : settled bid w (with_active f w).
Proof. unfold settled, stored_last_interaction. simpl. auto. Qed.

Ltac settled_steps :=
  repeat first
    [ apply stable_ret; exact settled_refl
    | apply stable_get; exact settled_refl
    | apply stable_driver_call; intros ?; apply settled_frame, frame_call
    | apply stable_modify; intros ?; apply settled_frame, frame_event; exact I
    | apply stable_modify; intros ?; apply settled_active
    | apply stable_modify; intros ?; apply settled_status
    | apply stable_bind; [exact settled_trans | | intros ?]
    | apply stable_try_except; [exact settled_trans | | intros ?] ].

Lemma settled_launch (use_proxy : bool) :
  stable (settled bid) (launch_browser env bid use_proxy).
Proof.
  unfold launch_browser, apply_fingerprint_overrides, update_browser_status.
  apply stable_bind; [exact settled_trans | | intros found].
  { apply stable_get; exact settled_refl. }
  apply stable_bind; [exact settled_trans | | intros command].
  { destruct found; [apply stable_ret | apply stable_raise]; exact settled_refl. }
  settled_steps.
Qed.

Lemma settled_close : stable (settled bid) (close_browser env bid).
Proof.
  unfold close_browser, update_browser_status, print.
  apply stable_bind; [exact settled_trans | | intros active].
  { apply stable_get; exact settled_refl. }
  destruct (active !! bid); settled_steps.
Qed.
End SessionFacts.

(** The third of five commands raises: its failure is reported, the
    fourth and the fifth command are entered, the time of the last
    interaction is written and no failed session is reported. *)
Example session_third_command_fails :
  let w := snd (run_session (failing_at 10) five_command_plan "fresh" idle_world) in
  List.filter (fun e => match e with
                        | Executing _ _ | CommandError _ | SessionError _ => true
                        | _ => false
                        end) (log w)
  = [ Executing "fresh" (navigate "https://example.org" None);
      Executing "fresh" (click "#accept" None);
      Executing "fresh" (fill "#query" "rocq");
      CommandError "fill";
      Executing "fresh" (scroll "down" 100);
      Executing "fresh" (click "#next" None) ]
  /\ stored_last_interaction "fresh" w = Some (Some "2024-06-01T12:00:00.000000")
  /\ stored_status "fresh" w = Some "inactive".
Proof. vm_compute. repeat split. Qed.

Lemma bind_returned {A B : Type} (m : Run A) (f : A -> Run B)
    (w w' : World) (a : A) :
  m w = (Returned a, w') -> Run.bind m f w = f a w'.
Proof. intros H. unfold Run.bind. now rewrite H. Qed.

Lemma draw_eq {A : Type} (m : Rand.M A) (w : World) :
  Run.draw m w = (Returned (fst (m (rng w))), with_rng (snd (m (rng w))) w).
Proof. unfold Run.draw. now destruct (m (rng w)). Qed.

Lemma close_browser_returns (env : Env) (bid : string) (w : World) :
  exists w', close_browser env bid w = (Returned tt, w').
Proof.
  unfold close_browser, Run.bind at 1, Run.get.
  destruct (active_browsers w !! bid); [|eexists; reflexivity].
  unfold Run.bind at 1.
  destruct (try_except_print_returns
              (driver_call env "context.close" ;;;
               driver_call env "browser.close" ;;;
               driver_call env "playwright.stop" ;;;
               Run.ret tt) (CloseError bid) w) as [w1 Hw1].
  rewrite Hw1. eexists. reflexivity.
Qed.

(** A session whose launch returns normally, step by step. *)
Lemma run_session_after_launch
    (env : Env) (generator : string -> Rand.M (list Command))
    (bid : string) (w w1 : World) (info : BrowserInfo) :
  launch_browser env bid false w = (Returned info, w1) ->
  exists w',
    run_session env generator bid w = (Returned tt, w')
    /\ executed (log w') = executed (log w) ++ fst (generator bid (rng w1))
    /\ session_errors (log w') = session_errors (log w)
    /\ exists k, stored_last_interaction bid w' = Some (Some (wall_clock env k)).
Proof.
  intros Hlaunch.
  destruct (launch_registers env bid false w info w1 I Hlaunch) as [Hact Hrow].
  pose proof (settled_launch env bid false w) as Hsl.
  rewrite Hlaunch in Hsl. destruct Hsl as (He1 & Hs1 & _). cbn [snd] in *.
  set (plan := fst (generator bid (rng w1))).
  set (w1' := with_rng (snd (generator bid (rng w1))) w1).
  destruct (plan_loop_returns env bid plan w1' info Hact)
    as (w2 & Hloop & Ht2 & Ha2 & He2 & Hs2).
  set (w3 := with_table
               (browsers.update bid
                  (browsers.with_last_interaction (wall_clock env (calls w2))))
               w2).
  destruct (close_browser_returns env bid w3) as [w4 Hw4].
  pose proof (settled_close env bid w3) as Hsc.
  rewrite Hw4 in Hsc. destruct Hsc as (He4 & Hs4 & Hl4). cbn [snd] in *.
  exists w4. split.
  { unfold run_session, Run.try_finally, Run.try_except.
    erewrite bind_returned by exact Hlaunch.
    erewrite bind_returned by apply draw_eq.
    erewrite bind_returned by exact Hloop.
    unfold update_browser_last_interaction, Run.modify. fold w3.
    now rewrite Hw4. }
  rewrite He4, Hs4, Hl4. subst w3 w1'. simpl in *.
  rewrite He2, Hs2, He1, Hs1.
  split; [reflexivity|]. split; [reflexivity|].
  exists (calls w2). unfold stored_last_interaction. simpl.
  rewrite fetchone_update by reflexivity.
  rewrite Ht2. destruct Hrow as [r Hr]. rewrite Hr. reflexivity.
Qed.

(** C3: once the browser is launched, the session enters every command
    of the plan, in plan order, whichever of them raise and whatever the
    plan is; the failures of single commands are swallowed: no failed
    session is reported and the time of the last interaction is
    written. *)
Theorem command_failures_do_not_stop_the_plan
    (env : Env) (generator : string -> Rand.M (list Command))
    (bid : string) (w w1 : World) (info : BrowserInfo) :
  launch_browser env bid false w = (Returned info, w1) ->
  let plan := fst (generator bid (rng w1)) in
  let outcome := fst (run_session env generator bid w) in
  let w' := snd (run_session env generator bid w) in
  outcome = Returned tt
  /\ executed (log w') = executed (log w) ++ plan
  /\ session_errors (log w') = session_errors (log w)
  /\ exists k, stored_last_interaction bid w' = Some (Some (wall_clock env k)).
Proof.
  intros Hlaunch plan outcome w'. subst plan outcome w'.
  destruct (run_session_after_launch env generator bid w w1 info Hlaunch)
    as (w' & -> & He & Hs & Hk).
  cbn [fst snd]. auto.
Qed.

(** An instance: the scenario of five commands of which the third
    raises. *)
Lemma command_failures_do_not_stop_the_plan_witness :
  executed (log (snd (run_session (failing_at 10) five_command_plan
                        "fresh" idle_world)))
  = five_commands.
Proof.
  eapply (command_failures_do_not_stop_the_plan
            (failing_at 10) five_command_plan "fresh" idle_world).
  vm_compute. reflexivity.
Defined.

(** ** The continuous loop *)

(** C4, as stated, fails for an interval of one minute: the back-off
    after an error and the normal wait are both sixty seconds. *)
Lemma backoff_not_shorter_for_one_minute :
  slept (pass 350 1 failed_turn) = 60
  /\ slept (pass 350 1 clean_turn) = 60
  /\ ~ (slept (pass 350 1 failed_turn) < slept (pass 350 1 clean_turn)).
Proof. vm_compute. repeat split; congruence. Qed.

Lemma while_running_continues (size interval : Z) (turns : list Turn) :
  Forall (fun turn => stop_requested turn = false) turns ->
  snd (while_running size interval true turns) = true
  /\ batches (fst (while_running size interval true turns)) = length turns.
Proof.
  induction 1 as [|turn turns Hturn _ IH]; [split; reflexivity|].
  cbn [while_running]. rewrite Hturn. cbn [negb].
  destruct (while_running size interval true turns) as [events still].
  cbn [fst snd] in *. destruct IH as [-> IH]. split; [reflexivity|].
  unfold batches in *. rewrite List.filter_app, length_app, IH.
  unfold pass. destruct (batch_raises turn); reflexivity.
Qed.

(** C4 (amended): when an error escapes a batch run the loop reports it
    and sleeps a fixed sixty seconds, which is strictly shorter than the
    normal wait whenever the configured interval is two minutes or more
    (five by default); and as long as no stop is requested the loop keeps
    running and starts one batch per pass, however many of the batch runs
    fail. *)
Theorem loop_backs_off_and_continues
    (batch_size interval_minutes : Z) (turns : list Turn) :
  (forall turn, batch_raises turn = true ->
     pass batch_size interval_minutes turn
     = [ BatchRun batch_size; LoopError; Sleeping 60 ])
  /\ (2 <= interval_minutes ->
      slept (pass batch_size interval_minutes failed_turn)
      < slept (pass batch_size interval_minutes clean_turn))
  /\ (Forall (fun turn => stop_requested turn = false) turns ->
      let (events, running) :=
        start_continuous_automation batch_size interval_minutes turns in
      running = true /\ batches events = length turns).
Proof.
  split; [|split].
  - intros turn H. unfold pass. now rewrite H.
  - intros H. unfold pass, slept. simpl. lia.
  - intros H. unfold start_continuous_automation.
    pose proof (while_running_continues batch_size interval_minutes turns H)
      as Hc.
    destruct (while_running batch_size interval_minutes true turns).
    exact Hc.
Qed.

(** An instance: the default interval of five minutes, and two failed
    batch runs followed by a clean one. *)
Lemma loop_backs_off_and_continues_witness :
  slept (pass 350 5 failed_turn) < slept (pass 350 5 clean_turn)
  /\ snd (start_continuous_automation 350 5
            [failed_turn; failed_turn; clean_turn]) = true.
Proof.
  pose proof (loop_backs_off_and_continues 350 5
                [failed_turn; failed_turn; clean_turn]) as (_ & H1 & H2).
  split.
  - apply H1. lia.
  - destruct (start_continuous_automation 350 5 _) as [events running].
    apply H2. repeat constructor.
Defined.

(** ** Import of proxies *)

(** C9 on the two import paths: [create_or_find_proxy] returns the row
    that is there and adds nothing, while [import_proxies_from_csv]
    inserts the same (host, port, username) a second time. *)
Theorem import_proxies_inserts_duplicate :
  endpoint_rows "192.168.1.100" 8080 "user1" one_proxy = 1%nat
  /\ create_or_find_proxy "192.168.1.100" 8080 "user1" "pass1" one_proxy
     = (1, one_proxy)
  /\ fst (import_proxies_from_csv [same_proxy_again] one_proxy) = [2]
  /\ endpoint_rows "192.168.1.100" 8080 "user1"
       (snd (import_proxies_from_csv [same_proxy_again] one_proxy)) = 2%nat.
Proof. vm_compute. repeat split. Qed.

(** The path through [create_or_find_proxy] never adds a row for an
    endpoint that the table already holds. *)
Lemma create_or_find_proxy_deduplicates (host : string) (port : Z)
    (username password : string) (t : proxies.table) :
  (0 < endpoint_rows host port username t)%nat ->
  snd (create_or_find_proxy host port username password t) = t.
Proof.
  unfold endpoint_rows, create_or_find_proxy. intros H.
  destruct (List.find _ (proxies.rows t)) as [r|] eqn:Hfind; [reflexivity|].
  exfalso.
  destruct (List.filter _ (proxies.rows t)) as [|r l] eqn:Hfilter;
    [simpl in H; lia|].
  assert (In r (List.filter (proxies.same_endpoint host port username)
                  (proxies.rows t))) as Hin by (rewrite Hfilter; now left).
  apply filter_In in Hin as [Hin Hr].
  pose proof (find_none _ _ Hfind r Hin). congruence.
Qed.

(** ** Groups of a batch *)

Lemma firstn_plus_skipn {A : Type} (a b : nat) (l : list A) :
  firstn (a + b) l = firstn a l ++ firstn b (skipn a l).
Proof.
  revert l. induction a as [|a IH]; intros l; [reflexivity|].
  destruct l as [|x l]; simpl.
  - now rewrite firstn_nil.
  - now rewrite IH.
Qed.

Lemma groups_cover_prefix (k : nat) (ids : list string) :
  concat (map (fun i => firstn group_size (skipn i ids))
            (map (fun k => k * group_size)%nat (seq 0 k)))
  = firstn (k * group_size) ids.
Proof.
  induction k as [|k IH]; [reflexivity|].
  rewrite seq_S, !map_app, concat_app, IH. cbn [map concat Nat.add].
  rewrite app_nil_r, <- firstn_plus_skipn. f_equal. unfold group_size. lia.
Qed.

Lemma group_length (ids : list string) (i : nat) :
  length (firstn group_size (skipn i ids))
  = Nat.min group_size (length ids - i).
Proof. now rewrite length_firstn, length_skipn. Qed.

Example batch_of_25 :
  map (@length string) (batch_groups (repeat "id" 25)) = [10; 10; 5]%nat.
Proof. reflexivity. Qed.

(** The groups of [run_browser_batch] cut the batch into consecutive
    pieces: put together again they are the batch, there are
    ceil(n / 10) of them, none is empty or longer than ten, and every
    group but the last holds exactly ten identities. *)
Theorem batch_groups_partition (ids : list string) :
  concat (batch_groups ids) = ids
  /\ length (batch_groups ids) = ((length ids + 9) / 10)%nat
  /\ Forall (fun g => (1 <= length g <= 10)%nat) (batch_groups ids)
  /\ forall k g,
       nth_error (batch_groups ids) k = Some g ->
       (S k < length (batch_groups ids))%nat ->
       length g = 10%nat.
Proof.
  unfold batch_groups, group_starts.
  split; [|split; [|split]].
  - rewrite groups_cover_prefix. apply firstn_all2.
    unfold group_size.
    pose proof (Nat.div_mod_eq (length ids + 10 - 1) 10).
    pose proof (Nat.mod_upper_bound (length ids + 10 - 1) 10). lia.
  - rewrite !length_map, length_seq. unfold group_size. f_equal. lia.
  - apply List.Forall_forall. intros g Hg.
    apply in_map_iff in Hg as (i & <- & Hi).
    apply in_map_iff in Hi as (k & <- & Hk). apply in_seq in Hk.
    rewrite group_length. unfold group_size in *.
    pose proof (Nat.div_mod_eq (length ids + 10 - 1) 10).
    pose proof (Nat.mod_upper_bound (length ids + 10 - 1) 10). lia.
  - intros k g Hg Hk. rewrite !length_map, length_seq in Hk.
    rewrite nth_error_map in Hg.
    destruct (nth_error (map _ (seq 0 _)) k) as [i|] eqn:Hi; [|discriminate].
    injection Hg as <-. rewrite nth_error_map in Hi.
    destruct (nth_error (seq 0 _) k) as [k'|] eqn:Hk'; [|discriminate].
    injection Hi as <-.
    apply nth_error_In in Hk' as Hin. apply in_seq in Hin.
    assert (k' = k) as ->.
    { pose proof (nth_error_nth _ _ 0%nat Hk') as Hn.
      rewrite seq_nth in Hn by lia. lia. }
    rewrite group_length. unfold group_size in *.
    pose proof (Nat.div_mod_eq (length ids + 10 - 1) 10).
    pose proof (Nat.mod_upper_bound (length ids + 10 - 1) 10). lia.
Qed.

(** ** Sessions and the other identities *)

(** Whatever is kept by the elementary steps on the world of one
    identity is kept by its whole session. *)
Section SessionSteps.
Context (env : Env) (bid : string) (R : World -> World -> Prop).
Context (R_refl : forall w, R w w).
Context (R_trans : forall w1 w2 w3, R w1 w2 -> R w2 w3 -> R w1 w3).
Context (R_event : forall e w, R w (with_event e w)).
Context (R_call : forall w, R w (with_call w)).
Context (R_rng : forall t w, R w (with_rng t w)).
Context (R_register : forall info w, R w (with_active (insert bid info) w)).
Context (R_unregister : forall w, R w (with_active (delete bid) w)).
Context (R_update :
  forall f w, (forall r, browsers.browser_id (f r) = browsers.browser_id r) ->
              R w (with_table (browsers.update bid f) w)).

Lemma every_call (what : string) : stable R (driver_call env what).
Proof.
  apply stable_driver_call. intros w.
  eapply R_trans; [apply R_call | apply R_event].
Qed.

Local Ltac every_step :=
  repeat first
    [ apply stable_ret; exact R_refl
    | apply stable_raise; exact R_refl
    | apply stable_get; exact R_refl
    | apply every_call
    | apply stable_modify; intros ?; apply R_event
    | apply stable_modify; intros ?; apply R_register
    | apply stable_modify; intros ?; apply R_unregister
    | apply stable_modify; intros ?; apply R_update; reflexivity
    | apply stable_draw; exact R_rng
    | apply stable_bind; [exact R_trans | | intros ?]
    | apply stable_try_except; [exact R_trans | | intros ?] ].

Lemma every_launch (use_proxy : bool) :
  stable R (launch_browser env bid use_proxy).
Proof.
  unfold launch_browser, apply_fingerprint_overrides, update_browser_status.
  apply stable_bind; [exact R_trans | | intros found].
  { apply stable_get; exact R_refl. }
  apply stable_bind; [exact R_trans | | intros command].
  { destruct found; every_step. }
  every_step.
Qed.

Lemma every_dispatch (c : Command) : stable R (dispatch env bid c).
Proof.
  destruct c as [url [w|] | sel v | sel [i|] | d | | dir am | act descr];
    unfold dispatch, execute_custom_action, process_emails, sleep, print.
  all: try (destruct (String.eqb _ _); [|try destruct (String.eqb _ _)]).
  all: try (every_step; fail).
  apply stable_bind; [exact R_trans | apply every_call | intros n].
  destruct (_ && _); [destruct (_ <? _)|]; every_step.
Qed.

Lemma every_execute (c : Command) : stable R (execute_command env bid c).
Proof.
  unfold execute_command, print.
  apply stable_bind; [exact R_trans | | intros active].
  { apply stable_get; exact R_refl. }
  apply stable_bind; [exact R_trans | | intros _].
  { destruct (active !! bid).
    - apply stable_ret; exact R_refl.
    - apply stable_bind; [exact R_trans | apply every_launch | intros _].
      apply stable_ret; exact R_refl. }
  apply stable_try_except; [exact R_trans | | intros ?].
  - apply stable_bind; [exact R_trans | | intros _].
    + apply stable_modify; intros ?; apply R_event.
    + apply every_dispatch.
  - apply stable_modify; intros ?; apply R_event.
Qed.

Lemma every_close : stable R (close_browser env bid).
Proof.
  unfold close_browser, update_browser_status, print.
  apply stable_bind; [exact R_trans | | intros active].
  { apply stable_get; exact R_refl. }
  destruct (active !! bid); every_step.
Qed.

Lemma every_session (generator : string -> Rand.M (list Command)) :
  stable R (run_session env generator bid).
Proof.
  unfold run_session, update_browser_last_interaction, sleep, print.
  intros w. unfold Run.try_finally.
  assert (Hbody : stable R
            (Run.try_except
               (launch_browser env bid false ;;;
                commands <-- Run.draw (generator bid) ;;;
                Run.for_each commands
                  (fun command =>
                     execute_command env bid command ;;;
                     Run.draw (random.uniform 1 3) ;;;
                     Run.modify (with_event Slept)) ;;;
                Run.modify
                  (fun w =>
                     with_table
                       (browsers.update bid
                          (browsers.with_last_interaction
                             (wall_clock env (calls w)))) w))
               (fun _ => Run.modify (with_event (SessionError bid))))).
  { apply stable_try_except; [exact R_trans | | intros ?].
    2: { apply stable_modify; intros ?; apply R_event. }
    apply stable_bind; [exact R_trans | apply every_launch | intros _].
    apply stable_bind; [exact R_trans | | intros commands].
    { apply stable_draw; exact R_rng. }
    apply stable_bind; [exact R_trans | | intros _].
    - apply stable_for_each; [exact R_refl | exact R_trans |].
      intros c.
      apply stable_bind; [exact R_trans | apply every_execute | intros _].
      apply stable_bind; [exact R_trans | | intros _].
      + apply stable_draw; exact R_rng.
      + apply stable_modify; intros ?; apply R_event.
    - apply stable_modify. intros w0. apply R_update. reflexivity. }
  specialize (Hbody w).
  destruct (Run.try_except _ _ w) as [outcome w1]. cbn [snd] in Hbody.
  pose proof (every_close w1) as Hclose.
  destruct (close_browser env bid w1) as [[[]|e] w2]; cbn [snd] in *;
    eapply R_trans; eassumption.
Qed.
End SessionSteps.

Lemma other_rows_update (bid : string) (f : browsers.row -> browsers.row)
    (rows : list browsers.row) :
  (forall r, browsers.browser_id (f r) = browsers.browser_id r) ->
  other_rows bid (browsers.update bid f rows) = other_rows bid rows.
Proof.
  intros Hf. unfold other_rows, browsers.update.
  induction rows as [|r rows IH]; [reflexivity|]. cbn [map List.filter].
  destruct (String.eqb (browsers.browser_id r) bid) eqn:Heq.
  - rewrite Hf, Heq. exact IH.
  - rewrite Heq. cbn [negb]. now rewrite IH.
Qed.

Lemma isolated_refl (bid : string) (w : World) : isolated bid w w.
Proof. unfold isolated. auto. Qed.

Lemma isolated_trans (bid : string) (w1 w2 w3 : World) :
  isolated bid w1 w2 -> isolated bid w2 w3 -> isolated bid w1 w3.
Proof.
  intros [Hr1 Ha1] [Hr2 Ha2]. split; [congruence|].
  intros other Ho. rewrite Ha2, Ha1; auto.
Qed.

(** A session of one identity leaves every other identity alone: the
    rows of the others are what they were, in the same order, and so are
    their entries in [active_browsers], whatever the driver does. *)
Theorem session_touches_one_identity (env : Env) (bid : string) (w : World) :
  let w' := snd (run_single_browser_session env bid w) in
  other_rows bid (table w') = other_rows bid (table w)
  /\ forall other, other <> bid ->
       active_browsers w' !! other = active_browsers w !! other.
Proof.
  apply (every_session env bid (isolated bid)).
  - apply isolated_refl.
  - apply isolated_trans.
  - intros e w0. split; [reflexivity | intros; reflexivity].
  - intros w0. split; [reflexivity | intros; reflexivity].
  - intros t w0. split; [reflexivity | intros; reflexivity].
  - intros info w0. split; [reflexivity|]. intros other Ho. simpl.
    now rewrite lookup_insert_ne.
  - intros w0. split; [reflexivity|]. intros other Ho. simpl.
    now rewrite lookup_delete_ne.
  - intros f w0 Hf. split; [|reflexivity]. simpl.
    now apply other_rows_update.
Qed.

(** ** Launching and closing *)

Lemma bind_raised {A B : Type} (m : Run A) (f : A -> Run B)
    (w w' : World) (e : string) :
  m w = (Raised e, w') -> Run.bind m f w = (Raised e, w').
Proof. intros H. unfold Run.bind. now rewrite H. Qed.

Lemma close_browser_unregistered (env : Env) (bid : string) (w : World) :
  active_browsers w !! bid = None ->
  close_browser env bid w = (Returned tt, w).
Proof.
  intros Hact. unfold close_browser, Run.bind at 1, Run.get.
  now rewrite Hact.
Qed.

Lemma close_browser_registered (env : Env) (bid : string) (w : World) :
  active_browsers w !! bid <> None ->
  exists w1,
    frame w w1
    /\ close_browser env bid w
       = (Returned tt,
          with_table (browsers.update bid (browsers.with_status "inactive"))
            (with_active (delete bid) w1)).
Proof.
  intros Hact. unfold close_browser, Run.bind at 1, Run.get.
  destruct (active_browsers w !! bid) as [info|]; [|now elim Hact].
  assert (stable frame
            (Run.try_except
               (driver_call env "context.close" ;;;
                driver_call env "browser.close" ;;;
                driver_call env "playwright.stop" ;;;
                Run.ret tt)
               (fun _ => print (CloseError bid)))) as Hframe.
  { unfold print. frame_steps. }
  specialize (Hframe w).
  destruct (try_except_print_returns
              (driver_call env "context.close" ;;;
               driver_call env "browser.close" ;;;
               driver_call env "playwright.stop" ;;;
               Run.ret tt) (CloseError bid) w) as [w1 Hw1].
  rewrite Hw1 in Hframe. cbn [snd] in Hframe.
  exists w1. split; [exact Hframe|].
  erewrite bind_returned by exact Hw1.
  unfold Run.bind, Run.modify, update_browser_status. reflexivity.
Qed.

(** [close_browser] always returns normally and leaves the identity
    without entry in [active_browsers].  When there was no entry it does
    nothing at all; when there was one, the stored status is set to
    'inactive' even if the driver's close calls raise. *)
Theorem close_browser_releases (env : Env) (bid : string) (w : World) :
  exists w',
    close_browser env bid w = (Returned tt, w')
    /\ active_browsers w' !! bid = None
    /\ (active_browsers w !! bid = None -> w' = w)
    /\ (forall s, active_browsers w !! bid <> None ->
                  stored_status bid w = Some s ->
                  stored_status bid w' = Some "inactive").
Proof.
  destruct (active_browsers w !! bid) as [info|] eqn:Hact.
  - destruct (close_browser_registered env bid w) as (w1 & Hframe & Hrun);
      [congruence|].
    destruct Hframe as (Ht & _).
    eexists. split; [exact Hrun|]. split; [|split].
    + cbn. apply lookup_delete_eq.
    + discriminate.
    + intros s _ Hs. rewrite stored_status_set.
      assert (stored_status bid (with_active (delete bid) w1)
              = stored_status bid w) as ->
        by (unfold stored_status; cbn [table with_active]; now rewrite Ht).
      now rewrite Hs.
  - exists w. split; [now apply close_browser_unregistered|].
    repeat split; auto. congruence.
Qed.

(** An instance: a registered browser whose close calls all raise. *)
Lemma close_browser_releases_witness :
  let env := {| driver := fun _ => {| raises := true; found := 0 |};
                wall_clock := fun _ => "2024-06-01T12:00:00.000000" |} in
  let w := with_active
             (insert "stale" {| page := 0; info_browser_id := "stale";
                                launched_at := "2024-06-01T11:00:00" |})
             idle_world in
  exists w',
    close_browser env "stale" w = (Returned tt, w')
    /\ stored_status "stale" w' = Some "inactive".
Proof.
  intros env w.
  destruct (close_browser_releases env "stale" w) as (w' & Hrun & _ & _ & H).
  exists w'. split; [exact Hrun|].
  apply (H "inactive"); [vm_compute; discriminate | reflexivity].
Defined.

(** After a session the identity has no entry in [active_browsers],
    however the session went. *)
Theorem session_releases_registry (env : Env) (bid : string) (w : World) :
  active_browsers (snd (run_single_browser_session env bid w)) !! bid = None.
Proof.
  unfold run_single_browser_session, run_session, Run.try_finally.
  destruct (Run.try_except _ _ w) as [outcome w1].
  destruct (active_browsers w1 !! bid) as [info|] eqn:Hact.
  - destruct (close_browser_registered env bid w1) as (w2 & _ & Hrun);
      [congruence|].
    rewrite Hrun. cbn. apply lookup_delete_eq.
  - now rewrite (close_browser_unregistered env bid w1 Hact).
Qed.

(** A session whose launch fails reports the failed session, enters no
    command and does not write the time of the last interaction. *)
Theorem failed_launch_is_reported
    (env : Env) (bid : string) (w w1 : World) (e : string) :
  launch_browser env bid false w = (Raised e, w1) ->
  let outcome := fst (run_single_browser_session env bid w) in
  let w' := snd (run_single_browser_session env bid w) in
  outcome = Returned tt
  /\ executed (log w') = executed (log w)
  /\ session_errors (log w') = session_errors (log w) ++ [bid]
  /\ stored_last_interaction bid w' = stored_last_interaction bid w.
Proof.
  intros Hlaunch outcome w'. subst outcome w'.
  pose proof (settled_launch env bid false w) as Hsl.
  rewrite Hlaunch in Hsl. destruct Hsl as (He1 & Hs1 & Hl1). cbn [snd] in *.
  set (w2 := with_event (SessionError bid) w1).
  destruct (close_browser_returns env bid w2) as [w3 Hw3].
  pose proof (settled_close env bid w2) as Hsc.
  rewrite Hw3 in Hsc. destruct Hsc as (He3 & Hs3 & Hl3). cbn [snd] in *.
  assert (run_single_browser_session env bid w = (Returned tt, w3)) as ->.
  { unfold run_single_browser_session, run_session, Run.try_finally,
      Run.try_except.
    erewrite bind_raised by exact Hlaunch.
    unfold print, Run.modify. fold w2. now rewrite Hw3. }
  cbn [fst snd]. rewrite He3, Hs3, Hl3. subst w2. cbn.
  rewrite executed_app, session_errors_app, He1, Hs1. cbn.
  rewrite app_nil_r. unfold stored_last_interaction in *. cbn. auto.
Qed.

(** An instance: the driver fails at the second call of the launch. *)
Lemma failed_launch_is_reported_witness :
  session_errors
    (log (snd (run_single_browser_session (failing_at 1) "fresh" idle_world)))
  = ["fresh"].
Proof.
  eapply (failed_launch_is_reported (failing_at 1) "fresh" idle_world).
  vm_compute. reflexivity.
Defined.

Lemma update_unknown (bid : string) (f : browsers.row -> browsers.row)
    (rows : list browsers.row) :
  browsers.fetchone bid rows = None -> browsers.update bid f rows = rows.
Proof.
  unfold browsers.fetchone, browsers.update.
  induction rows as [|r rows IH]; [reflexivity|]. cbn.
  destruct (String.eqb (browsers.browser_id r) bid); [discriminate|].
  intros H. now rewrite IH.
Qed.

(** For an identity that is not in the store, [launch_browser] raises
    before any driver call, and a whole session only reports the failed
    session: no driver call, no change of the store. *)
Theorem unknown_browser_is_reported (env : Env) (bid : string) (w : World) :
  browsers.fetchone bid (table w) = None ->
  (forall use_proxy,
     launch_browser env bid use_proxy w
     = (Raised (String.append "Browser " (String.append bid " not found")), w))
  /\ (active_browsers w !! bid = None ->
      run_single_browser_session env bid w
      = (Returned tt, with_event (SessionError bid) w)).
Proof.
  intros Hrow.
  assert (Hlaunch : forall use_proxy,
            launch_browser env bid use_proxy w
            = (Raised (String.append "Browser "
                         (String.append bid " not found")), w)).
  { intros use_proxy. unfold launch_browser, Run.bind at 1, Run.get.
    unfold generate_launch_command. rewrite Hrow. reflexivity. }
  split; [exact Hlaunch|]. intros Hact.
  unfold run_single_browser_session, run_session, Run.try_finally,
    Run.try_except.
  erewrite bind_raised by apply Hlaunch.
  unfold print, Run.modify, close_browser, Run.bind, Run.get. cbn.
  now rewrite Hact.
Qed.

(** An instance: an identity that is not among the three of the store. *)
Lemma unknown_browser_is_reported_witness :
  run_single_browser_session calm "nobody" idle_world
  = (Returned tt, with_event (SessionError "nobody") idle_world).
Proof.
  apply (unknown_browser_is_reported calm "nobody" idle_world); reflexivity.
Defined.

Lemma update_marks_running (bid : string) (rows : list browsers.row) :
  Forall (fun r => browsers.browser_id r = bid ->
                   browsers.status r = "running")
    (browsers.update bid (browsers.with_status "running") rows).
Proof.
  unfold browsers.update. apply List.Forall_forall. intros r Hr.
  apply in_map_iff in Hr as (r0 & <- & _).
  destruct (String.eqb (browsers.browser_id r0) bid) eqn:Heq.
  - reflexivity.
  - apply String.eqb_neq in Heq. congruence.
Qed.

Lemma launch_marks_running (env : Env) (bid : string) (use_proxy : bool) :
  returns_with (fun _ => True) (launch_browser env bid use_proxy)
    (fun _ w => all_running bid w).
Proof.
  unfold launch_browser.
  do 9 (apply returns_bind with (Q1 := fun _ _ => True);
        [intros ? ? ? _ _; exact I | intros ?]).
  intros w info w' _ Hrun.
  unfold Run.bind, Run.modify, update_browser_status, Run.ret in Hrun.
  cbn in Hrun. injection Hrun as <- <-.
  unfold all_running. cbn. apply update_marks_running.
Qed.

(** When [launch_browser] returns, the identity is registered in
    [active_browsers], its stored status is 'running', and no batch
    selected from the store holds it: a running identity is not selected a
    second time. *)
Theorem launched_browser_is_running
    (env : Env) (bid : string) (use_proxy : bool) (w w1 : World)
    (info : BrowserInfo) :
  launch_browser env bid use_proxy w = (Returned info, w1) ->
  active_browsers w1 !! bid = Some info
  /\ stored_status bid w1 = Some "running"
  /\ forall clock limit interval batch,
       schedule_browser_batch clock (table w1) limit interval = Some batch ->
       ~ In bid (browser_ids batch).
Proof.
  intros Hlaunch.
  destruct (launch_registers env bid use_proxy w info w1 I Hlaunch)
    as [Hact [r Hrow]].
  pose proof (launch_marks_running env bid use_proxy w info w1 I Hlaunch)
    as Hall.
  unfold all_running in Hall. rewrite List.Forall_forall in Hall.
  split; [exact Hact|]. split.
  - unfold stored_status. rewrite Hrow. cbn. f_equal.
    unfold browsers.fetchone in Hrow. apply find_some in Hrow as [Hin Heq].
    apply Hall; [exact Hin | now apply String.eqb_eq].
  - intros clock limit interval batch Hbatch Hin.
    unfold schedule_browser_batch, select_due in Hbatch.
    destruct (sqlite_integer limit); [|discriminate].
    destruct (later clock interval); [|discriminate].
    injection Hbatch as <-. cbn in Hin.
    apply in_map_iff in Hin as (r0 & Hid & Hr0).
    apply limit_In, order_by_In, filter_In in Hr0 as [Hr0 Hdue].
    apply due_spec in Hdue as [_ Hstatus].
    apply Hstatus, Hall; assumption.
Qed.

(** An instance: a launch during which no driver call raises. *)
Lemma launched_browser_is_running_witness :
  exists w1,
    stored_status "fresh" w1 = Some "running"
    /\ option_map browser_ids
         (schedule_browser_batch noon (table w1) 350 5) = Some ["stale"].
Proof.
  destruct (launch_browser calm "fresh" false idle_world) as [[info|e] w1] eqn:H;
    [|vm_compute in H; discriminate].
  exists w1. split.
  - apply (launched_browser_is_running calm "fresh" false idle_world w1 info H).
  - vm_compute in H. injection H as _ <-. reflexivity.
Defined.

(** [execute_command] for an identity without entry in
    [active_browsers] launches the browser first.  When that launch fails
    the error escapes from [execute_command] and the command is not
    entered; when it succeeds the command is entered and the call returns
    normally. *)
Theorem execute_command_launches_first
    (env : Env) (bid : string) (c : Command) (w : World) :
  active_browsers w !! bid = None ->
  (forall e w1,
     launch_browser env bid false w = (Raised e, w1) ->
     execute_command env bid c w = (Raised e, w1))
  /\ (forall info w1,
        launch_browser env bid false w = (Returned info, w1) ->
        exists w',
          execute_command env bid c w = (Returned tt, w')
          /\ executed (log w') = executed (log w) ++ [c]
          /\ active_browsers w' !! bid = Some info).
Proof.
  intros Hact. split.
  - intros e w1 Hlaunch.
    unfold execute_command, Run.bind at 1 2, Run.get. rewrite Hact.
    now erewrite bind_raised by exact Hlaunch.
  - intros info w1 Hlaunch.
    destruct (launch_registers env bid false w info w1 I Hlaunch)
      as [Hact1 _].
    pose proof (settled_launch env bid false w) as Hsl.
    rewrite Hlaunch in Hsl. destruct Hsl as (He1 & _). cbn [snd] in He1.
    destruct (execute_command_returns env bid c w1 info Hact1)
      as (w' & Hrun & _ & Ha & He & _).
    exists w'. split; [|split].
    + rewrite <- Hrun.
      unfold execute_command, Run.bind at 1 2 5 6, Run.get.
      rewrite Hact, Hact1.
      erewrite (bind_returned (launch_browser env bid false)) by exact Hlaunch.
      reflexivity.
    + now rewrite He, He1.
    + now rewrite Ha.
Qed.

(** An instance: no session is open and the launch fails at once. *)
Lemma execute_command_launches_first_witness :
  exists e w1,
    execute_command (failing_at 0) "fresh" wait_for_navigation idle_world
    = (Raised e, w1)
    /\ executed (log w1) = [].
Proof.
  destruct (launch_browser (failing_at 0) "fresh" false idle_world)
    as [[info|e] w1] eqn:H; [vm_compute in H; discriminate|].
  exists e, w1. split.
  - apply (execute_command_launches_first (failing_at 0) "fresh"
             wait_for_navigation idle_world); [reflexivity | exact H].
  - vm_compute in H. injection H as _ <-. reflexivity.
Defined.

(** [generate_launch_command] raises in two cases and in no other: for
    an identity that is not in the store (ValueError), and for a stored
    identity with a proxy id other than 0 when the proxy is asked for and
    the store has no proxies table (OperationalError), as in a store made
    by [BrowserManager] alone.  The command it returns carries the stored
    fingerprint, and it carries a proxy exactly when the proxy was asked
    for, the identity has a proxy id other than 0 and the proxies table
    holds that id; a proxy id without row is passed over silently. *)
Theorem launch_command_of_stored_browser
    (rows : list browsers.row) (pxs : option proxies.table) (bid : string)
    (headless use_proxy : bool) :
  (forall e,
     generate_launch_command rows pxs bid headless use_proxy = Raised e <->
     (browsers.fetchone bid rows = None
      /\ e = String.append "Browser " (String.append bid " not found"))
     \/ (pxs = None /\ use_proxy = true
         /\ e = "no such table: proxies"
         /\ exists browser pid,
              browsers.fetchone bid rows = Some browser
              /\ browsers.proxy_id browser = Some pid /\ pid <> 0))
  /\ forall c,
       generate_launch_command rows pxs bid headless use_proxy = Returned c ->
       exists browser,
         browsers.fetchone bid rows = Some browser
         /\ lc_browser_id c = bid
         /\ lc_headless c = headless
         /\ lc_fingerprint c = browsers.fingerprint browser
         /\ (lc_proxy c <> None <->
             use_proxy = true
             /\ exists pid stored,
                  browsers.proxy_id browser = Some pid
                  /\ pid <> 0
                  /\ pxs = Some stored
                  /\ proxies.by_id pid stored <> None).
Proof.
  unfold generate_launch_command.
  destruct (browsers.fetchone bid rows) as [browser|].
  2: { split; [|discriminate]. intros e. split.
       - intros [= <-]. left. auto.
       - intros [[_ ->]|(_ & _ & _ & b & pid & Hb & _)];
           [reflexivity | discriminate]. }
  destruct (browsers.proxy_id browser) as [pid|] eqn:Hpid.
  2: { split.
       - intros e. split; [discriminate|].
         intros [[H _]|(_ & _ & _ & b & p & Hb & Hp & _)]; congruence.
       - intros c [= <-]. exists browser. cbn.
         repeat (split; [reflexivity|]).
         split; [congruence|]. intros (_ & p & st & Hp & _).
         congruence. }
  destruct use_proxy; cbn [andb].
  2: { split.
       - intros e. split; [discriminate|].
         intros [[H _]|(_ & H & _)]; discriminate.
       - intros c [= <-]. exists browser. cbn.
         repeat (split; [reflexivity|]).
         split; [congruence|]. intros [H _]. discriminate. }
  destruct (Z.eqb_spec pid 0) as [->|Hne]; cbn [negb].
  { split.
    - intros e. split; [discriminate|].
      intros [[H _]|(_ & _ & _ & b & p & Hb & Hp & Hz)];
        [discriminate|]. congruence.
    - intros c [= <-]. exists browser. cbn.
      repeat (split; [reflexivity|]).
      split; [congruence|]. intros (_ & p & st & Hp & Hz & _).
      congruence. }
  destruct pxs as [stored|].
  - split.
    + intros e. split.
      * destruct (proxies.by_id pid stored); discriminate.
      * intros [[H _]|(H & _)]; discriminate.
    + intros c Hc. exists browser.
      destruct (proxies.by_id pid stored) as [p|] eqn:Hp;
        injection Hc as <-; cbn; repeat (split; [reflexivity|]).
      * split; [|discriminate]. intros _. split; [reflexivity|].
        exists pid, stored. rewrite Hp. repeat split; congruence.
      * split; [congruence|].
        intros (_ & pid' & st & Hp' & _ & Hst & H).
        congruence.
  - split; [|discriminate]. intros e. split.
    + intros [= <-]. right. repeat split. exists browser, pid. auto.
    + intros [[H _]|(_ & _ & -> & _)]; [discriminate | reflexivity].
Qed.

(** An instance: the identity names proxy 7 and the proxy is asked for;
    in a store without proxies table the call raises, and with an empty
    proxies table the launch command comes without proxy. *)
Lemma launch_command_of_stored_browser_witness :
  generate_launch_command [browser_with_proxy 7] None "proxied" false true
  = Raised "no such table: proxies"
  /\ exists c,
       generate_launch_command [browser_with_proxy 7]
         (Some {| proxies.rows := []; proxies.last_id := 0 |})
         "proxied" false true
       = Returned c
       /\ lc_fingerprint c = sample_fingerprint
       /\ lc_proxy c = None.
Proof.
  split.
  - apply (launch_command_of_stored_browser [browser_with_proxy 7] None
             "proxied" false true).
    right. repeat split. exists (browser_with_proxy 7), 7.
    repeat split. discriminate.
  - eexists. split; [reflexivity|].
    edestruct (launch_command_of_stored_browser [browser_with_proxy 7]
                 (Some {| proxies.rows := []; proxies.last_id := 0 |})
                 "proxied" false true) as (_ & H).
    edestruct H as (browser & Hrow & _ & _ & Hfp & _); [reflexivity|].
    injection Hrow as <-. split; [exact Hfp | reflexivity].
Defined.

(** ** Contents of a fingerprint *)

(** Rounding moves an integer by at most half of the spacing, which
    stays below the factor [n]: the rounded product is an index. *)
Lemma binary64_product_bound (r n : N) :
  (r < 2 ^ 53)%N -> (0 < n)%N ->
  (random.binary64 (r * n) / 2 ^ 53 < n)%N.
Proof.
  intros Hr Hn. apply N.Div0.div_lt_upper_bound.
  unfold random.binary64.
  destruct (N.ltb_spec (r * n) (2 ^ 53)) as [Hsmall|Hlarge]; [nia|].
  set (m := (r * n)%N) in *.
  assert (Hm : (m <= n * 2 ^ 53 - n)%N) by (unfold m; nia).
  pose proof (N.log2_spec m ltac:(lia)) as [Hlow _].
  assert (Hlog : (53 <= N.log2 m)%N).
  { apply N.log2_le_pow2; lia. }
  set (e := (N.log2 m - 52)%N).
  assert (He : N.log2 m = (e - 1 + 53)%N) by (unfold e; lia).
  assert (Hpos : (0 < 2 ^ (e - 1))%N) by (apply N.neq_0_lt_0, N.pow_nonzero; lia).
  assert (Hspace : (2 ^ e = 2 * 2 ^ (e - 1))%N).
  { replace e with (N.succ (e - 1)) at 1 by (unfold e; lia).
    now rewrite N.pow_succ_r'. }
  assert (Hhalf : (2 ^ (e - 1) * 2 ^ 53 <= m)%N).
  { rewrite <- N.pow_add_r, <- He. exact Hlow. }
  pose proof (N.Div0.div_mod m (2 ^ e)) as Hdiv.
  pose proof (N.mod_lt m (2 ^ e) ltac:(lia)) as Hrest.
  revert Hdiv Hrest. generalize (m / 2 ^ e)%N (m mod 2 ^ e)%N.
  intros q rest Hdiv Hrest.
  assert (Hn' : (2 ^ (e - 1) < n)%N) by nia.
  destruct (_ || _) eqn:Hup.
  - apply orb_true_iff in Hup as [Hup|Hup].
    + apply N.ltb_lt in Hup. nia.
    + apply andb_true_iff in Hup as [Hup _]. apply N.eqb_eq in Hup. nia.
  - nia.
Qed.

Lemma choices_spec {A : Type} (d : A) (population : list A) (k : nat)
    (t : Rand.tape) :
  population <> [] ->
  length (fst (random.choices d population k t)) = k
  /\ Forall (fun x => In x population) (fst (random.choices d population k t)).
Proof.
  intros Hne. revert t. induction k as [|k IH]; intros t.
  - split; [reflexivity | constructor].
  - cbn [random.choices]. unfold Rand.bind. rewrite random_eq.
    cbv beta iota. specialize (IH (tl t)).
    destruct (random.choices d population k (tl t)) as [rest t'].
    cbn [fst snd Rand.ret] in *. destruct IH as [Hlen Hall].
    split; [cbn; now rewrite Hlen|].
    constructor; [|exact Hall].
    apply nth_In.
    assert (peek 0 t mod 2 ^ 53 < 2 ^ 53)%N as Hr
      by (apply N.mod_lt; discriminate).
    pose proof (binary64_product_bound (peek 0 t mod 2 ^ 53)
                  (N.of_nat (length population)) Hr) as Hbound.
    destruct population; [congruence|]. cbn [length] in *.
    specialize (Hbound ltac:(lia)). lia.
Qed.

Lemma overwrite_length {A : Type} (j : nat) (x : A) (pool : list A) :
  length (random.overwrite j x pool) = length pool.
Proof.
  revert j. induction pool as [|y pool IH]; intros [|j]; cbn; auto.
Qed.

Lemma firstn_snoc_nth {A : Type} (d : A) (m : nat) (p : list A) :
  (m < length p)%nat -> firstn (S m) p = firstn m p ++ [nth m p d].
Proof.
  revert p. induction m as [|m IH]; intros [|x p] H; cbn in *; try lia.
  - reflexivity.
  - f_equal. apply IH. lia.
Qed.

(** One step of the pool routine takes one element out of the live part
    of the pool. *)
Lemma sample_step_perm {A : Type} (d : A) (j n : nat) (pool : list A) :
  (j < n)%nat -> (n <= length pool)%nat ->
  Permutation (firstn n pool)
    (nth j pool d
     :: firstn (n - 1) (random.overwrite j (nth (n - 1) pool d) pool)).
Proof.
  revert n pool. induction j as [|j IH]; intros n pool Hj Hn.
  - destruct pool as [|x p]; [cbn in Hn; lia|].
    destruct n as [|[|m]]; [lia | reflexivity |].
    cbn [nth random.overwrite]. replace (S (S m) - 1)%nat with (S m) by lia.
    cbn [nth firstn]. cbn in Hn.
    rewrite (firstn_snoc_nth d m p) by lia.
    apply perm_skip. symmetry. apply Permutation_cons_append.
  - destruct pool as [|x p]; [cbn in Hn; lia|].
    destruct n as [|[|m]]; [lia | lia |].
    cbn in Hn. replace (S (S m) - 1)%nat with (S m) by lia.
    cbn [nth random.overwrite firstn].
    specialize (IH (S m) p ltac:(lia) ltac:(lia)).
    replace (S m - 1)%nat with m in IH by lia.
    rewrite perm_swap. apply perm_skip. exact IH.
Qed.

Lemma sample_pool_spec {A : Type} (d : A) (k : nat) :
  forall (pool : list A) (n : nat) (t : Rand.tape),
    (k <= n)%nat -> (n <= length pool)%nat -> List.NoDup (firstn n pool) ->
    length (fst (random.sample_pool d pool n k t)) = k
    /\ List.NoDup (fst (random.sample_pool d pool n k t))
    /\ incl (fst (random.sample_pool d pool n k t)) (firstn n pool).
Proof.
  induction k as [|k IH]; intros pool n t Hk Hn Hnd.
  - cbn. repeat split; [constructor | intros x []].
  - cbn [random.sample_pool]. unfold Rand.bind. rewrite randbelow_eq.
    cbv beta iota.
    assert (N.to_nat (peek 0 t mod N.of_nat n) < n)%nat as Hj.
    { pose proof (N.mod_lt (peek 0 t) (N.of_nat n)). lia. }
    revert Hj. generalize (N.to_nat (peek 0 t mod N.of_nat n)). intros j Hj.
    pose proof (sample_step_perm d j n pool Hj Hn) as Hperm.
    set (pool' := random.overwrite j (nth (n - 1) pool d) pool) in *.
    pose proof (Permutation_NoDup Hperm Hnd) as Hnd'.
    apply List.NoDup_cons_iff in Hnd' as [Hfresh Hnd'].
    specialize (IH pool' (n - 1)%nat (tl t)).
    destruct IH as (Hlen & Hnodup & Hincl);
      [lia | subst pool'; rewrite overwrite_length; lia | exact Hnd' |].
    destruct (random.sample_pool d pool' (n - 1) k (tl t)) as [rest t'].
    cbn [fst snd Rand.ret] in *.
    split; [cbn; now rewrite Hlen|]. split.
    + constructor; [|exact Hnodup]. intros Hin. apply Hfresh, Hincl, Hin.
    + intros x [<-|Hx].
      * eapply Permutation_in; [symmetry; exact Hperm | now left].
      * eapply Permutation_in; [symmetry; exact Hperm|]. right.
        apply Hincl, Hx.
Qed.

(** Every attribute of a generated fingerprint comes from its list of
    candidates: user agent, viewport, timezone, locale, platform, the two
    depths and the vendor; the renderer carries a number between 10000 and
    99999; the canvas token has 32 characters, all letters or digits. *)
Theorem fingerprint_attributes_from_candidates (t : Rand.tape) :
  let fp := Rand.run generate_fingerprint t in
  In (user_agent fp) user_agents
  /\ In (viewport.width (viewport fp), viewport.height (viewport fp)) viewports
  /\ In (timezone fp) timezones
  /\ In (locale fp) locales
  /\ In (platform fp) platforms
  /\ In (screen.colorDepth (screen fp)) [24; 32]
  /\ In (screen.pixelDepth (screen fp)) [24; 32]
  /\ In (webgl_vendor fp) webgl_vendors
  /\ (exists n, 10000 <= n <= 99999 /\ webgl_renderer fp = renderer_string n)
  /\ String.length (canvas_fingerprint fp) = 32%nat
  /\ Forall (fun c => In c letters_and_digits)
       (list_ascii_of_string (canvas_fingerprint fp)).
Proof.
  intros fp. subst fp.
  unfold generate_fingerprint, Rand.run, Rand.bind.
  do 8 (rewrite choice_of_eq; cbv beta iota).
  rewrite randint_eq. cbv beta iota.
  match goal with
  | |- context [ random.choices ?d ?p ?k ?t ] =>
      destruct (choices_spec d p k t ltac:(discriminate)) as [Hlen Hall];
      destruct (random.choices d p k t) as [canvas t10]
  end.
  destruct (random.uniform 100 200 t10) as [audio t11].
  destruct (random.randint 5 9 t11) as [k t12].
  destruct (random.sample "" font_catalog (Z.to_nat k) t12) as [fs t13].
  unfold Rand.ret.
  cbn [fst snd user_agent viewport timezone locale platform screen
       webgl_vendor webgl_renderer canvas_fingerprint
       viewport.width viewport.height screen.colorDepth screen.pixelDepth] in *.
  rewrite ?peek_tl.
  assert (Hnth : forall {A : Type} (d : A) (l : list A) (x : N),
             l <> [] -> In (nth (N.to_nat (x mod N.of_nat (length l))) l d) l).
  { intros A d l x Hl. apply nth_In.
    pose proof (N.mod_lt x (N.of_nat (length l))).
    destruct l; [congruence|]. cbn [length] in *. lia. }
  repeat (split; [apply Hnth; discriminate|]).
  split.
  { rewrite <- surjective_pairing. apply Hnth. discriminate. }
  repeat (split; [apply Hnth; discriminate|]).
  split.
  { eexists. split; [|reflexivity].
    change (Z.to_N (99999 - 10000 + 1)) with 90000%N.
    pose proof (N.mod_lt (peek 8 t) 90000 ltac:(discriminate)) as H.
    revert H. generalize (peek 8 t mod 90000)%N. intros; lia. }
  rewrite list_ascii_of_string_of_list_ascii.
  split; [|exact Hall].
  rewrite <- Hlen. clear. induction canvas; cbn; congruence.
Qed.

(** The font list of a generated fingerprint holds between five and nine
    fonts, all of them from the catalog and no font twice. *)
Theorem fingerprint_fonts_distinct (t : Rand.tape) :
  let fp := Rand.run generate_fingerprint t in
  (5 <= length (fonts fp) <= 9)%nat
  /\ List.NoDup (fonts fp)
  /\ incl (fonts fp) font_catalog.
Proof.
  intros fp. subst fp.
  unfold generate_fingerprint, Rand.run, Rand.bind.
  do 8 (rewrite choice_of_eq; cbv beta iota).
  rewrite randint_eq. cbv beta iota.
  match goal with
  | |- context [ random.choices ?d ?p ?k ?t ] =>
      destruct (random.choices d p k t) as [canvas t10]
  end.
  destruct (random.uniform 100 200 t10) as [audio t11].
  rewrite randint_eq. cbv beta iota.
  change (Z.to_N (9 - 5 + 1)) with 5%N.
  assert (peek 0 t11 mod 5 < 5)%N as Hk by (apply N.mod_lt; discriminate).
  revert Hk. generalize (peek 0 t11 mod 5)%N. intros k Hk.
  unfold random.sample.
  destruct (sample_pool_spec "" (Z.to_nat (5 + Z.of_N k)) font_catalog
              (length font_catalog) (tl t11)) as (Hlen & Hnd & Hincl).
  { cbn [length font_catalog]. lia. }
  { lia. }
  { rewrite firstn_all. repeat constructor; cbn; intuition discriminate. }
  destruct (random.sample_pool "" font_catalog (length font_catalog)
              (Z.to_nat (5 + Z.of_N k)) (tl t11)) as [fs t13].
  unfold Rand.ret. cbn [fst fonts] in *. rewrite firstn_all in Hincl.
  split; [lia|]. split; assumption.
Qed.

(** ** The weighted choice when no common value is a candidate *)

Lemma weighted_fails_without_common (num den : N)
    (common candidates : list string) (t : Rand.tape) :
  common <> [] ->
  (forall c, In c common -> ~ In c candidates) ->
  random.lt_fraction (peek 0 t mod 2 ^ 53) num den = true ->
  Rand.run (tester.weighted num den common candidates) t = None.
Proof.
  intros Hcommon Hnone Hlt.
  unfold tester.weighted, Rand.run, Rand.bind.
  rewrite random_eq. cbv beta iota. rewrite Hlt.
  apply nonempty_spec in Hcommon. rewrite Hcommon. cbn [andb].
  assert (List.filter (fun r => tester.member r candidates) common = [])
    as ->.
  { induction common as [|c common IH]; [reflexivity|]. cbn.
    destruct (tester.member c candidates) eqn:Hm.
    - apply member_In in Hm. exfalso. apply (Hnone c); [now left | exact Hm].
    - destruct common as [|c' common']; [reflexivity|].
      apply IH; [reflexivity | intros x Hx; apply Hnone; now right]. }
  reflexivity.
Qed.

(** When none of the common values is among the candidates and the unit
    draw falls below the threshold, each of the three weighted choices of
    the fingerprint tester raises (IndexError of [random.choice] on an
    empty list), although candidates are there to choose from. *)
Theorem weighted_choice_raises_without_common
    (candidates : list string) (t : Rand.tape) :
  let r := (peek 0 t mod 2 ^ 53)%N in
  ((forall c, In c tester.common_resolutions -> ~ In c candidates) ->
   random.lt_fraction r 1 5 = true ->
   Rand.run (tester.get_weighted_resolution candidates) t = None)
  /\ ((forall c, In c tester.common_timezones -> ~ In c candidates) ->
      random.lt_fraction r 3 20 = true ->
      Rand.run (tester.get_weighted_timezone candidates) t = None)
  /\ ((forall c, In c tester.common_languages -> ~ In c candidates) ->
      random.lt_fraction r 1 10 = true ->
      Rand.run (tester.get_weighted_language candidates) t = None).
Proof.
  cbv zeta. repeat split; intros Hnone Hlt;
    apply weighted_fails_without_common; auto; discriminate.
Qed.

(** An instance: two uncommon resolutions and a unit draw of 0. *)
Lemma weighted_choice_raises_without_common_witness :
  Rand.run (tester.get_weighted_resolution ["2560x1440"; "3840x2160"]) [0%N]
  = None.
Proof.
  apply (weighted_choice_raises_without_common
           ["2560x1440"; "3840x2160"] [0%N]).
  - intros c Hc Hin. cbn in Hc, Hin. intuition congruence.
  - reflexivity.
Defined.

(** ** The queue of commands *)

Lemma filter_snoc {A : Type} (f : A -> bool) (l : list A) (x : A) :
  List.filter f (l ++ [x])
  = List.filter f l ++ (if f x then [x] else []).
Proof. rewrite List.filter_app. reflexivity. Qed.

Lemma leb_common_prefix (day x y : string) :
  String.leb (String.append day x) (String.append day y) = String.leb x y.
Proof.
  unfold String.leb. induction day as [|c day IH]; [reflexivity|].
  simpl. rewrite ascii_compare_N, N.compare_refl. exact IH.
Qed.

(** A command stored by [save_command] is pending: it is returned when
    its browser is asked for, beside what was returned before, and the
    answers for the other browsers do not change.  The query without
    browser id returns it exactly when it has no scheduled time or the text
    of its scheduled time is not after the text of datetime('now'), byte by
    byte.  [save_command] stores the isoformat text, with 'T' between day
    and time, where datetime('now') has a blank: a command scheduled for
    the day of the query is not returned by it, whichever of the two times
    is the earlier. *)
Theorem saved_command_is_pending
    (bid type data : string) (sched : option string) (created now : string)
    (s : CommandStore) :
  bid <> "" ->
  let s' := save_command bid type data sched created s in
  let saved := saved_command bid type data sched created s in
  Permutation
    (get_pending_commands (command_rows s') now (Some bid))
    (saved :: get_pending_commands (command_rows s) now (Some bid))
  /\ (forall other, other <> bid -> other <> "" ->
        get_pending_commands (command_rows s') now (Some other)
        = get_pending_commands (command_rows s) now (Some other))
  /\ (In saved (get_pending_commands (command_rows s') now None) <->
      sched = None \/ exists t, sched = Some t /\ String.leb t now = true)
  /\ (forall day time clock,
        sched = Some (String.append day (String "T" time)) ->
        now = String.append day (String " " clock) ->
        ~ In saved (get_pending_commands (command_rows s') now None)).
Proof.
  intros Hbid s' saved. subst s' saved.
  assert (Hdue : In (saved_command bid type data sched created s)
                   (get_pending_commands
                      (command_rows (save_command bid type data sched created s))
                      now None) <->
                 sched = None
                 \/ exists t, sched = Some t /\ String.leb t now = true).
  { unfold get_pending_commands, save_command, saved_command.
    cbn [command_rows truthy]. split.
    + intros Hin. apply in_map_iff in Hin as (c & Hc & Hin).
      apply order_by_In, filter_In in Hin as [_ Hdue].
      apply pending_due_spec in Hdue as [_ Hdue].
      apply (f_equal pc_scheduled_time) in Hc. cbn in Hc.
      now rewrite Hc in Hdue.
    + intros Hdue. apply in_map_iff. eexists. split.
      2: { apply order_by_In, filter_In. split.
           - apply in_or_app. right. left. reflexivity.
           - apply pending_due_spec. split; [reflexivity | exact Hdue]. }
      reflexivity. }
  split; [|split; [|split; [exact Hdue|]]].
  3: { intros day time clock -> -> Hin. apply Hdue in Hin.
       destruct Hin as [H|(t & [= <-] & H)]; [discriminate|].
       rewrite leb_common_prefix in H. discriminate. }
  all: unfold get_pending_commands, save_command, saved_command;
    cbn [command_rows].
  - rewrite (truthy_some bid Hbid).
    change (default "" (Some bid)) with bid.
    rewrite filter_snoc.
    assert (pending_for bid
              {| commands.id := command_last_id s + 1;
                 commands.browser_id := bid;
                 commands.command_type := type;
                 commands.command_data := data;
                 commands.status := "pending";
                 commands.scheduled_time := sched;
                 commands.executed_time := None;
                 commands.created_at := created |} = true) as ->
      by (apply pending_for_spec; split; reflexivity).
    rewrite <- (order_by_perm commands.scheduled_time (_ ++ [_])).
    rewrite map_app. cbn [map pending_of_row].
    rewrite <- Permutation_cons_append. apply perm_skip.
    apply Permutation_map, order_by_perm.
  - intros other Hne Hother. rewrite (truthy_some other Hother).
    change (default "" (Some other)) with other. rewrite filter_snoc.
    assert (pending_for other
              {| commands.id := command_last_id s + 1;
                 commands.browser_id := bid;
                 commands.command_type := type;
                 commands.command_data := data;
                 commands.status := "pending";
                 commands.scheduled_time := sched;
                 commands.executed_time := None;
                 commands.created_at := created |} = false) as ->.
    { unfold pending_for. cbn.
      destruct (String.eqb_spec bid other); [congruence | reflexivity]. }
    now rewrite app_nil_r.
Qed.

(** An instance: a command scheduled for 11 o'clock is not returned by
    the query without browser id at noon of that day. *)
Lemma saved_command_is_pending_witness :
  let s := {| command_rows := queue; command_last_id := 4 |} in
  let s' := save_command "b1" "click" "{}" (Some "2024-06-01T11:00:00")
              "2024-06-01 10:00:00" s in
  ~ In (saved_command "b1" "click" "{}" (Some "2024-06-01T11:00:00")
          "2024-06-01 10:00:00" s)
       (get_pending_commands (command_rows s') "2024-06-01 12:00:00" None).
Proof.
  intros s s'.
  destruct (saved_command_is_pending "b1" "click" "{}"
              (Some "2024-06-01T11:00:00") "2024-06-01 10:00:00"
              "2024-06-01 12:00:00" s) as (_ & _ & _ & H);
    [discriminate|].
  apply (H "2024-06-01" "11:00:00" "12:00:00"); reflexivity.
Defined.

(** ** Creation of browsers *)

Lemma existsb_find {A : Type} (f : A -> bool) (l : list A) :
  existsb f l = false <-> List.find f l = None.
Proof.
  induction l as [|x l IH]; cbn; [tauto|].
  destruct (f x); cbn; [split; discriminate | exact IH].
Qed.

Lemma find_snoc_fresh {A : Type} (f : A -> bool) (l : list A) (x : A) :
  List.find f l = None -> f x = true -> List.find f (l ++ [x]) = Some x.
Proof.
  intros Hnone Hx. induction l as [|y l IH]; cbn in *.
  - now rewrite Hx.
  - destruct (f y); [discriminate | now apply IH].
Qed.

Lemma generated_viewport_is_screen (t : Rand.tape) :
  viewport.width (viewport (Rand.run generate_fingerprint t))
  = screen.width (screen (Rand.run generate_fingerprint t))
  /\ viewport.height (viewport (Rand.run generate_fingerprint t))
     = screen.height (screen (Rand.run generate_fingerprint t)).
Proof. split; run_generator; reflexivity. Qed.

Lemma create_browser_eq (uuid created name : string)
    (pid eid : option Z) (ti : bool) (s : BrowserStore) (t : Rand.tape) :
  Rand.run (create_browser uuid created name pid eid ti s) t
  = Rand.run
      (if existsb (fun r => String.eqb (browsers.browser_id r) uuid)
            (browser_rows s)
       then Rand.ret (None, s)
       else Rand.ret
              (Some uuid,
               {| browser_rows :=
                    browser_rows s ++
                    [ let fp := Rand.run generate_fingerprint t in
                      {| browsers.id := browser_last_id s + 1;
                         browsers.browser_id := uuid;
                         browsers.name := name;
                         browsers.proxy_id := pid;
                         browsers.email_account_id := eid;
                         browsers.fingerprint := fp;
                         browsers.status := "inactive";
                         browsers.to_interact := ti;
                         browsers.last_interaction := None;
                         browsers.created_at := created;
                         browsers.user_agent := user_agent fp;
                         browsers.viewport_width := viewport.width (viewport fp);
                         browsers.viewport_height := viewport.height (viewport fp);
                         browsers.timezone := timezone fp;
                         browsers.locale := locale fp;
                         browsers.platform := platform fp |} ];
                  browser_last_id := browser_last_id s + 1 |})) t.
Proof.
  unfold create_browser, Rand.run, Rand.bind.
  destruct (generate_fingerprint t) as [fp t'].
  destruct (existsb _ _); reflexivity.
Qed.

Lemma fetchone_none_ids (uuid : string) (rows : list browsers.row) :
  browsers.fetchone uuid rows = None <->
  ~ In uuid (map browsers.browser_id rows).
Proof.
  unfold browsers.fetchone. split.
  - intros Hnone Hin. apply in_map_iff in Hin as (r & Hid & Hr).
    pose proof (find_none _ _ Hnone r Hr) as H. cbn in H.
    apply String.eqb_neq in H. congruence.
  - intros Hnot. destruct (List.find _ rows) as [r|] eqn:Hfind; [|reflexivity].
    apply find_some in Hfind as [Hin Heq]. apply String.eqb_eq in Heq.
    exfalso. apply Hnot. apply in_map_iff. eauto.
Qed.

Lemma created_browser_is_stored_rows
    (uuid created name : string) (pid eid : option Z) (ti : bool)
    (s : BrowserStore) (t : Rand.tape) :
  browsers.fetchone uuid (browser_rows s) = None ->
  exists row,
    browser_rows
      (snd (Rand.run (create_browser uuid created name pid eid ti s) t))
    = browser_rows s ++ [row]
    /\ browsers.browser_id row = uuid
    /\ browsers.to_interact row = ti
    /\ browsers.status row = "inactive"
    /\ browsers.last_interaction row = None.
Proof.
  intros Hfresh. rewrite create_browser_eq.
  apply existsb_find in Hfresh. rewrite Hfresh.
  unfold Rand.run, Rand.ret. cbn [fst snd browser_rows].
  eexists. split; [reflexivity|]. repeat split.
Qed.

(** With an id that the store does not hold yet, [create_browser] returns
    that id and appends one row, which a look-up of the id finds: status
    'inactive', never interacted, eligibility as asked for, the fingerprint
    that was drawn, and its attribute columns copied from that fingerprint,
    the viewport columns being the dimensions of its screen descriptor. *)
Theorem created_browser_is_stored
    (uuid created name : string) (pid eid : option Z) (ti : bool)
    (s : BrowserStore) (t : Rand.tape) :
  browsers.fetchone uuid (browser_rows s) = None ->
  let result := Rand.run (create_browser uuid created name pid eid ti s) t in
  let fp := Rand.run generate_fingerprint t in
  fst result = Some uuid
  /\ exists row,
       browser_rows (snd result) = browser_rows s ++ [row]
       /\ browsers.fetchone uuid (browser_rows (snd result)) = Some row
       /\ browsers.status row = "inactive"
       /\ browsers.last_interaction row = None
       /\ browsers.to_interact row = ti
       /\ browsers.proxy_id row = pid
       /\ browsers.email_account_id row = eid
       /\ browsers.fingerprint row = fp
       /\ browsers.viewport_width row = screen.width (screen fp)
       /\ browsers.viewport_height row = screen.height (screen fp)
       /\ browsers.user_agent row = user_agent fp
       /\ browsers.timezone row = timezone fp
       /\ browsers.locale row = locale fp
       /\ browsers.platform row = platform fp.
Proof.
  intros Hfresh result fp. subst result fp. rewrite create_browser_eq.
  apply existsb_find in Hfresh as Hex. unfold browsers.fetchone in Hfresh.
  rewrite Hex. unfold Rand.run at 1 2 3, Rand.ret. cbn [fst snd browser_rows].
  split; [reflexivity|]. eexists. split; [reflexivity|]. split.
  { apply find_snoc_fresh; [exact Hfresh | apply String.eqb_refl]. }
  destruct (generated_viewport_is_screen t) as [Hw Hh].
  cbn. rewrite <- Hw, <- Hh. repeat split.
Qed.

(** An instance: a fourth identity for the store of three. *)
Lemma created_browser_is_stored_witness :
  fst (Rand.run
         (create_browser "0b5e" "2024-06-01 12:00:00" "fourth" None None true
            {| browser_rows := three_identities; browser_last_id := 3 |})
         [3; 1; 4; 1; 5]%N)
  = Some "0b5e".
Proof.
  apply (created_browser_is_stored "0b5e" "2024-06-01 12:00:00" "fourth"
           None None true
           {| browser_rows := three_identities; browser_last_id := 3 |}
           [3; 1; 4; 1; 5]%N).
  reflexivity.
Defined.

(** [create_browser] keeps the ids of the store distinct: with an id
    that is already stored it raises (the UNIQUE constraint) and leaves
    the store as it was. *)
Theorem create_browser_keeps_ids_unique
    (uuid created name : string) (pid eid : option Z) (ti : bool)
    (s : BrowserStore) (t : Rand.tape) :
  let result := Rand.run (create_browser uuid created name pid eid ti s) t in
  (browsers.fetchone uuid (browser_rows s) <> None -> result = (None, s))
  /\ (List.NoDup (map browsers.browser_id (browser_rows s)) ->
      List.NoDup (map browsers.browser_id (browser_rows (snd result)))).
Proof.
  intros result. subst result. rewrite create_browser_eq.
  destruct (existsb _ (browser_rows s)) eqn:Hex.
  - split; [reflexivity | auto].
  - apply existsb_find in Hex. split; [intros H; now elim H|].
    intros Hnd. unfold Rand.run, Rand.ret. cbn [fst snd browser_rows].
    rewrite map_app. cbn [map browsers.browser_id].
    eapply Permutation_NoDup; [apply Permutation_cons_append|].
    constructor; [|exact Hnd].
    now apply (fetchone_none_ids uuid (browser_rows s)).
Qed.

(** An instance: the id of an identity that is in the store. *)
Lemma create_browser_keeps_ids_unique_witness :
  Rand.run
    (create_browser "fresh" "2024-06-01 12:00:00" "again" None None true
       {| browser_rows := three_identities; browser_last_id := 3 |}) []
  = (None, {| browser_rows := three_identities; browser_last_id := 3 |}).
Proof.
  apply (create_browser_keeps_ids_unique "fresh" "2024-06-01 12:00:00"
           "again" None None true
           {| browser_rows := three_identities; browser_last_id := 3 |} []).
  discriminate.
Defined.

Lemma limit_all {A : Type} (n : Z) (l : list A) :
  n < 0 \/ Z.of_nat (length l) <= n -> Sql.limit n l = l.
Proof.
  intros H. unfold Sql.limit. destruct (Z.ltb_spec n 0); [reflexivity|].
  apply firstn_all2. lia.
Qed.

(** A browser created as eligible for interaction is selected by the
    next batch whose limit leaves room for all due identities, and a
    browser created as not eligible is never selected. *)
Theorem created_browser_is_selected_if_eligible
    (uuid created name : string) (pid eid : option Z) (ti : bool)
    (s : BrowserStore) (t : Rand.tape) :
  browsers.fetchone uuid (browser_rows s) = None ->
  let rows' :=
    browser_rows
      (snd (Rand.run (create_browser uuid created name pid eid ti s) t)) in
  forall clock limit interval batch,
    schedule_browser_batch clock rows' limit interval = Some batch ->
    (ti = false -> ~ In uuid (browser_ids batch))
    /\ (ti = true ->
        limit < 0 \/ Z.of_nat (length (List.filter due rows')) <= limit ->
        In uuid (browser_ids batch)).
Proof.
  intros Hfresh rows' clock limit interval batch Hbatch.
  destruct (created_browser_is_stored_rows uuid created name pid eid ti s t
              Hfresh) as (row & Hrows & Hid & Hti & Hst & Hlast).
  fold rows' in Hrows.
  unfold schedule_browser_batch, select_due in Hbatch.
  destruct (sqlite_integer limit); [|discriminate].
  destruct (later clock interval); [|discriminate].
  injection Hbatch as <-. cbn [browser_ids]. split.
  - intros -> Hin. apply in_map_iff in Hin as (r & Hr & Hin).
    apply limit_In, order_by_In, filter_In in Hin as [Hin Hdue].
    rewrite Hrows in Hin. apply in_app_or in Hin as [Hin|[<-|[]]].
    + apply (fetchone_none_ids uuid (browser_rows s)); [exact Hfresh|].
      apply in_map_iff. eauto.
    + unfold due in Hdue. now rewrite Hti in Hdue.
  - intros -> Hroom. apply in_map_iff. exists row. split; [exact Hid|].
    rewrite limit_all.
    2: { destruct Hroom as [H|H]; [now left | right].
         rewrite <- (Permutation_length
                       (order_by_perm browsers.last_interaction _)).
         exact H. }
    apply order_by_In, filter_In. split.
    + rewrite Hrows. apply in_or_app. right. now left.
    + unfold due. rewrite Hti, Hst. reflexivity.
Qed.

(** An instance: the fourth identity is in the next batch of 350. *)
Lemma created_browser_is_selected_if_eligible_witness :
  exists batch,
    schedule_browser_batch noon
      (browser_rows
         (snd (Rand.run
                 (create_browser "0b5e" "2024-06-01 12:00:00" "fourth"
                    None None true
                    {| browser_rows := three_identities;
                       browser_last_id := 3 |}) [])))
      350 5 = Some batch
    /\ In "0b5e" (browser_ids batch).
Proof.
  destruct (schedule_browser_batch noon _ 350 5) as [batch|] eqn:Hbatch;
    [|vm_compute in Hbatch; discriminate].
  exists batch. split; [reflexivity|].
  apply (created_browser_is_selected_if_eligible "0b5e"
           "2024-06-01 12:00:00" "fourth" None None true
           {| browser_rows := three_identities; browser_last_id := 3 |} []
           eq_refl noon 350 5 batch Hbatch);
    [reflexivity | right; vm_compute; discriminate].
Defined.

(** ** Import of proxies, row by row *)





Lemma same_endpoint_spec (host : string) (port : Z) (user : string)
    (r : proxies.row) :
  proxies.same_endpoint host port user r = true
  <-> endpoint_of r = (host, port, Some user).
Proof.
  unfold proxies.same_endpoint, endpoint_of.
  rewrite !andb_true_iff, String.eqb_eq, Z.eqb_eq.
  destruct (proxies.username r) as [u|].
  - rewrite String.eqb_eq. split; [intros [[-> ->] ->] | intros [= -> -> ->]];
      auto.
  - split; [intros [_ H] | intros H]; discriminate.
Qed.

(** [create_or_find_proxy] asked twice for one endpoint (with a port
    that sqlite3 can bind) answers with the same id and stores nothing the
    second time, whatever the passwords are; after a call the table holds
    the endpoint (once if it did not hold it before), and the rows that
    were there are in place. *)
Theorem create_or_find_proxy_is_idempotent
    (host : string) (port : Z) (user pass pass' : string)
    (t : proxies.table) :
  sqlite_integer port = true ->
  let first := create_or_find_proxy host port user pass t in
  create_or_find_proxy host port user pass' (snd first) = first
  /\ endpoint_rows host port user (snd first)
     = Nat.max 1 (endpoint_rows host port user t)
  /\ exists new, proxies.rows (snd first) = proxies.rows t ++ new.
Proof.
  intros _. unfold create_or_find_proxy, endpoint_rows.
  destruct (List.find _ (proxies.rows t)) as [r|] eqn:Hfind.
  - cbn [snd]. rewrite Hfind. split; [reflexivity|]. split.
    + apply find_some in Hfind as [Hin Hr].
      assert (In r (List.filter (proxies.same_endpoint host port user)
                      (proxies.rows t))) as H by (apply filter_In; auto).
      destruct (List.filter _ (proxies.rows t)); [destruct H | cbn; lia].
    + exists []. now rewrite app_nil_r.
  - unfold proxies.insert. cbn [snd fst proxies.rows].
    set (r := {| proxies.id := proxies.last_id t + 1; proxies.name := None;
                 proxies.host := host; proxies.port := port;
                 proxies.username := Some user;
                 proxies.password := Some pass;
                 proxies.protocol := default (Some "http") None;
                 proxies.status := "active" |}).
    assert (proxies.same_endpoint host port user r = true) as Hr
      by (apply same_endpoint_spec; reflexivity).
    rewrite (find_snoc_fresh _ _ r Hfind Hr). split; [reflexivity|]. split.
    + rewrite filter_snoc, Hr, length_app.
      assert (List.filter (proxies.same_endpoint host port user)
                (proxies.rows t) = []) as ->.
      { destruct (List.filter _ (proxies.rows t)) as [|x l] eqn:Hf;
          [reflexivity|].
        assert (In x (List.filter (proxies.same_endpoint host port user)
                        (proxies.rows t))) as Hx by (rewrite Hf; now left).
        apply filter_In in Hx as [Hx Hxe].
        pose proof (find_none _ _ Hfind x Hx). congruence. }
      reflexivity.
    + eexists. reflexivity.
Qed.

(** An instance: the endpoint of the sample table, which holds it once,
    and one that the table does not hold. *)
Lemma create_or_find_proxy_is_idempotent_witness :
  create_or_find_proxy "10.0.0.7" 3128 "ann" "again"
    (snd (create_or_find_proxy "10.0.0.7" 3128 "ann" "secret" one_proxy))
  = create_or_find_proxy "10.0.0.7" 3128 "ann" "secret" one_proxy.
Proof.
  apply (create_or_find_proxy_is_idempotent
           "10.0.0.7" 3128 "ann" "secret" "again" one_proxy).
  reflexivity.
Defined.



(** ** Import of accounts *)


Lemma addresses_snoc (t : email_accounts.table) (r : email_accounts.row)
    (n : Z) :
  addresses {| email_accounts.rows := email_accounts.rows t ++ [r];
               email_accounts.last_id := n |}
  = addresses t ++ [email_accounts.email r].
Proof. unfold addresses. cbn. now rewrite map_app. Qed.

Lemma nodup_snoc {A : Type} (l : list A) (x : A) :
  List.NoDup l -> ~ In x l -> List.NoDup (l ++ [x]).
Proof.
  intros Hnd Hx. eapply Permutation_NoDup; [apply Permutation_cons_append|].
  now constructor.
Qed.





(** [create_or_find_email_account] never meets the UNIQUE constraint: it
    answers with an id under which the address is stored afterwards, a
    second call for the address (whatever password and provider it
    gives) answers with the same id and stores nothing, the rows that were
    there stay in place, nothing is added when the address was stored, and
    distinct addresses stay distinct. *)
Theorem create_or_find_account_never_conflicts
    (a p p' prov prov' : string) (t : email_accounts.table) :
  exists rowid t',
    create_or_find_email_account a p prov t = Some (rowid, t')
    /\ create_or_find_email_account a p' prov' t' = Some (rowid, t')
    /\ (exists r, In r (email_accounts.rows t')
                  /\ email_accounts.email r = a
                  /\ email_accounts.id r = rowid)
    /\ (exists new,
          email_accounts.rows t' = email_accounts.rows t ++ new
          /\ (In a (addresses t) -> new = []))
    /\ (List.NoDup (addresses t) -> List.NoDup (addresses t')).
Proof.
  unfold create_or_find_email_account.
  destruct (List.find _ (email_accounts.rows t)) as [r|] eqn:Hfind.
  - exists (email_accounts.id r), t. rewrite Hfind.
    apply find_some in Hfind as [Hin Hr]. apply String.eqb_eq in Hr.
    repeat split; auto.
    + exists r. auto.
    + exists []. split; [now rewrite app_nil_r | reflexivity].
  - apply existsb_find in Hfind as Hex.
    unfold email_accounts.insert. rewrite Hex.
    set (r := {| email_accounts.id := email_accounts.last_id t + 1;
                 email_accounts.email := a; email_accounts.password := p;
                 email_accounts.provider := prov;
                 email_accounts.recovery_email := None;
                 email_accounts.phone := None;
                 email_accounts.status := "active" |}).
    do 2 eexists. split; [reflexivity|]. cbn [email_accounts.rows].
    assert (Hfresh : ~ In a (addresses t)).
    { intros Hin. apply in_map_iff in Hin as (x & Hx & Hin).
      apply (find_none _ _ Hfind) in Hin. rewrite Hx, String.eqb_refl in Hin.
      discriminate. }
    rewrite (find_snoc_fresh _ _ r Hfind (String.eqb_refl a)).
    repeat split.
    + exists r. split; [apply in_or_app; right; now left | split; reflexivity].
    + exists [r]. split; [reflexivity | intros Hin; now elim Hfresh].
    + intros Hnd. rewrite addresses_snoc. now apply nodup_snoc.
Qed.

(** ** Stopping the continuous loop *)

Lemma while_running_stopped (size interval : Z) (turns : list Turn) :
  while_running size interval false turns = ([], false).
Proof. now destruct turns. Qed.

(** A call of [stop_automation] takes effect when the pass during which
    it came is over: the loop runs every pass up to and including that
    one in full, its sleep too, runs no batch after it and is no longer
    running, whatever turns would follow. *)
Theorem stop_request_ends_loop_after_its_pass
    (batch_size interval_minutes : Z) (before after : list Turn)
    (turn : Turn) :
  Forall (fun earlier => stop_requested earlier = false) before ->
  stop_requested turn = true ->
  start_continuous_automation batch_size interval_minutes
    (before ++ turn :: after)
  = (concat (map (pass batch_size interval_minutes) (before ++ [turn])),
     false)
  /\ batches (fst (start_continuous_automation batch_size interval_minutes
                     (before ++ turn :: after)))
     = S (length before).
Proof.
  intros Hbefore Hstop. unfold start_continuous_automation.
  assert (Heq : while_running batch_size interval_minutes true
                  (before ++ turn :: after)
                = (concat (map (pass batch_size interval_minutes)
                             (before ++ [turn])), false)).
  { induction Hbefore as [|earlier before Hearlier _ IH].
    - cbn. rewrite Hstop. cbn [negb].
      rewrite while_running_stopped. now rewrite !app_nil_r.
    - cbn [app while_running map concat]. rewrite Hearlier. cbn [negb].
      now rewrite IH. }
  rewrite Heq. split; [reflexivity|]. cbn [fst].
  clear Heq Hbefore Hstop. unfold batches.
  induction before as [|earlier before IH].
  - cbn [app map concat]. rewrite app_nil_r. unfold pass.
    now destruct (batch_raises turn).
  - cbn [app map concat length]. rewrite List.filter_app, length_app, IH.
    unfold pass. now destruct (batch_raises earlier).
Qed.

(** An instance: a failing pass, then a pass during which the stop is
    asked for, then a turn that is never taken. *)
Lemma stop_request_ends_loop_after_its_pass_witness :
  start_continuous_automation 350 5
    ([failed_turn] ++ stopping_turn :: [clean_turn])
  = (concat (map (pass 350 5) ([failed_turn] ++ [stopping_turn])), false).
Proof.
  apply (stop_request_ends_loop_after_its_pass 350 5 [failed_turn]
           [clean_turn] stopping_turn).
  - repeat constructor.
  - reflexivity.
Defined.

(** ** Import of browsers *)

Lemma find_none_filter {A : Type} (f : A -> bool) (l : list A) :
  List.find f l = None -> List.filter f l = [].
Proof.
  induction l as [|x l IH]; cbn; [reflexivity|].
  destruct (f x); [discriminate | exact IH].
Qed.

Lemma insert_keeps_endpoints_unique (nm : option string) (host : string)
    (port : Z) (user pass : option string) (proto : option (option string))
    (t : proxies.table) :
  endpoints_unique t ->
  match user with
  | Some u => List.find (proxies.same_endpoint host port u) (proxies.rows t)
              = None
  | None => True
  end ->
  endpoints_unique (snd (proxies.insert nm host port user pass proto t)).
Proof.
  intros Huniq Hfresh h p u. unfold endpoint_rows, proxies.insert.
  cbn [snd proxies.rows]. rewrite filter_snoc.
  destruct (proxies.same_endpoint h p u _) eqn:Hsame.
  - apply same_endpoint_spec in Hsame. unfold endpoint_of in Hsame.
    cbn in Hsame. destruct user as [user|]; [|discriminate].
    injection Hsame as -> -> ->.
    rewrite (find_none_filter _ _ Hfresh). cbn. lia.
  - rewrite app_nil_r. apply Huniq.
Qed.

Lemma create_or_find_proxy_of_row_spec (host : string) (port : Z)
    (user pass : option string) (t t' : proxies.table) (i : Z) :
  endpoints_unique t ->
  create_or_find_proxy_of_row host port user pass t = Some (i, t') ->
  endpoints_unique t'
  /\ (exists new, proxies.rows t' = proxies.rows t ++ new)
  /\ exists r, In r (proxies.rows t') /\ proxies.id r = i
               /\ proxies.host r = host /\ proxies.port r = port
               /\ proxies.username r = user.
Proof.
  intros Huniq. unfold create_or_find_proxy_of_row, create_or_find_proxy.
  destruct (sqlite_integer port); [|discriminate].
  assert (Hinsert : forall pass' proto,
             match user with
             | Some u => List.find (proxies.same_endpoint host port u)
                           (proxies.rows t) = None
             | None => True
             end ->
             Some (proxies.insert None host port user pass' proto t)
             = Some (i, t') ->
             endpoints_unique t'
             /\ (exists new, proxies.rows t' = proxies.rows t ++ new)
             /\ exists r, In r (proxies.rows t') /\ proxies.id r = i
                          /\ proxies.host r = host /\ proxies.port r = port
                          /\ proxies.username r = user).
  { intros pass' proto Hfresh Heq.
    pose proof (insert_keeps_endpoints_unique None host port user pass' proto
                  t Huniq Hfresh) as Hu.
    injection Heq as <- <-. split; [exact Hu|]. cbn [snd proxies.rows].
    split; [eexists; reflexivity|].
    eexists. split; [apply in_or_app; right; now left|]. repeat split. }
  assert (Hfound : forall u existing,
             user = Some u ->
             List.find (proxies.same_endpoint host port u) (proxies.rows t)
             = Some existing ->
             Some (proxies.id existing, t) = Some (i, t') ->
             endpoints_unique t'
             /\ (exists new, proxies.rows t' = proxies.rows t ++ new)
             /\ exists r, In r (proxies.rows t') /\ proxies.id r = i
                          /\ proxies.host r = host /\ proxies.port r = port
                          /\ proxies.username r = user).
  { intros u existing -> Hfind Heq. injection Heq as <- <-.
    apply find_some in Hfind as [Hin Hsame].
    apply same_endpoint_spec in Hsame. unfold endpoint_of in Hsame.
    injection Hsame as Hh Hp Hu.
    split; [exact Huniq|]. split; [exists []; now rewrite app_nil_r|].
    exists existing. auto. }
  destruct user as [u|]; [|destruct pass; now apply Hinsert].
  destruct (List.find _ (proxies.rows t)) as [existing|] eqn:Hfind.
  - destruct pass; now apply (Hfound u existing).
  - destruct pass; now apply Hinsert.
Qed.

Lemma create_or_find_account_cases (a p prov : string)
    (t : email_accounts.table) :
  (exists r, In r (email_accounts.rows t) /\ email_accounts.email r = a
             /\ List.find (fun r => String.eqb (email_accounts.email r) a)
                  (email_accounts.rows t) = Some r
             /\ create_or_find_email_account a p prov t
                = Some (email_accounts.id r, t))
  \/ (~ In a (addresses t)
      /\ List.find (fun r => String.eqb (email_accounts.email r) a)
           (email_accounts.rows t) = None
      /\ exists r,
           create_or_find_email_account a p prov t
           = Some (email_accounts.id r,
                   {| email_accounts.rows := email_accounts.rows t ++ [r];
                      email_accounts.last_id := email_accounts.last_id t + 1 |})
           /\ email_accounts.email r = a).
Proof.
  unfold create_or_find_email_account.
  destruct (List.find _ (email_accounts.rows t)) as [r|] eqn:Hfind.
  - left. exists r. apply find_some in Hfind as [Hin Hr].
    apply String.eqb_eq in Hr. auto.
  - right. apply existsb_find in Hfind as Hex.
    assert (Hfresh : ~ In a (addresses t)).
    { intros Hin. apply in_map_iff in Hin as (x & Hx & Hin).
      apply (find_none _ _ Hfind) in Hin. rewrite Hx, String.eqb_refl in Hin.
      discriminate. }
    split; [exact Hfresh|]. split; [reflexivity|].
    unfold email_accounts.insert. rewrite Hex.
    exists {| email_accounts.id := email_accounts.last_id t + 1;
              email_accounts.email := a; email_accounts.password := p;
              email_accounts.provider := prov;
              email_accounts.recovery_email := None;
              email_accounts.phone := None;
              email_accounts.status := "active" |}.
    split; reflexivity.
Qed.

Lemma create_or_find_account_of_row_spec (a : string)
    (secret prov : option string) (t t' : email_accounts.table) (i : Z) :
  List.NoDup (addresses t) ->
  create_or_find_email_account_of_row a secret prov t = Some (i, t') ->
  List.NoDup (addresses t')
  /\ (exists new, email_accounts.rows t' = email_accounts.rows t ++ new)
  /\ exists r, In r (email_accounts.rows t') /\ email_accounts.id r = i
               /\ email_accounts.email r = a.
Proof.
  intros Hnd. unfold create_or_find_email_account_of_row.
  assert (Hfound : match List.find
                           (fun r => String.eqb (email_accounts.email r) a)
                           (email_accounts.rows t) with
                   | Some existing => Some (email_accounts.id existing, t)
                   | None => None
                   end = Some (i, t') ->
                   List.NoDup (addresses t')
                   /\ (exists new, email_accounts.rows t'
                                   = email_accounts.rows t ++ new)
                   /\ exists r, In r (email_accounts.rows t')
                                /\ email_accounts.id r = i
                                /\ email_accounts.email r = a).
  { destruct (List.find _ _) as [r|] eqn:Hfind; [|discriminate].
    intros [= <- <-]. apply find_some in Hfind as [Hin Hr].
    apply String.eqb_eq in Hr.
    split; [exact Hnd|]. split; [exists []; now rewrite app_nil_r|].
    exists r. auto. }
  destruct secret as [s|]; [|exact Hfound].
  destruct prov as [p|]; [|exact Hfound].
  destruct (create_or_find_account_cases a s p t)
    as [(r & Hin & Hr & _ & ->)|(Hfresh & _ & r & -> & Hr)];
    intros [= <- <-].
  - split; [exact Hnd|]. split; [exists []; now rewrite app_nil_r|].
    exists r. auto.
  - rewrite addresses_snoc, Hr. split; [now apply nodup_snoc|].
    split; [eexists; reflexivity|]. cbn [email_accounts.rows].
    exists r. split; [apply in_or_app; right; now left | auto].
Qed.

Lemma create_browser_of_row_cases (uuid created : string)
    (name : option string) (pid eid : option Z) (ti : bool)
    (s : BrowserStore) (t : Rand.tape) :
  let result := Rand.run (create_browser_of_row uuid created name pid eid ti s)
                  t in
  result = (None, s)
  \/ (~ In uuid (stored_ids s)
      /\ fst result = Some uuid
      /\ exists row,
           browser_rows (snd result) = browser_rows s ++ [row]
           /\ browsers.browser_id row = uuid
           /\ browsers.proxy_id row = pid
           /\ browsers.email_account_id row = eid
           /\ browsers.to_interact row = ti
           /\ browsers.status row = "inactive").
Proof.
  unfold create_browser_of_row. destruct name as [n|].
  - cbv zeta. rewrite create_browser_eq.
    destruct (existsb _ (browser_rows s)) eqn:Hex; [now left|].
    right. apply existsb_find in Hex.
    split; [now apply (fetchone_none_ids uuid (browser_rows s))|].
    unfold Rand.run, Rand.ret. cbn [fst snd browser_rows].
    split; [reflexivity|]. eexists. split; [reflexivity|]. repeat split.
  - left. unfold Rand.run, Rand.bind, Rand.ret.
    now destruct (generate_fingerprint t).
Qed.

Lemma selected_proxy_is_found (host : string) (port : Z)
    (user pass : option string) (t t' : proxies.table) (i : Z) :
  selects_proxy host port user t = true ->
  create_or_find_proxy_of_row host port user pass t = Some (i, t') ->
  t' = t.
Proof.
  unfold selects_proxy, create_or_find_proxy_of_row, create_or_find_proxy.
  destruct user as [u|]; [|discriminate]. intros Hsel.
  destruct (List.find _ (proxies.rows t)) as [r|] eqn:Hfind.
  - destruct (sqlite_integer port); [|discriminate].
    destruct pass; now intros [= _ <-].
  - apply existsb_find in Hfind. congruence.
Qed.

Lemma selected_account_is_found (a : string) (secret prov : option string)
    (t t' : email_accounts.table) (i : Z) :
  selects_account a t = true ->
  create_or_find_email_account_of_row a secret prov t = Some (i, t') ->
  t' = t.
Proof.
  unfold selects_account, create_or_find_email_account_of_row,
    create_or_find_email_account.
  intros Hsel.
  destruct (List.find _ (email_accounts.rows t)) as [r|] eqn:Hfind.
  - destruct secret; [destruct prov|]; now intros [= _ <-].
  - apply existsb_find in Hfind. congruence.
Qed.

(** The outcomes of a call: it returns with the answer of the unlocked
    call, and has stored what that call stores; or it raises and has stored
    nothing. *)
Lemma call_cases {A T : Type} (env : ImportEnv) (writes : bool)
    (unlocked : option (A * T)) (store : T -> Import -> Import)
    (st : Import) :
  (exists a t',
     unlocked = Some (a, t')
     /\ call env writes unlocked store st
        = (Some a, if writes then counted false (store t' st) else st)
     /\ (writes = true -> lock_held env st = false))
  \/ (exists st',
        call env writes unlocked store st = (None, st')
        /\ (st' = st \/ st' = counted true st)
        /\ (writes = true -> st' = counted true st)
        /\ (writes = true -> lock_held env st = false -> unlocked = None)
        /\ (writes = false -> unlocked = None)).
Proof.
  unfold call, written. destruct writes.
  - destruct (lock_held env st).
    + right. eexists. repeat split; auto; discriminate.
    + destruct unlocked as [[a t']|].
      * left. exists a, t'. auto.
      * right. eexists. repeat split; auto; discriminate.
  - destruct unlocked as [[a t']|].
    + left. exists a, t'. repeat split. discriminate.
    + right. eexists. repeat split; auto; discriminate.
Qed.

Lemma extends_refl (st : Import) : extends st st.
Proof. repeat split; exists []; now rewrite app_nil_r. Qed.

Lemma extends_trans (a b c : Import) :
  extends a b -> extends b c -> extends a c.
Proof.
  intros ((p1 & H1) & (a1 & H2) & (b1 & H3) & (i1 & H4))
         ((p2 & H5) & (a2 & H6) & (b2 & H7) & (i2 & H8)).
  repeat split.
  - exists (p1 ++ p2). now rewrite H5, H1, app_assoc.
  - exists (a1 ++ a2). now rewrite H6, H2, app_assoc.
  - exists (b1 ++ b2). now rewrite H7, H3, app_assoc.
  - exists (i1 ++ i2). now rewrite H8, H4, app_assoc.
Qed.

Lemma proxy_of_row_spec (env : ImportEnv) (row : BrowserCsvRow)
    (st : Import) :
  endpoints_unique (imp_proxies st) ->
  let result := proxy_of_row env row st in
  endpoints_unique (imp_proxies (snd result))
  /\ (exists new, proxies.rows (imp_proxies (snd result))
                  = proxies.rows (imp_proxies st) ++ new)
  /\ proxies_only st (snd result)
  /\ match fst result with
     | None => True
     | Some None => filled (b_proxy_host row) = None /\ snd result = st
     | Some (Some i) =>
         exists host cell port r,
           filled (b_proxy_host row) = Some host
           /\ b_proxy_port row = Some cell
           /\ int_of_cell cell = Some port
           /\ sqlite_integer port = true
           /\ In r (proxies.rows (imp_proxies (snd result)))
           /\ proxies.id r = i
           /\ proxies.host r = host /\ proxies.port r = port
           /\ proxies.username r = dict_get "" (b_proxy_username row)
     end.
Proof.
  intros Huniq. unfold proxy_of_row.
  assert (Hsame : endpoints_unique (imp_proxies st)
                  /\ (exists new, proxies.rows (imp_proxies st)
                                  = proxies.rows (imp_proxies st) ++ new)
                  /\ proxies_only st st).
  { split; [exact Huniq|]. split; [exists []; now rewrite app_nil_r|].
    repeat split. }
  destruct (filled (b_proxy_host row)) as [host|] eqn:Hhost.
  2: { cbn. destruct Hsame as (? & ? & ?). auto. }
  destruct (b_proxy_port row) as [cell|] eqn:Hcell.
  2: { cbn. destruct Hsame as (? & ? & ?). auto. }
  destruct (int_of_cell cell) as [port|] eqn:Hport.
  2: { cbn. destruct Hsame as (? & ? & ?). auto. }
  set (writes := sqlite_integer port && negb (selects_proxy _ _ _ _)).
  destruct (call_cases env writes
              (create_or_find_proxy_of_row host port
                 (dict_get "" (b_proxy_username row))
                 (dict_get "" (b_proxy_password row)) (imp_proxies st))
              with_proxies st)
    as [(i & t' & Hcall & -> & _)|(st' & -> & Hst' & _)].
  - destruct (create_or_find_proxy_of_row_spec _ _ _ _ _ _ _ Huniq Hcall)
      as (Hu & Hnew & r & Hin & Hid & Hh & Hp & Hname).
    assert (Hfits : sqlite_integer port = true).
    { unfold create_or_find_proxy_of_row in Hcall.
      destruct (sqlite_integer port); [reflexivity | discriminate Hcall]. }
    cbn [fst snd option_map].
    destruct writes eqn:Hwrites; cbn [imp_proxies counted with_proxies].
    + split; [exact Hu|]. split; [exact Hnew|]. split; [repeat split|].
      exists host, cell, port, r. repeat split; auto.
    + assert (t' = imp_proxies st) as ->.
      { unfold writes in Hwrites. rewrite Hfits in Hwrites.
        cbn [andb] in Hwrites. apply negb_false_iff in Hwrites.
        exact (selected_proxy_is_found _ _ _ _ _ _ _ Hwrites Hcall). }
      split; [exact Hu|]. split; [exact Hnew|]. split; [repeat split|].
      exists host, cell, port, r. repeat split; auto.
  - cbn [fst snd option_map].
    destruct Hst' as [->| ->]; cbn; destruct Hsame as (? & ? & ?); auto.
Qed.

Lemma account_of_row_spec (env : ImportEnv) (row : BrowserCsvRow)
    (st : Import) :
  List.NoDup (addresses (imp_accounts st)) ->
  let result := account_of_row env row st in
  List.NoDup (addresses (imp_accounts (snd result)))
  /\ (exists new, email_accounts.rows (imp_accounts (snd result))
                  = email_accounts.rows (imp_accounts st) ++ new)
  /\ accounts_only st (snd result)
  /\ match fst result with
     | None => True
     | Some None => filled (b_email row) = None /\ snd result = st
     | Some (Some i) =>
         exists a r,
           filled (b_email row) = Some a
           /\ In r (email_accounts.rows (imp_accounts (snd result)))
           /\ email_accounts.id r = i
           /\ email_accounts.email r = a
     end.
Proof.
  intros Hnd. unfold account_of_row.
  assert (Hsame : List.NoDup (addresses (imp_accounts st))
                  /\ (exists new, email_accounts.rows (imp_accounts st)
                                  = email_accounts.rows (imp_accounts st) ++ new)
                  /\ accounts_only st st).
  { split; [exact Hnd|]. split; [exists []; now rewrite app_nil_r|].
    repeat split. }
  destruct (filled (b_email row)) as [a|] eqn:Hemail.
  2: { cbn. destruct Hsame as (? & ? & ?). auto. }
  destruct (b_email_password row) as [secret|] eqn:Hsecret.
  2: { cbn. destruct Hsame as (? & ? & ?). auto. }
  set (writes := negb (selects_account _ _)).
  destruct (call_cases env writes
              (create_or_find_email_account_of_row a secret
                 (dict_get "gmail" (b_provider row)) (imp_accounts st))
              with_accounts st)
    as [(i & t' & Hcall & -> & _)|(st' & -> & Hst' & _)].
  - destruct (create_or_find_account_of_row_spec _ _ _ _ _ _ Hnd Hcall)
      as (Hu & Hnew & r & Hin & Hid & Ha).
    cbn [fst snd option_map].
    destruct writes eqn:Hwrites; cbn [imp_accounts counted with_accounts].
    + split; [exact Hu|]. split; [exact Hnew|]. split; [repeat split|].
      exists a, r. auto.
    + assert (t' = imp_accounts st) as ->.
      { unfold writes in Hwrites. apply negb_false_iff in Hwrites.
        exact (selected_account_is_found _ _ _ _ _ _ Hwrites Hcall). }
      split; [exact Hu|]. split; [exact Hnew|]. split; [repeat split|].
      exists a, r. auto.
  - cbn [fst snd option_map].
    destruct Hst' as [->| ->]; cbn; destruct Hsame as (? & ? & ?); auto.
Qed.

Lemma browser_of_row_cases (env : ImportEnv) (name : option string)
    (pid eid : option Z) (ti : bool) (st : Import) (t : Rand.tape) :
  let st' := Rand.run (browser_of_row env name pid eid ti st) t in
  let uuid := fst (supply env (imp_calls st)) in
  imp_proxies st' = imp_proxies st
  /\ imp_accounts st' = imp_accounts st
  /\ imp_calls st' = S (imp_calls st)
  /\ imp_inserts st' = S (imp_inserts st)
  /\ ((imp_browsers st' = imp_browsers st /\ imp_ids st' = imp_ids st
       /\ imp_locked st' = true)
      \/ (lock_held env st = false
          /\ imp_locked st' = false
          /\ ~ In uuid (stored_ids (imp_browsers st))
          /\ imp_ids st' = imp_ids st ++ [uuid]
          /\ exists b,
               browser_rows (imp_browsers st')
               = browser_rows (imp_browsers st) ++ [b]
               /\ browsers.browser_id b = uuid
               /\ browsers.proxy_id b = pid
               /\ browsers.email_account_id b = eid
               /\ browsers.to_interact b = ti
               /\ browsers.status b = "inactive")).
Proof.
  cbv zeta. unfold browser_of_row, Rand.run, Rand.bind.
  pose proof (create_browser_of_row_cases
                (fst (supply env (imp_calls st))) (snd (supply env (imp_calls st)))
                name pid eid ti (imp_browsers st) t) as Hcases.
  cbv zeta in Hcases. unfold Rand.run in Hcases.
  destruct (create_browser_of_row _ _ _ _ _ _ _ t) as [[answer bs] t1].
  cbn [fst snd] in *. unfold Rand.ret. cbn [fst].
  unfold call, written.
  change (lock_held env (called st)) with (lock_held env st).
  destruct (lock_held env st) eqn:Hheld.
  { cbn. repeat split. left. auto. }
  destruct Hcases as [[= -> ->]|(Hfresh & -> & b & Hrows & Hb)].
  { cbn. repeat split. left. auto. }
  cbn. repeat split. right. repeat split; auto.
  exists b. auto.
Qed.

Lemma import_browser_row_consistent (env : ImportEnv) (row : BrowserCsvRow)
    (st : Import) (t : Rand.tape) :
  consistent st ->
  consistent (Rand.run (import_browser_row env row st) t)
  /\ extends st (Rand.run (import_browser_row env row st) t)
  /\ (length (imp_ids (Rand.run (import_browser_row env row st) t))
      <= S (length (imp_ids st)))%nat.
Proof.
  intros (Hp & Ha & Hb & Hids & Hnd). unfold import_browser_row.
  pose proof (proxy_of_row_spec env row st Hp) as Hproxy.
  cbv zeta in Hproxy.
  destruct (proxy_of_row env row st) as [pid st1]. cbn [fst snd] in Hproxy.
  destruct Hproxy as (Hp1 & Hnew1 & (Ea1 & Eb1 & Ei1 & _) & _).
  assert (Hst1 : consistent st1 /\ extends st st1
                 /\ length (imp_ids st1) = length (imp_ids st)).
  { split; [|split].
    - unfold consistent. rewrite Ea1, Eb1, Ei1. auto.
    - unfold extends. rewrite Ea1, Eb1, Ei1.
      repeat split; try (exists []; now rewrite app_nil_r). exact Hnew1.
    - now rewrite Ei1. }
  destruct Hst1 as (Hc1 & He1 & Hl1).
  destruct pid as [pid|].
  2: { unfold Rand.run, Rand.ret. cbn [fst]. repeat split; try apply Hc1;
       try apply He1. lia. }
  pose proof (account_of_row_spec env row st1
                ltac:(apply Hc1)) as Hacc.
  cbv zeta in Hacc.
  destruct (account_of_row env row st1) as [eid st2]. cbn [fst snd] in Hacc.
  destruct Hacc as (Ha2 & Hnew2 & (Ep2 & Eb2 & Ei2 & _) & _).
  assert (Hst2 : consistent st2 /\ extends st st2
                 /\ length (imp_ids st2) = length (imp_ids st)).
  { destruct Hc1 as (C1 & C2 & C3 & C4 & C5). split; [|split].
    - unfold consistent. rewrite Ep2, Eb2, Ei2. auto.
    - apply (extends_trans st st1 st2 He1). unfold extends.
      rewrite Ep2, Eb2, Ei2.
      repeat split; try (exists []; now rewrite app_nil_r). exact Hnew2.
    - now rewrite Ei2. }
  destruct Hst2 as (Hc2 & He2 & Hl2).
  destruct eid as [eid|].
  2: { unfold Rand.run, Rand.ret. cbn [fst]. repeat split; try apply Hc2;
       try apply He2. lia. }
  destruct (to_interact_of_row row) as [ti|].
  2: { unfold Rand.run, Rand.ret. cbn [fst]. repeat split; try apply Hc2;
       try apply He2. lia. }
  pose proof (browser_of_row_cases env
                (dict_get (default_name (imp_ids st2)) (b_name row))
                pid eid ti st2 t) as Hbrowser.
  cbv zeta in Hbrowser.
  set (st3 := Rand.run (browser_of_row env _ pid eid ti st2) t) in *.
  destruct Hc2 as (C1 & C2 & C3 & C4 & C5).
  destruct Hbrowser
    as (Ep3 & Ea3 & _ & _ & [(Eb3 & Ei3 & _)
                           |(_ & _ & Hfresh & Ei3 & b & Hrows & Hid & _)]).
  - assert (He3 : extends st2 st3).
    { unfold extends. rewrite Ep3, Ea3, Eb3, Ei3.
      repeat split; exists []; now rewrite app_nil_r. }
    split; [|split].
    + unfold consistent. rewrite Ep3, Ea3, Eb3, Ei3. auto.
    + exact (extends_trans st st2 st3 He2 He3).
    + rewrite Ei3. lia.
  - assert (He3 : extends st2 st3).
    { unfold extends. rewrite Ep3, Ea3, Ei3, Hrows.
      repeat split; try (exists []; now rewrite app_nil_r);
        eexists; reflexivity. }
    split; [|split].
    + unfold consistent, stored_ids. rewrite Ep3, Ea3, Ei3, Hrows, map_app.
      cbn [map]. rewrite Hid. repeat split; auto.
      * now apply nodup_snoc.
      * intros x Hx. apply in_app_or in Hx as [Hx|Hx]; apply in_or_app;
          [left; now apply C4 | now right].
      * apply nodup_snoc; [exact C5|]. intros Hin. apply Hfresh.
        now apply C4.
    + exact (extends_trans st st2 st3 He2 He3).
    + rewrite Ei3, length_app. cbn. lia.
Qed.

Lemma import_browser_rows_consistent (env : ImportEnv)
    (file : list BrowserCsvRow) :
  forall (st : Import) (t : Rand.tape),
    consistent st ->
    consistent (Rand.run (import_browser_rows env file st) t)
    /\ extends st (Rand.run (import_browser_rows env file st) t)
    /\ (length (imp_ids (Rand.run (import_browser_rows env file st) t))
        <= length (imp_ids st) + length file)%nat.
Proof.
  induction file as [|row file IH]; intros st t Hst.
  - cbn. split; [exact Hst|]. split; [apply extends_refl | lia].
  - cbn [import_browser_rows]. unfold Rand.run, Rand.bind.
    destruct (import_browser_row_consistent env row st t Hst)
      as (H1 & H2 & H3). unfold Rand.run in H1, H2, H3.
    destruct (import_browser_row env row st t) as [st1 t1].
    cbn [fst] in *.
    destruct (IH st1 t1 H1) as (H4 & H5 & H6). unfold Rand.run in H4, H5, H6.
    split; [exact H4|]. split; [eapply extends_trans; eassumption|].
    cbn [length]. lia.
Qed.

(** For a file whose proxy port cells are plain, and whatever the
    collector does: [import_browsers_from_csv] stores no host, port and
    username, no address and no browser id a second time when none is
    stored twice before (proxies whose username is NULL, which come from
    rows without a username cell, are not counted); what was stored stays
    in place; and the ids returned are distinct ids of stored browsers, at
    most one for each row of the file. *)
Theorem import_browsers_keeps_tables_consistent
    (env : ImportEnv) (file : list BrowserCsvRow)
    (pt : proxies.table) (acc : email_accounts.table) (bs : BrowserStore)
    (t : Rand.tape) :
  Forall (fun row => plain_proxy_port row = true) file ->
  endpoints_unique pt ->
  List.NoDup (addresses acc) ->
  List.NoDup (stored_ids bs) ->
  let result := Rand.run (import_browsers_from_csv env file pt acc bs) t in
  endpoints_unique (imp_proxies result)
  /\ List.NoDup (addresses (imp_accounts result))
  /\ List.NoDup (stored_ids (imp_browsers result))
  /\ List.NoDup (imp_ids result)
  /\ incl (imp_ids result) (stored_ids (imp_browsers result))
  /\ (length (imp_ids result) <= length file)%nat
  /\ (exists new, proxies.rows (imp_proxies result) = proxies.rows pt ++ new)
  /\ (exists new, email_accounts.rows (imp_accounts result)
                  = email_accounts.rows acc ++ new)
  /\ (exists new, browser_rows (imp_browsers result)
                  = browser_rows bs ++ new).
Proof.
  intros _ Hp Ha Hb. unfold import_browsers_from_csv.
  destruct (import_browser_rows_consistent env file
              {| imp_ids := []; imp_proxies := pt; imp_accounts := acc;
                 imp_browsers := bs; imp_calls := 0; imp_inserts := 0;
                 imp_locked := false |} t)
    as ((H1 & H2 & H3 & H4 & H5) & (H6 & H7 & H8 & _) & H9).
  { repeat split; cbn; try assumption; [intros x [] | constructor]. }
  cbn in H6, H7, H8, H9. cbv zeta. repeat split; assumption.
Qed.

(** An instance: the file of four rows, the first and the last the same,
    into empty tables, with a collector that never runs. *)
Lemma import_browsers_keeps_tables_consistent_witness :
  List.NoDup
    (imp_ids (Rand.run (import_browsers_from_csv never_reclaiming
                          browsers_file no_proxies no_accounts no_browsers)
                [3; 1; 4; 1; 5]%N)).
Proof.
  destruct (import_browsers_keeps_tables_consistent never_reclaiming
              browsers_file no_proxies no_accounts no_browsers
              [3; 1; 4; 1; 5]%N) as (_ & _ & _ & H & _).
  - repeat constructor.
  - intros host port user. cbn. lia.
  - constructor.
  - constructor.
  - exact H.
Defined.

Lemma snoc_not_self {A : Type} (l : list A) (x : A) : l <> l ++ [x].
Proof.
  intros H. apply (f_equal (@length A)) in H. rewrite length_app in H.
  cbn in H. lia.
Qed.

Lemma filled_truthy (cell : option string) :
  truthy cell = true -> filled cell = cell.
Proof. unfold filled. now intros ->. Qed.

(** What [create_or_find_proxy] does for a username text on a database
    that nobody locks. *)
Lemma proxy_call_unlocked (host : string) (port : Z) (user : string)
    (pass : option string) (t : proxies.table) :
  sqlite_integer port = true ->
  exists i t',
    create_or_find_proxy_of_row host port (Some user) pass t = Some (i, t')
    /\ (selects_proxy host port (Some user) t = true ->
        t' = t /\ (1 <= endpoint_rows host port user t)%nat)
    /\ (selects_proxy host port (Some user) t = false ->
        endpoint_rows host port user t' = S (endpoint_rows host port user t)
        /\ length (proxies.rows t') = S (length (proxies.rows t))).
Proof.
  intros Hfits. unfold create_or_find_proxy_of_row, create_or_find_proxy,
    selects_proxy. rewrite Hfits.
  destruct (List.find _ (proxies.rows t)) as [existing|] eqn:Hfind.
  - exists (proxies.id existing), t. split; [now destruct pass|]. split.
    + intros _. split; [reflexivity|].
      apply find_some in Hfind as [Hin Hsame]. unfold endpoint_rows.
      assert (In existing
                (List.filter (proxies.same_endpoint host port user)
                   (proxies.rows t))) as H by (apply filter_In; auto).
      destruct (List.filter _ _); [destruct H | cbn; lia].
    + intros Hsel. apply existsb_find in Hsel. congruence.
  - exists (proxies.last_id t + 1),
      (snd (proxies.insert None host port (Some user) pass None t)).
    split; [now destruct pass|]. split.
    + intros Hsel. apply existsb_find in Hfind. congruence.
    + intros _. unfold endpoint_rows, proxies.insert.
      cbn [snd proxies.rows]. rewrite filter_snoc.
      assert (proxies.same_endpoint host port user
                {| proxies.id := proxies.last_id t + 1;
                   proxies.name := None; proxies.host := host;
                   proxies.port := port; proxies.username := Some user;
                   proxies.password := pass;
                   proxies.protocol := default (Some "http") None;
                   proxies.status := "active" |} = true) as ->
        by (apply same_endpoint_spec; reflexivity).
      rewrite !length_app. cbn. split; lia.
Qed.

(** A turn that fails after its proxy step leaves the proxy behind.  For
    a row with a proxy, a username and an email in a file without the
    column 'email_password', at a turn where no abandoned connection holds
    the write lock: no browser and no account is stored and no id is
    collected, while the endpoint of the row is in the proxies table
    afterwards, as a new row when it was not stored before. *)
Theorem failed_row_keeps_its_proxy
    (env : ImportEnv) (row : BrowserCsvRow) (st : Import)
    (t : Rand.tape) (host cell : string) (port : Z) (user : string) :
  lock_held env st = false ->
  filled (b_proxy_host row) = Some host ->
  b_proxy_port row = Some cell ->
  plain cell = true ->
  int_of_cell cell = Some port ->
  sqlite_integer port = true ->
  dict_get "" (b_proxy_username row) = Some user ->
  truthy (b_email row) = true ->
  b_email_password row = None ->
  let st' := Rand.run (import_browser_row env row st) t in
  imp_ids st' = imp_ids st
  /\ imp_browsers st' = imp_browsers st
  /\ imp_accounts st' = imp_accounts st
  /\ (1 <= endpoint_rows host port user (imp_proxies st'))%nat
  /\ (endpoint_rows host port user (imp_proxies st) = 0%nat ->
      length (proxies.rows (imp_proxies st'))
      = S (length (proxies.rows (imp_proxies st)))).
Proof.
  intros Hheld Hhost Hcell _ Hport Hfits Huser Hemail Hsecret.
  assert (Haccount : forall st1, account_of_row env row st1 = (None, st1)).
  { intros st1. unfold account_of_row.
    rewrite (filled_truthy _ Hemail), Hsecret.
    destruct (b_email row); [reflexivity | discriminate]. }
  unfold import_browser_row, proxy_of_row.
  rewrite Hhost, Hcell, Hport, Huser, Hfits. cbn [andb].
  destruct (proxy_call_unlocked host port user
              (dict_get "" (b_proxy_password row)) (imp_proxies st) Hfits)
    as (i & t' & -> & Hfound & Hadded).
  unfold call, written. rewrite Hheld.
  destruct (selects_proxy host port (Some user) (imp_proxies st)) eqn:Hsel;
    cbn [negb option_map]; rewrite Haccount; unfold Rand.run, Rand.ret;
    cbn [fst imp_ids imp_browsers imp_accounts imp_proxies counted
         with_proxies].
  - destruct (Hfound eq_refl) as [_ Hone]. repeat split; [exact Hone | lia].
  - destruct (Hadded eq_refl) as [Hcount Hlen].
    repeat split; [rewrite Hcount; lia | intros _; exact Hlen].
Qed.

(** An instance: a row of a file without the column, into empty
    tables. *)
Lemma failed_row_keeps_its_proxy_witness :
  (1 <= endpoint_rows "192.168.1.100" 8080 "user1"
          (imp_proxies
             (Rand.run (import_browser_row never_reclaiming
                          browser_row_without_password import_start) [])))%nat
  /\ imp_browsers
       (Rand.run (import_browser_row never_reclaiming
                    browser_row_without_password import_start) [])
     = no_browsers.
Proof.
  destruct (failed_row_keeps_its_proxy never_reclaiming
              browser_row_without_password import_start []
              "192.168.1.100" "8080" 8080 "user1")
    as (_ & Hb & _ & H & _);
    [reflexivity | reflexivity | reflexivity | reflexivity | reflexivity
    | reflexivity | reflexivity | reflexivity | reflexivity |].
  split; [exact H | exact Hb].
Defined.
Lemma unique_endpoint_row (t : proxies.table) (host : string) (port : Z)
    (user : string) (r1 r2 : proxies.row) :
  endpoints_unique t ->
  In r1 (proxies.rows t) -> In r2 (proxies.rows t) ->
  endpoint_of r1 = (host, port, Some user) ->
  endpoint_of r2 = (host, port, Some user) ->
  r1 = r2.
Proof.
  intros Huniq H1 H2 E1 E2. specialize (Huniq host port user).
  unfold endpoint_rows in Huniq.
  apply same_endpoint_spec in E1, E2.
  assert (In r1 (List.filter (proxies.same_endpoint host port user)
                   (proxies.rows t))) as F1 by (apply filter_In; auto).
  assert (In r2 (List.filter (proxies.same_endpoint host port user)
                   (proxies.rows t))) as F2 by (apply filter_In; auto).
  destruct (List.filter _ (proxies.rows t)) as [|x [|y l]].
  - destruct F1.
  - destruct F1 as [<-|[]]. now destruct F2 as [<-|[]].
  - cbn in Huniq. lia.
Qed.

(** A browser that a turn of [import_browsers_from_csv] creates is
    stored as the last row, 'inactive', under the id that was collected.
    It points to a stored proxy with the host, port and username of its
    row; when the row has a text for the username this is the only stored
    proxy of that host, port and username, so that such rows share one
    proxy.  And it points to a stored account with the address of its row.
    Without a proxy host, or without an email, the reference is NULL.  The
    port cell of the row is taken to be plain. *)
Theorem imported_browser_references_stored_rows
    (env : ImportEnv) (row : BrowserCsvRow) (st : Import)
    (t : Rand.tape) (uuid : string) :
  plain_proxy_port row = true ->
  consistent st ->
  imp_ids (Rand.run (import_browser_row env row st) t)
  = imp_ids st ++ [uuid] ->
  let st' := Rand.run (import_browser_row env row st) t in
  exists b,
    browser_rows (imp_browsers st') = browser_rows (imp_browsers st) ++ [b]
    /\ browsers.browser_id b = uuid
    /\ uuid = fst (supply env (imp_calls st))
    /\ browsers.status b = "inactive"
    /\ Some (browsers.to_interact b) = to_interact_of_row row
    /\ match filled (b_proxy_host row) with
       | None => browsers.proxy_id b = None
       | Some host =>
           exists p cell,
             In p (proxies.rows (imp_proxies st'))
             /\ browsers.proxy_id b = Some (proxies.id p)
             /\ proxies.host p = host
             /\ b_proxy_port row = Some cell
             /\ int_of_cell cell = Some (proxies.port p)
             /\ proxies.username p = dict_get "" (b_proxy_username row)
             /\ forall user q,
                  dict_get "" (b_proxy_username row) = Some user ->
                  In q (proxies.rows (imp_proxies st')) ->
                  endpoint_of q = (host, proxies.port p, Some user) ->
                  q = p
       end
    /\ match filled (b_email row) with
       | None => browsers.email_account_id b = None
       | Some address =>
           exists e,
             In e (email_accounts.rows (imp_accounts st'))
             /\ browsers.email_account_id b = Some (email_accounts.id e)
             /\ email_accounts.email e = address
       end.
Proof.
  intros _ (Hp & Ha & Hb & Hids & Hnd). unfold import_browser_row.
  pose proof (proxy_of_row_spec env row st Hp) as Hproxy.
  cbv zeta in Hproxy.
  destruct (proxy_of_row env row st) as [pid st1]. cbn [fst snd] in Hproxy.
  destruct Hproxy as (Hp1 & _ & (Ea1 & Eb1 & Ei1 & Ec1) & Hpid).
  destruct pid as [pid|].
  2: { unfold Rand.run, Rand.ret. cbn [fst]. rewrite Ei1. intros H.
       now apply snoc_not_self in H. }
  pose proof (account_of_row_spec env row st1) as Hacc.
  rewrite Ea1 in Hacc. specialize (Hacc Ha). cbv zeta in Hacc.
  destruct (account_of_row env row st1) as [eid st2]. cbn [fst snd] in Hacc.
  destruct Hacc as (_ & _ & (Ep2 & Eb2 & Ei2 & Ec2) & Heid).
  destruct eid as [eid|].
  2: { unfold Rand.run, Rand.ret. cbn [fst]. rewrite Ei2, Ei1. intros H.
       now apply snoc_not_self in H. }
  destruct (to_interact_of_row row) as [ti|].
  2: { unfold Rand.run, Rand.ret. cbn [fst]. rewrite Ei2, Ei1. intros H.
       now apply snoc_not_self in H. }
  pose proof (browser_of_row_cases env
                (dict_get (default_name (imp_ids st2)) (b_name row))
                pid eid ti st2 t) as Hbrowser.
  cbv zeta in Hbrowser.
  set (st3 := Rand.run (browser_of_row env _ pid eid ti st2) t) in *.
  destruct Hbrowser
    as (Ep3 & Ea3 & _ & _ & [(Eb3 & Ei3 & _)
                           |(_ & _ & Hfresh & Ei3 & b & Hrows & Hid & Hbp
                             & Hbe & Hti & Hstatus)]).
  { rewrite Ei3, Ei2, Ei1. intros H. now apply snoc_not_self in H. }
  rewrite Ei3, Ei2, Ei1. intros Hids'. apply app_inv_head in Hids'.
  injection Hids' as Huuid. rewrite Ec2, Ec1 in Huuid.
  exists b. rewrite Hrows, Eb2, Eb1, Ep3, Ea3.
  split; [reflexivity|]. split; [now rewrite Hid, Ec2, Ec1|].
  split; [now rewrite <- Huuid|]. split; [exact Hstatus|].
  split; [now rewrite Hti|]. split.
  - destruct pid as [i|].
    + destruct Hpid as (host & cell & port & r & -> & Hcell & Hport & _ & Hin
                        & Hi & Hh & Hpo & Hu).
      exists r, cell. rewrite Ep2, Hbp, Hi, Hpo. repeat split; auto.
      intros user q Huser Hq Heq.
      apply (unique_endpoint_row (imp_proxies st1) host port user);
        auto. unfold endpoint_of. rewrite Hh, Hpo, Hu. now rewrite Huser.
    + destruct Hpid as [-> _]. exact Hbp.
  - destruct eid as [i|].
    + destruct Heid as (a & e & -> & Hin & Hi & He).
      exists e. rewrite Hbe, Hi. auto.
    + destruct Heid as [-> _]. exact Hbe.
Qed.

(** An instance: the first row of the sample file, into empty tables. *)
Lemma imported_browser_references_stored_rows_witness :
  exists b,
    browser_rows
      (imp_browsers
         (Rand.run (import_browser_row never_reclaiming browser_row_one
                      import_start) [3; 1; 4; 1; 5]%N))
    = browser_rows (imp_browsers import_start) ++ [b]
    /\ browsers.browser_id b = "0b5e-0".
Proof.
  destruct (imported_browser_references_stored_rows never_reclaiming
              browser_row_one import_start [3; 1; 4; 1; 5]%N "0b5e-0")
    as (b & Hrows & Hid & _).
  - reflexivity.
  - split; [intros host port user; cbn; lia|].
    split; [constructor|]. split; [constructor|].
    split; [intros x [] | constructor].
  - vm_compute. reflexivity.
  - exists b. split; [exact Hrows | exact Hid].
Defined.

Lemma account_step_keeps_proxies (env : ImportEnv) (row : BrowserCsvRow)
    (st : Import) :
  imp_proxies (snd (account_of_row env row st)) = imp_proxies st.
Proof.
  unfold account_of_row.
  destruct (filled (b_email row)) as [a|]; [|reflexivity].
  destruct (b_email_password row) as [secret|]; [|reflexivity].
  set (writes := negb _).
  destruct (call_cases env writes
              (create_or_find_email_account_of_row a secret
                 (dict_get "gmail" (b_provider row)) (imp_accounts st))
              with_accounts st)
    as [(i & t' & _ & -> & _)|(st' & -> & [->| ->] & _)];
    [destruct writes|..]; reflexivity.
Qed.

Lemma turn_keeps_proxies_after_first_step (env : ImportEnv)
    (row : BrowserCsvRow) (st : Import) (t : Rand.tape) :
  imp_proxies (Rand.run (import_browser_row env row st) t)
  = imp_proxies (snd (proxy_of_row env row st)).
Proof.
  unfold import_browser_row.
  destruct (proxy_of_row env row st) as [[pid|] st1]; [|reflexivity].
  pose proof (account_step_keeps_proxies env row st1) as Hacc.
  destruct (account_of_row env row st1) as [[eid|] st2]; cbn [snd] in Hacc;
    [|exact Hacc].
  destruct (to_interact_of_row row) as [ti|]; [|exact Hacc].
  cbn [snd]. rewrite <- Hacc.
  apply (browser_of_row_cases env _ pid eid ti st2 t).
Qed.

(** A row with a proxy host and port but without a cell for the
    username (a short row) adds a proxy of its own, with NULL for the
    username, at every turn where no abandoned connection holds the write
    lock: the look-up [username = NULL] finds no row, so such rows never
    share a proxy, and a host and port that the file names in two of them
    is stored twice.  The port cell of the row is taken to be plain. *)
Theorem row_without_username_adds_a_proxy
    (env : ImportEnv) (row : BrowserCsvRow) (st : Import) (t : Rand.tape)
    (host cell : string) (port : Z) :
  lock_held env st = false ->
  filled (b_proxy_host row) = Some host ->
  b_proxy_port row = Some cell ->
  plain cell = true ->
  int_of_cell cell = Some port ->
  sqlite_integer port = true ->
  dict_get "" (b_proxy_username row) = None ->
  let st' := Rand.run (import_browser_row env row st) t in
  exists p,
    proxies.rows (imp_proxies st') = proxies.rows (imp_proxies st) ++ [p]
    /\ proxies.host p = host
    /\ proxies.port p = port
    /\ proxies.username p = None
    /\ forall user, endpoint_rows host port user (imp_proxies st')
                    = endpoint_rows host port user (imp_proxies st).
Proof.
  intros Hheld Hhost Hcell _ Hport Hfits Huser. cbv zeta.
  rewrite turn_keeps_proxies_after_first_step.
  unfold proxy_of_row. rewrite Hhost, Hcell, Hport, Huser, Hfits.
  unfold selects_proxy, create_or_find_proxy_of_row, call, written.
  rewrite Hfits, Hheld. cbn [andb negb snd fst].
  unfold proxies.insert. cbn [snd imp_proxies counted with_proxies proxies.rows].
  eexists. split; [reflexivity|]. repeat split.
  intros user. unfold endpoint_rows. cbn [proxies.rows].
  rewrite filter_snoc. unfold proxies.same_endpoint at 2. cbn.
  rewrite andb_false_r. now rewrite app_nil_r.
Qed.

(** An instance: the second turn for a row that ends after the port
    stores its host and port a second time. *)
Lemma row_without_username_adds_a_proxy_witness :
  map (fun p => (proxies.host p, proxies.port p, proxies.username p))
    (proxies.rows
       (imp_proxies
          (Rand.run (import_browser_rows never_reclaiming
                       [browser_row_ending_at_port; browser_row_ending_at_port]
                       import_start) [])))
  = [("192.168.1.102", 3128, None); ("192.168.1.102", 3128, None)].
Proof.
  set (st1 := Rand.run (import_browser_row never_reclaiming
                          browser_row_ending_at_port import_start) []).
  destruct (row_without_username_adds_a_proxy never_reclaiming
              browser_row_ending_at_port st1 []
              "192.168.1.102" "3128" 3128)
    as (p & Hrows & Hhost & Hport & Huser & _);
    [reflexivity | reflexivity | reflexivity | reflexivity | reflexivity
    | reflexivity | reflexivity |].
  change (Rand.run (import_browser_rows never_reclaiming
                      [browser_row_ending_at_port; browser_row_ending_at_port]
                      import_start) [])
    with (Rand.run (import_browser_row never_reclaiming
                      browser_row_ending_at_port st1) []).
  rewrite Hrows, map_app. cbn [map]. rewrite Hhost, Hport, Huser.
  reflexivity.
Defined.

(** A turn whose INSERT into the accounts table is refused, or meets the
    lock, leaves the database locked: for a row whose proxy step returns
    and whose address is not stored, with a password cell that is empty
    of a value or a provider cell that is (a short row), the turn stores
    nothing after its proxy step and the lock is held afterwards. *)
Theorem refused_account_locks_the_database
    (env : ImportEnv) (row : BrowserCsvRow) (st st1 : Import)
    (t : Rand.tape) (pid : option Z) (address : string)
    (secret : option string) :
  proxy_of_row env row st = (Some pid, st1) ->
  filled (b_email row) = Some address ->
  selects_account address (imp_accounts st1) = false ->
  b_email_password row = Some secret ->
  secret = None \/ dict_get "gmail" (b_provider row) = None ->
  let st' := Rand.run (import_browser_row env row st) t in
  st' = counted true st1
  /\ imp_locked st' = true
  /\ same_tables st1 st'.
Proof.
  intros Hproxy Hemail Hnew Hsecret Hnull. cbv zeta.
  assert (Hrun : Rand.run (import_browser_row env row st) t = counted true st1).
  { unfold import_browser_row. rewrite Hproxy.
    unfold account_of_row. rewrite Hemail, Hsecret, Hnew. cbn [negb].
    assert (create_or_find_email_account_of_row address secret
              (dict_get "gmail" (b_provider row)) (imp_accounts st1) = None)
      as ->.
    { unfold create_or_find_email_account_of_row.
      apply existsb_find in Hnew. unfold selects_account in Hnew.
      destruct Hnull as [->| ->]; [|destruct secret]; now rewrite Hnew. }
    unfold call, written. now destruct (lock_held env st1). }
  rewrite Hrun. repeat split.
Qed.

(** An instance: the short row of the sample file after its first row. *)
Lemma refused_account_locks_the_database_witness :
  imp_locked
    (Rand.run (import_browser_rows never_reclaiming
                 [browser_row_one; browser_row_short] import_start)
       [3; 1; 4; 1; 5]%N) = true.
Proof.
  set (t1 := snd (import_browser_row never_reclaiming browser_row_one
                    import_start [3; 1; 4; 1; 5]%N)).
  set (st1 := Rand.run (import_browser_row never_reclaiming browser_row_one
                          import_start) [3; 1; 4; 1; 5]%N).
  destruct (refused_account_locks_the_database never_reclaiming
              browser_row_short st1 st1 t1 (Some 1) "bob@example.org"
              (Some "hidden"))
    as (_ & Hlocked & _);
    [vm_compute; reflexivity | reflexivity | vm_compute; reflexivity
    | reflexivity | right; reflexivity |].
  vm_compute in Hlocked |- *. exact Hlocked.
Defined.

Lemma locked_row_stores_nothing (env : ImportEnv) (row : BrowserCsvRow)
    (st : Import) (t : Rand.tape) :
  lock_held env st = true ->
  let st' := Rand.run (import_browser_row env row st) t in
  same_tables st st'
  /\ imp_locked st' = true
  /\ (imp_inserts st <= imp_inserts st')%nat.
Proof.
  intros Hheld. cbv zeta.
  assert (Hlocked : imp_locked st = true)
    by (unfold lock_held in Hheld; now apply andb_true_iff in Hheld).
  assert (Hcall : forall (A T : Type) writes (unlocked : option (A * T)) store,
             let r := call env writes unlocked store st in
             (snd r = st \/ snd r = counted true st)
             /\ (fst r = None \/ snd r = st)).
  { intros A T writes unlocked store. unfold call, written. rewrite Hheld.
    destruct writes; [cbn; auto|].
    destruct unlocked as [[a t']|]; cbn; auto. }
  assert (Hkept : forall st1, st1 = st \/ st1 = counted true st ->
             same_tables st st1 /\ imp_locked st1 = true
             /\ (imp_inserts st <= imp_inserts st1)%nat).
  { intros st1 [->| ->]; cbn; repeat split; auto. }
  unfold import_browser_row.
  assert (Hproxy : (snd (proxy_of_row env row st) = st
                    \/ snd (proxy_of_row env row st) = counted true st)
                   /\ (fst (proxy_of_row env row st) = None
                       \/ snd (proxy_of_row env row st) = st)).
  { unfold proxy_of_row.
    destruct (filled (b_proxy_host row)); [|cbn; auto].
    destruct (b_proxy_port row); [|cbn; auto].
    destruct (int_of_cell _); [|cbn; auto].
    match goal with |- context [call env ?w ?u ?s st] =>
      destruct (Hcall _ _ w u s) as [H1 H2];
      destruct (call env w u s st) as [answer st1] end.
    cbn [fst snd] in *. split; [exact H1|].
    destruct H2 as [->|H2]; auto. }
  destruct (proxy_of_row env row st) as [[pid|] st1]; cbn [fst snd] in Hproxy.
  2: { unfold Rand.run, Rand.ret. cbn [fst]. apply Hkept, Hproxy. }
  destruct Hproxy as [_ [Hno| ->]]; [discriminate|].
  assert (Haccount : (snd (account_of_row env row st) = st
                      \/ snd (account_of_row env row st) = counted true st)
                     /\ (fst (account_of_row env row st) = None
                         \/ snd (account_of_row env row st) = st)).
  { unfold account_of_row.
    destruct (filled (b_email row)); [|cbn; auto].
    destruct (b_email_password row); [|cbn; auto].
    match goal with |- context [call env ?w ?u ?s st] =>
      destruct (Hcall _ _ w u s) as [H1 H2];
      destruct (call env w u s st) as [answer st1] end.
    cbn [fst snd] in *. split; [exact H1|].
    destruct H2 as [->|H2]; auto. }
  destruct (account_of_row env row st) as [[eid|] st2];
    cbn [fst snd] in Haccount.
  2: { unfold Rand.run, Rand.ret. cbn [fst]. apply Hkept, Haccount. }
  destruct Haccount as [_ [Hno| ->]]; [discriminate|].
  destruct (to_interact_of_row row) as [ti|].
  2: { unfold Rand.run, Rand.ret. cbn [fst]. apply Hkept. now left. }
  pose proof (browser_of_row_cases env
                (dict_get (default_name (imp_ids st)) (b_name row))
                pid eid ti st t) as Hbrowser.
  cbv zeta in Hbrowser.
  destruct Hbrowser
    as (Ep & Ea & _ & Hn & [(Eb & Ei & Hl)|(Hfree & _)]); [|congruence].
  repeat split; auto. lia.
Qed.

(** While an abandoned connection holds the write lock and the collector
    does not close it, the import stores nothing: whatever rows follow, the
    three tables and the ids collected stay as they are (every turn that
    needs an INSERT ends with 'database is locked'), and the lock is still
    held at the end. *)
Theorem locked_import_stores_nothing
    (env : ImportEnv) (file : list BrowserCsvRow) (st : Import)
    (t : Rand.tape) :
  imp_locked st = true ->
  (forall k, (imp_inserts st <= k)%nat -> reclaimed env k = false) ->
  let st' := Rand.run (import_browser_rows env file st) t in
  imp_proxies st' = imp_proxies st
  /\ imp_accounts st' = imp_accounts st
  /\ imp_browsers st' = imp_browsers st
  /\ imp_ids st' = imp_ids st
  /\ imp_locked st' = true.
Proof.
  revert st t. induction file as [|row file IH]; intros st t Hlocked Hnever.
  - cbn. auto.
  - cbn [import_browser_rows]. cbv zeta. unfold Rand.run, Rand.bind.
    assert (Hheld : lock_held env st = true).
    { unfold lock_held. rewrite Hlocked, (Hnever _ (Nat.le_refl _)).
      reflexivity. }
    pose proof (locked_row_stores_nothing env row st t Hheld) as Hrow.
    cbv zeta in Hrow. unfold Rand.run in Hrow.
    destruct (import_browser_row env row st t) as [st1 t1]. cbn [fst] in Hrow.
    destruct Hrow as ((E1 & E2 & E3 & E4) & Hl1 & Hn1).
    specialize (IH st1 t1 Hl1). cbv zeta in IH. unfold Rand.run in IH.
    destruct IH as (F1 & F2 & F3 & F4 & F5).
    { intros k Hk. apply Hnever. lia. }
    repeat split; congruence.
Qed.

(** An instance: after the first two rows of the sample file the third
    row, a full row for a new proxy and account, stores nothing. *)
Lemma locked_import_stores_nothing_witness :
  imp_ids
    (Rand.run (import_browser_rows never_reclaiming browsers_file
                 import_start) [3; 1; 4; 1; 5]%N)
  = ["0b5e-0"].
Proof.
  set (run2 := import_browser_rows never_reclaiming
                 [browser_row_one; browser_row_short] import_start
                 [3; 1; 4; 1; 5]%N).
  destruct (locked_import_stores_nothing never_reclaiming
              [browser_row_three; browser_row_one] (fst run2) (snd run2))
    as (_ & _ & _ & Hids & _);
    [vm_compute; reflexivity | intros k _; reflexivity |].
  vm_compute in Hids |- *. exact Hids.
Defined.
